(** * Email-authentication posture analysis: a shallow embedding

    The development follows the JavaScript services of the repository:
    - [src/utils/rateLimit.js]            (module [RateLimit]),
    - [src/services/spfService.js]        (module [Spf]),
    - [src/services/dkimService.js]       (module [Dkim]),
    - [src/services/mxService.js]         (module [Mx]),
    - [src/services/emailSecurityService.js] (module [Aggregate]).

    Conventions of the embedding.
    - A JavaScript number is an exact rational ([Q]); every score the
      analyzers build is a multiple of one half, and [Math.round] is
      [floor (x + 1/2)].  Counters, priorities and timestamps are integers.
    - A JavaScript string is a [string] whose characters are the code
      units U+0000..U+00FF; [toLowerCase] acts on that range.
    - An object is a record; a property that may be missing is an [option].
    - DNS answers, the mailauth library and the clock are inputs. *)

From Stdlib Require Import ZArith QArith Qround Lia Lqa List Bool.
From Stdlib Require Import Ascii String DecimalString.
From Stdlib Require Import Sorted Permutation.
From stdpp Require Import gmap strings.

Local Open Scope string_scope.
Local Open Scope list_scope.
Local Open Scope Z_scope.

(** ** JavaScript string primitives *)

Module Js.

(** [s.startsWith(p)] *)
Definition startsWith (s p : string) : bool := String.prefix p s.

(** [s.includes(p)]: some suffix of [s] starts with [p]. *)
Fixpoint includes (s p : string) : bool :=
  String.prefix p s ||
  match s with
  | EmptyString => false
  | String _ s' => includes s' p
  end.

(** One code unit of [toLowerCase] on U+0000..U+00FF: A-Z, and the
    Latin-1 capitals U+00C0..U+00DE without the multiplication sign. *)
Definition lowerChar (c : ascii) : ascii :=
  let n := nat_of_ascii c in
  if ((65 <=? n)%nat && (n <=? 90)%nat)
     || ((192 <=? n)%nat && (n <=? 222)%nat && negb (n =? 215)%nat)
  then ascii_of_nat (n + 32) else c.

Fixpoint toLowerCase (s : string) : string :=
  match s with
  | EmptyString => EmptyString
  | String c s' => String (lowerChar c) (toLowerCase s')
  end.

(** [l.join(sep)] *)
Definition join (sep : string) (l : list string) : string :=
  String.concat sep l.

(** [s.split(c)] for a one-character separator [c]: the pieces between
    the separators, never an empty array. *)
Fixpoint splitChar (c : ascii) (s : string) : list string :=
  match s with
  | EmptyString => [EmptyString]
  | String d s' =>
      if Ascii.eqb d c then EmptyString :: splitChar c s'
      else match splitChar c s' with
           | [] => [String d EmptyString]
           | p :: ps => String d p :: ps
           end
  end.

(** The class [\s] restricted to U+0000..U+00FF. *)
Definition isSpace (c : ascii) : bool :=
  let n := nat_of_ascii c in
  ((9 <=? n)%nat && (n <=? 13)%nat) || (n =? 32)%nat || (n =? 160)%nat.

(** [s.split(/\s+/)]: [inSep] records that the previous character was
    white space, so that a run of white space separates once. *)
Fixpoint splitSpacesFrom (inSep : bool) (s : string) : list string :=
  match s with
  | EmptyString => [EmptyString]
  | String d s' =>
      if isSpace d then
        if inSep then splitSpacesFrom true s'
        else EmptyString :: splitSpacesFrom true s'
      else match splitSpacesFrom false s' with
           | [] => [String d EmptyString]
           | p :: ps => String d p :: ps
           end
  end.

Definition splitSpaces (s : string) : list string := splitSpacesFrom false s.

(** Template-literal rendering of a non-negative integer. *)
Definition showNat (n : nat) : string :=
  NilZero.string_of_uint (Nat.to_uint n).

(** Truthiness of a property holding a string or nothing. *)
Definition truthy (o : option string) : bool :=
  match o with
  | Some s => negb (String.eqb s EmptyString)
  | None => false
  end.

(** The line break [\r\n] of a template literal. *)
Definition crlf : string :=
  String (Ascii true false true true false false false false)
    (String (Ascii false true false true false false false false) EmptyString).

(** The double-quote character U+0022, and a text between two of them. *)
Definition dquote : string :=
  String (Ascii false true false false false true false false) EmptyString.

Definition quoted (s : string) : string := dquote +:+ s +:+ dquote.

(** [a || b] on such properties. *)
Definition orElse (a b : option string) : option string :=
  if truthy a then a else b.

(** [Math.min] and [Math.max]. *)
Definition min (x y : Q) : Q := if Qle_bool x y then x else y.
Definition max (x y : Q) : Q := if Qle_bool x y then y else x.

(** [x >= y] and [x > y] on numbers. *)
Definition geq (x y : Q) : bool := Qle_bool y x.
Definition gt (x y : Q) : bool := negb (Qle_bool x y).

(** [Math.round]. *)
Definition round (x : Q) : Z := Qfloor (x + (1 # 2)).

(** [Math.round(x * 10) / 10] *)
Definition round1 (x : Q) : Q := inject_Z (round (x * 10)) / 10.

End Js.

(** ** The request-admission ledger ([src/utils/rateLimit.js]) *)

Module RateLimit.

(** A ledger entry [{ count, resetTime }]. *)
Record Entry := { count : Z; resetTime : Z }.

(** The parts of an express request that [checkRateLimit] reads. *)
Record Request := {
  ip : option string;
  connection_remoteAddress : option string;
  socket_remoteAddress : option string
}.

(** The object returned by [checkRateLimit]; [error] and the echoed
    [resetTime] exist only on a refusal, [remaining] only on an admission. *)
Record Result := {
  allowed : bool;
  remaining : option Z;
  error : option string;
  res_resetTime : option Z
}.

Definition limit : Z := 10.
Definition window : Z := 60 * 1000.

(** [req.ip || req.connection?.remoteAddress || req.socket?.remoteAddress || 'unknown'] *)
Definition clientIp (req : Request) : string :=
  match Js.orElse (Js.orElse (Js.orElse (ip req) (connection_remoteAddress req))
                             (socket_remoteAddress req))
                  (Some "unknown") with
  | Some a => a
  | None => "unknown"
  end.

(** [checkRateLimit(req)] with [Date.now()] = [now], threading the
    module-level [rateLimitStore]. *)
Definition checkRateLimit (req : Request) (now : Z) (store : gmap string Entry)
  : Result * gmap string Entry :=
  let a := clientIp req in
  match store !! a with
  | None =>
      ({| allowed := true; remaining := Some (limit - 1); error := None;
          res_resetTime := None |},
       <[a := {| count := 1; resetTime := now + window |}]> store)
  | Some userData =>
      if now >? resetTime userData then
        ({| allowed := true; remaining := Some (limit - 1); error := None;
            res_resetTime := None |},
         <[a := {| count := 1; resetTime := now + window |}]> store)
      else if count userData >=? limit then
        ({| allowed := false; remaining := None;
            error := Some "Too many requests. Please try again later.";
            res_resetTime := Some (resetTime userData) |},
         store)
      else
        let userData' := {| count := count userData + 1;
                            resetTime := resetTime userData |} in
        ({| allowed := true; remaining := Some (limit - count userData');
            error := None; res_resetTime := None |},
         <[a := userData']> store)
  end.

(** The periodic sweep: entries whose window has expired are deleted. *)
Definition sweep (now : Z) (store : gmap string Entry) : gmap string Entry :=
  filter (fun kv => negb (now >? resetTime (snd kv)) = true) store.

(** What the event loop runs against the ledger: a request or a sweep. *)
Inductive Event :=
| Call (req : Request) (now : Z)
| Sweep (now : Z).

Definition eventTime (e : Event) : Z :=
  match e with Call _ t => t | Sweep t => t end.

Definition fromAddr (a : string) (e : Event) : bool :=
  match e with
  | Call req _ => String.eqb (clientIp req) a
  | Sweep _ => false
  end.

(** Runs the events in order; returns the results handed to the requests
    of address [a] and the final ledger. *)
Fixpoint run (a : string) (tr : list Event) (store : gmap string Entry)
  : list Result * gmap string Entry :=
  match tr with
  | [] => ([], store)
  | Call req now :: tr' =>
      let '(r, store') := checkRateLimit req now store in
      let '(rs, store'') := run a tr' store' in
      (if String.eqb (clientIp req) a then r :: rs else rs, store'')
  | Sweep now :: tr' => run a tr' (sweep now store)
  end.

(** The ledger entry of [a] is a live window that ends at [R] with
    [k] requests counted. *)
Definition liveWindow (a : string) (k R : Z) (store : gmap string Entry) : Prop :=
  store !! a = Some {| count := k; resetTime := R |}.

(** The ledger has nothing for [a] that outlives [R]. *)
Definition noLaterThan (a : string) (R : Z) (store : gmap string Entry) : Prop :=
  match store !! a with
  | None => True
  | Some e => resetTime e <= R
  end.

End RateLimit.

(** ** Report shapes shared by the analyzers *)

Module Report.

(** The four values of a score's [level] property. *)
Inductive Level := Poor | Fair | Good | Excellent.

(** [{ value, outOf, level, details }]; the early-return scores carry
    no [details]. *)
Record Score := {
  value : Q;
  outOf : Q;
  level : Level;
  details : option (list string)
}.

(** An SPF mechanism entry [{ original, type, requiresLookup }]. *)
Record Mechanism := {
  original : string;
  type : string;
  requiresLookup : bool
}.

(** What mailauth's [spf()] resolves to: [status], [comment], [explanation]. *)
Record SpfResult := {
  spf_status : string;
  spf_comment : option string;
  spf_explanation : option string
}.

(** One entry of [ipTestResults]: [{ ip, result, explanation, details }]. *)
Record IpTestResult := {
  test_ip : string;
  test_result : string;
  test_explanation : option string;
  test_details : option SpfResult
}.

(** The [mailauthResult] summary of an SPF report. *)
Record SpfSummary := {
  summary_status : string;
  summary_explanation : option string;
  summary_details : option SpfResult
}.

(** The first entry of mailauth's [dkimVerify] result: [status.result]
    and [info]. *)
Record DkimVerifyItem := {
  status_result : option string;
  info : option string
}.

(** A [dkimVerify] result; [results] may be missing. *)
Record DkimVerify := { results : option (list DkimVerifyItem) }.

(** An MX answer [{ priority, exchange }]. *)
Record MxRecord := { priority : Z; exchange : string }.

(** The properties that only one protocol's report has. *)
Inductive ProtocolFields :=
| NoFields
| SpfFields (lookups : nat) (policy : string) (mechanisms : list Mechanism)
            (ipTestResults : list IpTestResult) (mailauthResult : SpfSummary)
| DkimFields (selector : string) (checkedRecord : string)
             (mailauthResult : option (option DkimVerify))
| MxFields (records : list MxRecord)
| DmarcFields (parsed_p : option string).

(** A protocol report.  A property the object literal does not set is
    [None]. *)
Record ProtocolReport := {
  success : bool;
  error : option string;
  domain : option string;
  rawRecord : option string;
  warnings : option (list string);
  recommendations : option (list string);
  score : option Score;
  fields : ProtocolFields
}.

(** What [analyzeDKIMRecord] and [analyzeMXRecords] return:
    [{ warnings, recommendations, score }]. *)
Record Analysis := {
  a_warnings : list string;
  a_recommendations : list string;
  a_score : Score
}.

(** The result of a DNS TXT query: the chunks of every record, or the
    thrown error's [code] and [message]. *)
Inductive TxtOutcome :=
| TxtOk (records : list (list string))
| TxtErr (code : option string) (message : string).

(** The result of a DNS MX query; [None] stands for a missing answer. *)
Inductive MxOutcome :=
| MxOk (records : option (list MxRecord))
| MxErr (message : string).

End Report.

(** ** SPF analysis ([src/services/spfService.js]) *)

Module Spf.
Import Report.

(** The [analysis] object of [_analyzeSpfRecord]. *)
Record Analysis := {
  lookups : nat;
  warnings : list string;
  recommendations : list string;
  policy : string;
  mechanisms : list Mechanism
}.

Definition pushWarning (w : string) (a : Analysis) : Analysis :=
  {| lookups := lookups a; warnings := warnings a ++ [w];
     recommendations := recommendations a; policy := policy a;
     mechanisms := mechanisms a |}.

Definition pushRecommendation (r : string) (a : Analysis) : Analysis :=
  {| lookups := lookups a; warnings := warnings a;
     recommendations := recommendations a ++ [r]; policy := policy a;
     mechanisms := mechanisms a |}.

Definition unshiftWarning (w : string) (a : Analysis) : Analysis :=
  {| lookups := lookups a; warnings := w :: warnings a;
     recommendations := recommendations a; policy := policy a;
     mechanisms := mechanisms a |}.

Definition unshiftRecommendation (r : string) (a : Analysis) : Analysis :=
  {| lookups := lookups a; warnings := warnings a;
     recommendations := r :: recommendations a; policy := policy a;
     mechanisms := mechanisms a |}.

Definition pushMechanism (m : Mechanism) (a : Analysis) : Analysis :=
  {| lookups := lookups a; warnings := warnings a;
     recommendations := recommendations a; policy := policy a;
     mechanisms := mechanisms a ++ [m] |}.

Definition countLookup (a : Analysis) : Analysis :=
  {| lookups := S (lookups a); warnings := warnings a;
     recommendations := recommendations a; policy := policy a;
     mechanisms := mechanisms a |}.

Definition when (b : bool) (f : Analysis -> Analysis) (a : Analysis) : Analysis :=
  if b then f a else a.

Definition isIn (x : string) (l : list string) : bool :=
  existsb (String.eqb x) l.

(** [record.split(/\s+/).slice(1)] *)
Definition mechanismsOf (record : string) : list string :=
  tl (Js.splitSpaces record).

(** [mechanisms.find(m => m.toLowerCase().includes("all"))] *)
Definition findPolicy (mechs : list string) : option string :=
  List.find (fun m => Js.includes (Js.toLowerCase m) "all") mechs.

(** The freshly built [analysis] with its [policy] set, and the grading
    of the policy. *)
Definition policyStep (mechs : list string) : Analysis :=
  let a0 := {| lookups := 0; warnings := []; recommendations := [];
               policy := match findPolicy mechs with
                         | Some m => m
                         | None => "No policy specified"
                         end;
               mechanisms := [] |} in
  match findPolicy mechs with
  | None =>
      pushRecommendation
        ("Add " +:+ Js.quoted "-all" +:+ " (fail), " +:+ Js.quoted "~all" +:+ " (softfail), or " +:+ Js.quoted "?all" +:+ " (neutral) to specify a default policy.")
        (pushWarning ("Record does not contain a terminating " +:+ Js.quoted "all" +:+ " mechanism.") a0)
  | Some policyMechanism =>
      let policyLower := Js.toLowerCase policyMechanism in
      if String.eqb policyLower "+all" then
        pushRecommendation
          ("Replace " +:+ Js.quoted "+all" +:+ " with " +:+ Js.quoted "-all" +:+ " for strict policy or " +:+ Js.quoted "~all" +:+ " for gradual deployment.")
          (pushWarning
             ("The " +:+ Js.quoted "+all" +:+ " mechanism is highly discouraged as it allows any server to send email.")
             a0)
      else if String.eqb policyLower "?all" then
        pushRecommendation
          ("Consider using " +:+ Js.quoted "~all" +:+ " (softfail) or " +:+ Js.quoted "-all" +:+ " (fail) for better security.")
          (pushWarning ("Neutral policy " +:+ Js.quoted "?all" +:+ " provides no protection against spoofing.") a0)
      else if String.eqb policyLower "~all" then
        pushRecommendation
          ("Good: Using " +:+ Js.quoted "~all" +:+ " allows gradual SPF deployment. Consider " +:+ Js.quoted "-all" +:+ " for stricter security once confident.")
          a0
      else if String.eqb policyLower "-all" then
        pushRecommendation
          ("Excellent: Using " +:+ Js.quoted "-all" +:+ " provides the strongest SPF protection.") a0
      else a0
  end.

(** [mechLower.split(":")[0].split("/")[0].split("=")[0]] *)
Definition firstPiece (c : ascii) (s : string) : string :=
  match Js.splitChar c s with
  | p :: _ => p
  | [] => EmptyString
  end.

Definition typeOf (mechanism : string) : string :=
  firstPiece "=" (firstPiece "/" (firstPiece ":" (Js.toLowerCase mechanism))).

(** [s.split(c)[1]], which may be undefined. *)
Definition secondPiece (c : ascii) (s : string) : option string :=
  nth_error (Js.splitChar c s) 1.

(** One iteration of the loop over the mechanisms. *)
Definition mechanismStep (a : Analysis) (mechanism : string) : Analysis :=
  let type := typeOf mechanism in
  let a1 :=
    pushMechanism
      {| original := mechanism; type := type;
         requiresLookup := isIn type ["include"; "a"; "mx"; "exists"; "redirect"] |}
      a in
  let a2 := when (isIn type ["include"; "a"; "mx"; "exists"]) countLookup a1 in
  let a3 :=
    if String.eqb type "redirect" then
      let redirectDomain := secondPiece "=" mechanism in
      let a' := countLookup a2 in
      match redirectDomain with
      | Some d =>
          when (Js.truthy redirectDomain)
            (pushRecommendation
               ("Redirect to " +:+ d
                +:+ " detected. Ensure the target domain has a valid SPF record."))
            a'
      | None => a'
      end
    else a2 in
  let a4 :=
    when (String.eqb type "ptr")
      (fun x =>
         pushRecommendation
           ("Remove the " +:+ Js.quoted "ptr" +:+ " mechanism. Use "
            +:+ Js.quoted "a" +:+ ", " +:+ Js.quoted "mx" +:+ ", or "
            +:+ Js.quoted "ip4/ip6" +:+ " instead.")
           (pushWarning
              ("The " +:+ Js.quoted "ptr"
               +:+ " mechanism is deprecated and should not be used (RFC 7208).")
              x))
      a3 in
  let a5 :=
    when (String.eqb type "mx" && negb (Js.includes mechanism ":"))
      (pushRecommendation
         ("Using bare " +:+ Js.quoted "mx"
          +:+ " mechanism. Consider specifying MX records explicitly for better performance."))
      a4 in
  when (String.eqb type "a" && negb (Js.includes mechanism ":"))
    (pushRecommendation
       ("Using bare " +:+ Js.quoted "a"
        +:+ " mechanism. Consider specifying A records explicitly for better performance."))
    a5.

(** The whole loop. *)
Definition mechanismLoop (mechs : list string) (a : Analysis) : Analysis :=
  fold_left mechanismStep mechs a.

Definition fatalLookupWarning (n : nat) : string :=
  "Fatal: Exceeded 10 DNS lookup limit. Found " +:+ Js.showNat n
  +:+ " lookups (RFC 7208).".

Definition reduceLookupsAdvice : string :=
  "Reduce DNS lookups by: 1) Flattening SPF records, 2) Using IP ranges instead of includes, 3) Consolidating mechanisms.".

Definition approachingWarning (n : nat) : string :=
  "Approaching DNS lookup limit: " +:+ Js.showNat n +:+ "/10 lookups used.".

Definition optimizeAdvice : string :=
  "Consider optimizing your SPF record to reduce DNS lookups before hitting the limit.".

Definition monitorNote (n : nat) : string :=
  "Currently using " +:+ Js.showNat n
  +:+ "/10 DNS lookups. Monitor this as you add more mechanisms.".

(** The DNS lookup limit analysis. *)
Definition lookupBudget (a : Analysis) : Analysis :=
  if (10 <? lookups a)%nat then
    unshiftRecommendation reduceLookupsAdvice
      (unshiftWarning (fatalLookupWarning (lookups a)) a)
  else if (8 <? lookups a)%nat then
    pushRecommendation optimizeAdvice
      (pushWarning (approachingWarning (lookups a)) a)
  else if (5 <? lookups a)%nat then
    pushRecommendation (monitorNote (lookups a)) a
  else a.

(** The record length analysis. *)
Definition lengthCheck (record : string) (a : Analysis) : Analysis :=
  when (255 <? String.length record)%nat
    (fun x =>
       pushRecommendation
         "Shorten your SPF record by using shorter domain names or consolidating mechanisms."
         (pushWarning "SPF record exceeds 255 characters. This may cause DNS issues." x))
    a.

(** The targets of the [include:] mechanisms. *)
Definition includeTargets (mechs : list string) : list (option string) :=
  map (secondPiece ":")
      (List.filter (fun m => Js.startsWith (Js.toLowerCase m) "include:") mechs).

Definition sameTarget (domain : string) (t : option string) : bool :=
  match t with
  | Some d => String.eqb d domain
  | None => false
  end.

(** The include loop check. *)
Definition includeLoopCheck (mechs : list string) (domain : string) (a : Analysis)
  : Analysis :=
  when (existsb (sameTarget domain) (includeTargets mechs))
    (fun x =>
       pushRecommendation "Remove self-referential includes to prevent infinite loops."
         (pushWarning "Potential SPF include loop detected (domain includes itself)." x))
    a.

(** The analysis as it stands when the lookup limit analysis starts. *)
Definition beforeBudget (record : string) : Analysis :=
  let mechs := mechanismsOf record in
  mechanismLoop mechs (policyStep mechs).

(** [_analyzeSpfRecord(record, domain)] *)
Definition _analyzeSpfRecord (record domain : string) : Analysis :=
  let mechs := mechanismsOf record in
  includeLoopCheck mechs domain
    (lengthCheck record (lookupBudget (beforeBudget record))).

(** The argument of mailauth's [spf()] (the resolver is part of the
    outside world) and what a call does: resolve or throw. *)
Record SpfQuery := { sender : string; ip : string; helo : string; mta : string }.

Inductive SpfOutcome :=
| SpfOk (r : SpfResult)
| SpfThrows (message : string).

Definition testIPs : list string :=
  ["8.8.8.8"; "1.1.1.1"; "208.67.222.222"; "64.233.160.1"].

(** The body of the loop over [testIPs]. *)
Definition probe (spf : SpfQuery -> SpfOutcome) (domain testIP : string)
  : IpTestResult :=
  match spf {| sender := "test@" +:+ domain; ip := testIP;
               helo := "mail." +:+ domain; mta := "spf-analyzer.bluefox.email" |} with
  | SpfOk spfResult =>
      {| test_ip := testIP; test_result := spf_status spfResult;
         test_explanation := Js.orElse (spf_comment spfResult) (spf_explanation spfResult);
         test_details := Some spfResult |}
  | SpfThrows message =>
      {| test_ip := testIP; test_result := "error";
         test_explanation :=
           Some ("Error testing with IP " +:+ testIP +:+ ": " +:+ message);
         test_details := None |}
  end.

(** [spfResults.find(r => r.details && r.result !== "error")?.details] *)
Definition primaryResult (spfResults : list IpTestResult) : option SpfResult :=
  match List.find (fun r => match test_details r with
                            | Some _ => negb (String.eqb (test_result r) "error")
                            | None => false
                            end) spfResults with
  | Some r => test_details r
  | None => None
  end.

Definition summaryOf (primary : option SpfResult) : SpfSummary :=
  match primary with
  | Some pr =>
      {| summary_status := spf_status pr;
         summary_explanation :=
           Js.orElse (Js.orElse (spf_comment pr) (spf_explanation pr))
                     (Some "No additional explanation available");
         summary_details := Some pr |}
  | None =>
      {| summary_status := "error";
         summary_explanation := Some "Unable to perform SPF analysis with any test IP";
         summary_details := None |}
  end.

(** The report of both "no SPF record" exits. *)
Definition notFound (domain : string) : ProtocolReport :=
  {| success := false; error := Some "No SPF record found.";
     domain := Some domain; rawRecord := None; Report.warnings := None;
     Report.recommendations :=
       Some ["Create a TXT record for your domain starting with "
               +:+ Js.quoted "v=spf1" +:+ ".";
             "Example: " +:+ Js.quoted "v=spf1 include:_spf.google.com ~all";
             "Test your SPF record before deploying to production."];
     score := None; fields := NoFields |}.

(** The report of the "more than one SPF record" exit. *)
Definition multipleRecords (domain : string) (spfRecords : list string)
  : ProtocolReport :=
  {| success := false; error := Some "Fatal: Multiple SPF records found.";
     domain := Some domain;
     rawRecord := Some (Js.join " | " spfRecords);
     Report.warnings :=
       Some ["Multiple SPF records will cause authentication failures.";
             "Email delivery may be severely impacted."];
     Report.recommendations :=
       Some ["A domain MUST NOT have multiple SPF records as per RFC 7208.";
             "Merge all mechanisms into a single " +:+ Js.quoted "v=spf1" +:+ " record.";
             "Remove duplicate or conflicting SPF records immediately."];
     score := None; fields := NoFields |}.

(** The report of the outer [catch]. *)
Definition failed (domain message : string) : ProtocolReport :=
  {| success := false; error := Some message; domain := Some domain;
     rawRecord := None; Report.warnings := None;
     Report.recommendations :=
       Some ["Check your DNS configuration.";
             "Ensure your domain is properly configured.";
             "Try again in a few minutes if this is a temporary DNS issue."];
     score := None; fields := NoFields |}.

(** [txt.toLowerCase().startsWith("v=spf1")] *)
Definition isSpfRecord (txt : string) : bool :=
  Js.startsWith (Js.toLowerCase txt) "v=spf1".

(** [txtRecords.map(entry => entry.join('')).filter(...)] *)
Definition spfRecordsOf (txtRecords : list (list string)) : list string :=
  List.filter isSpfRecord (map (Js.join EmptyString) txtRecords).

Definition isNoData (code : option string) : bool :=
  match code with
  | Some c => String.eqb c "ENODATA" || String.eqb c "ENOTFOUND"
  | None => false
  end.

(** [analyzeSPF(domain)], given what the TXT query and mailauth do. *)
Definition analyzeSPF (domain : string) (txt : TxtOutcome)
    (spf : SpfQuery -> SpfOutcome) : ProtocolReport :=
  match txt with
  | TxtErr code message =>
      if isNoData code then notFound domain else failed domain message
  | TxtOk txtRecords =>
      let spfRecords := spfRecordsOf txtRecords in
      match spfRecords with
      | [] => notFound domain
      | spfRecord :: [] =>
          let spfResults := map (probe spf domain) testIPs in
          let analysis := _analyzeSpfRecord spfRecord domain in
          {| success := true; error := None; domain := Some domain;
             rawRecord := Some spfRecord;
             Report.warnings := Some (warnings analysis);
             Report.recommendations := Some (recommendations analysis);
             score := None;
             fields :=
               SpfFields (lookups analysis) (policy analysis)
                         (mechanisms analysis) spfResults
                         (summaryOf (primaryResult spfResults)) |}
      | _ :: _ :: _ => multipleRecords domain spfRecords
      end
  end.

End Spf.

(** ** The accumulators of the two scoring analyses *)

Module Scoring.

(** The locals [score = { base, details }], [warnings] and
    [recommendations] of [analyzeDKIMRecord] and of [analyzeMXRecords]. *)
Record Acc := {
  base : Q;
  details : list string;
  warnings : list string;
  recommendations : list string
}.

(** [score.base += q; score.details.push(msg)] *)
Definition award (q : Q) (msg : string) (a : Acc) : Acc :=
  {| base := base a + q; details := details a ++ [msg];
     warnings := warnings a; recommendations := recommendations a |}.

Definition detail (msg : string) (a : Acc) : Acc :=
  {| base := base a; details := details a ++ [msg];
     warnings := warnings a; recommendations := recommendations a |}.

Definition warn (msg : string) (a : Acc) : Acc :=
  {| base := base a; details := details a;
     warnings := warnings a ++ [msg]; recommendations := recommendations a |}.

Definition recommend (msg : string) (a : Acc) : Acc :=
  {| base := base a; details := details a;
     warnings := warnings a; recommendations := recommendations a ++ [msg] |}.

(** [score.base = q; score.details = [msg]] *)
Definition reset (q : Q) (msg : string) (a : Acc) : Acc :=
  {| base := q; details := [msg];
     warnings := warnings a; recommendations := recommendations a |}.

Definition start : Acc :=
  {| base := 0; details := []; warnings := []; recommendations := [] |}.

End Scoring.

(** ** DKIM analysis ([src/services/dkimService.js]) *)

Module Dkim.
Import Report Scoring.

(** The character class [[A-Za-z0-9+/=]]. *)
Definition isKeyChar (c : ascii) : bool :=
  let n := nat_of_ascii c in
  ((65 <=? n)%nat && (n <=? 90)%nat) || ((97 <=? n)%nat && (n <=? 122)%nat)
  || ((48 <=? n)%nat && (n <=? 57)%nat)
  || (n =? 43)%nat || (n =? 47)%nat || (n =? 61)%nat.

Fixpoint takeKey (s : string) : string :=
  match s with
  | EmptyString => EmptyString
  | String c s' => if isKeyChar c then String c (takeKey s') else EmptyString
  end.

(** [record.match(/p=([A-Za-z0-9+/=]+)/)]: the capture of the leftmost
    match, if any. *)
Fixpoint matchPublicKey (s : string) : option string :=
  match s with
  | EmptyString => None
  | String c s' =>
      let here :=
        if Ascii.eqb c "p" then
          match s' with
          | String d rest => if Ascii.eqb d "=" then takeKey rest else EmptyString
          | EmptyString => EmptyString
          end
        else EmptyString in
      if String.eqb here EmptyString then matchPublicKey s' else Some here
  end.

(** The first test: none of the three marks of a DKIM record is there. *)
Definition invalidFormat (record : string) : bool :=
  negb (Js.includes record "v=DKIM1") && negb (Js.includes record "k=rsa")
  && negb (Js.includes record "p=").

(** [record.includes('p=') && !record.includes('p=;')] *)
Definition hasPublicKey (record : string) : bool :=
  Js.includes record "p=" && negb (Js.includes record "p=;").

Definition publicKeyStep (record : string) (a : Acc) : Acc :=
  if hasPublicKey record then award 2 "Public key present (+2 points)" a
  else warn "No public key found in DKIM record" a.

Definition keyTypeStep (record : string) (a : Acc) : Acc :=
  if Js.includes record "k=rsa" then award 1 "RSA key type (+1 point)" a
  else if Js.includes record "k=ed25519" then
    award (3 # 2) "Ed25519 key type - excellent security (+1.5 points)" a
  else a.

Definition hashStep (record : string) (a : Acc) : Acc :=
  if Js.includes record "h=sha256" then
    award 1 "SHA-256 hash algorithm (+1 point)" a
  else if Js.includes record "h=sha1" then
    recommend "Consider upgrading to SHA-256 for better security"
      (award (1 # 2) "SHA-1 hash algorithm (+0.5 points)" a)
  else a.

Definition serviceStep (record : string) (a : Acc) : Acc :=
  if Js.includes record "s=email" then
    award (1 # 2) "Restricted to email service (+0.5 points)" a
  else a.

Definition flagsStep (record : string) (a : Acc) : Acc :=
  let a1 :=
    if Js.includes record "t=y" then
      warn "Testing mode enabled (t=y). Remove this flag for production." a
    else a in
  if Js.includes record "t=s" then
    warn "Strict mode enabled. This may cause issues with some email systems." a1
  else a1.

Definition keyLengthStep (record : string) (a : Acc) : Acc :=
  match matchPublicKey record with
  | Some key =>
      let keyLength := String.length key in
      if (300 <? keyLength)%nat then
        award (1 # 2) "Strong key length (+0.5 points)" a
      else if (keyLength <? 200)%nat then
        recommend "Consider using a stronger RSA key (2048+ bits)"
          (warn "Potentially weak key length detected" a)
      else a
  | None => a
  end.

(** The mailauth result, when there is one: its [status.result] ... *)
Definition statusStep (result : DkimVerifyItem) (a : Acc) : Acc :=
  match status_result result with
  | Some r =>
      if Js.truthy (Some r) then
        let a' := detail ("Mailauth DKIM check: " +:+ r) a in
        if String.eqb r "pass" then
          award (1 # 2) "DKIM verification passed (+0.5 points)" a'
        else if String.eqb r "neutral" then
          detail "DKIM verification neutral (no penalty)" a'
        else a'
      else a
  | None => a
  end.

(** ... and its [info]. *)
Definition infoStep (result : DkimVerifyItem) (a : Acc) : Acc :=
  match info result with
  | Some i => if Js.truthy (Some i) then detail ("DKIM info: " +:+ i) a else a
  | None => a
  end.

Definition mailauthStep (dkimResult : option DkimVerify) (a : Acc) : Acc :=
  match dkimResult with
  | Some {| results := Some (result :: _) |} => infoStep result (statusStep result a)
  | _ => a
  end.

(** The accumulated state just before the final score is computed. *)
Definition accumulate (record : string) (dkimResult : option DkimVerify) : Acc :=
  mailauthStep dkimResult
    (keyLengthStep record
       (flagsStep record
          (serviceStep record
             (hashStep record
                (keyTypeStep record
                   (publicKeyStep record
                      (award 1 "Valid DKIM record found (+1 point)" start))))))).

(** The banding of the final score. *)
Definition securityLevel (finalScore : Q) : Level :=
  if Js.geq finalScore 4 then Excellent
  else if Js.geq finalScore 3 then Good
  else if Js.geq finalScore 2 then Fair
  else Poor.

Definition finalScoreOf (a : Acc) : Q := Js.max (Js.min (base a) 5) 0.

(** [analyzeDKIMRecord(record, dkimResult)] *)
Definition analyzeDKIMRecord (record : string) (dkimResult : option DkimVerify)
  : Analysis :=
  if invalidFormat record then
    {| a_warnings := ["Invalid DKIM record format"]; a_recommendations := [];
       a_score := {| value := 0; outOf := 5; level := Poor;
                     Report.details := None |} |}
  else
    let a := accumulate record dkimResult in
    let finalScore := finalScoreOf a in
    {| a_warnings := warnings a; a_recommendations := recommendations a;
       a_score := {| value := Js.round1 finalScore; outOf := 5;
                     level := securityLevel finalScore;
                     Report.details := Some (details a) |} |}.

(** [flatRecords.find(txt => txt.includes('v=DKIM1') || ...)] *)
Definition findKey (txtRecords : list (list string)) : option string :=
  List.find (fun txt => Js.includes txt "v=DKIM1" || Js.includes txt "k=rsa"
                        || Js.includes txt "p=")
            (map (Js.join EmptyString) txtRecords).

Definition testMessage (domain selector : string) : string :=
  "DKIM-Signature: v=1; a=rsa-sha256; c=relaxed/relaxed; d=" +:+ domain
  +:+ "; s=" +:+ selector +:+ "; h=from:to:subject; bh=dGVzdA==; b=test"
  +:+ Js.crlf +:+ "From: test@" +:+ domain +:+ Js.crlf
  +:+ "To: test@example.com" +:+ Js.crlf +:+ "Subject: DKIM Test"
  +:+ Js.crlf +:+ Js.crlf +:+ "Test message for DKIM analysis".

(** The report of the two "record not found" exits. *)
Definition notFound (domain selector dkimRecord : string) : ProtocolReport :=
  {| success := false;
     error := Some ("DKIM record not found for selector '" +:+ selector +:+ "'");
     domain := Some domain; rawRecord := None; Report.warnings := None;
     Report.recommendations :=
       Some ["Set up DKIM signing for your domain";
             "Common selectors to try: default, google, mail, dkim, selector1, selector2";
             "Contact your email provider for DKIM setup instructions"];
     score := None;
     fields := DkimFields selector dkimRecord None |}.

(** [analyzeDKIM(domain, selector)], given what the TXT query and
    mailauth's [dkimVerify] do; a [dkimVerify] that throws leaves
    [mailauthResult] at [null], which is [None] here.  Nothing in the
    inner [try] can reach the outer [catch]. *)
Definition analyzeDKIM (domain selector : string) (txt : TxtOutcome)
    (dkimVerify : string -> option DkimVerify) : ProtocolReport :=
  let dkimRecord := selector +:+ "._domainkey." +:+ domain in
  match txt with
  | TxtErr _ _ => notFound domain selector dkimRecord
  | TxtOk txtRecords =>
      match findKey txtRecords with
      | None => notFound domain selector dkimRecord
      | Some dkimKey =>
          let mailauthResult := dkimVerify (testMessage domain selector) in
          let analysis := analyzeDKIMRecord dkimKey mailauthResult in
          {| success := true; error := None; domain := Some domain;
             rawRecord := Some dkimKey;
             Report.warnings := Some (a_warnings analysis);
             Report.recommendations := Some (a_recommendations analysis);
             score := Some (a_score analysis);
             fields := DkimFields selector dkimRecord (Some mailauthResult) |}
      end
  end.

End Dkim.

(** ** MX analysis ([src/services/mxService.js]) *)

Module Mx.
Import Report Scoring.

(** [[...new Set(priorities)]]: the first occurrences, in order. *)
Fixpoint uniq (l : list Z) : list Z :=
  match l with
  | [] => []
  | x :: l' => x :: List.filter (fun y => negb (y =? x)) (uniq l')
  end.

Definition redundancyStep (records : list MxRecord) (a : Acc) : Acc :=
  if (2 <=? List.length records)%nat then
    award 1 "Multiple MX records for redundancy (+1 point)" a
  else recommend "Consider adding backup MX records for redundancy" a.

Definition samePriorityWarning : string := "Some MX records have the same priority".

Definition priorityStep (records : list MxRecord) (a : Acc) : Acc :=
  let priorities := map priority records in
  let uniquePriorities := uniq priorities in
  if (List.length uniquePriorities =? List.length records)%nat then
    award 1 "Proper priority configuration (+1 point)" a
  else
    recommend "Use unique priority values for better load balancing"
      (warn samePriorityWarning a).

(** The [commonProviders] table in the order of its keys. *)
Definition commonProviders (exchanges : list string) : list (string * bool) :=
  let some (ps : list string) :=
    existsb (fun ex => existsb (Js.includes ex) ps) exchanges in
  [("google.com", some ["google.com"; "gmail.com"]);
   ("microsoft.com", some ["outlook.com"; "hotmail.com"; "live.com"]);
   ("cloudflare.com", some ["cloudflare"]);
   ("protonmail.com", some ["protonmail"]);
   ("zoho.com", some ["zoho"])].

Definition detectedProviders (records : list MxRecord) : list string :=
  let exchanges := map (fun r => Js.toLowerCase (exchange r)) records in
  map fst (List.filter snd (commonProviders exchanges)).

Definition providerStep (records : list MxRecord) (a : Acc) : Acc :=
  match detectedProviders records with
  | [] => a
  | ps => detail ("Detected providers: " +:+ Js.join ", " ps) a
  end.

Definition hasLowPriority (records : list MxRecord) : bool :=
  existsb (fun r => priority r =? 0) records.

Definition hasHighPriority (records : list MxRecord) : bool :=
  existsb (fun r => priority r >? 50) records.

Definition priorityZeroWarning : string :=
  "Priority 0 detected - ensure this is intentional".

Definition issuesStep (records : list MxRecord) (a : Acc) : Acc :=
  let a1 :=
    if hasLowPriority records then warn priorityZeroWarning a
    else a in
  if hasHighPriority records then
    recommend "Consider using lower priority values (closer to 0) for better delivery" a1
  else a1.

Definition hasNullMx (records : list MxRecord) : bool :=
  existsb (fun r => String.eqb (exchange r) "." || String.eqb (exchange r) EmptyString)
          records.

Definition nullMxWarning : string :=
  "Null MX record detected - this domain does not accept email".

Definition nullMxDetail : string :=
  "Null MX record - domain explicitly rejects email".

Definition mixedNullWarning : string :=
  "Mixed null and regular MX records - this configuration may cause issues".

Definition nullMxStep (records : list MxRecord) (a : Acc) : Acc :=
  if hasNullMx records && (List.length records =? 1)%nat then
    reset 0 nullMxDetail (warn nullMxWarning a)
  else if hasNullMx records then warn mixedNullWarning a
  else a.

(** The accumulated state when the null-MX check starts ... *)
Definition beforeNull (records : list MxRecord) : Acc :=
  issuesStep records
    (providerStep records
       (priorityStep records
          (redundancyStep records (award 1 "MX records present (+1 point)" start)))).

(** ... and just before the final score is computed. *)
Definition accumulate (records : list MxRecord) : Acc :=
  nullMxStep records (beforeNull records).

(** The banding of the final score. *)
Definition securityLevel (finalScore : Q) : Level :=
  if Js.geq finalScore (5 # 2) then Excellent
  else if Js.geq finalScore 2 then Good
  else if Js.geq finalScore 1 then Fair
  else Poor.

Definition finalScoreOf (a : Acc) : Q := Js.max (Js.min (base a) 3) 0.

(** [analyzeMXRecords(records)] *)
Definition analyzeMXRecords (records : list MxRecord) : Analysis :=
  match records with
  | [] =>
      {| a_warnings := ["No MX records found"]; a_recommendations := [];
         a_score := {| value := 0; outOf := 3; level := Poor;
                       Report.details := None |} |}
  | _ :: _ =>
      let a := accumulate records in
      let finalScore := finalScoreOf a in
      {| a_warnings := warnings a; a_recommendations := recommendations a;
         a_score := {| value := Js.round1 finalScore; outOf := 3;
                       level := securityLevel finalScore;
                       Report.details := Some (details a) |} |}
  end.

(** [mxRecords.sort((a, b) => a.priority - b.priority)]: a stable sort. *)
Fixpoint insertByPriority (x : MxRecord) (l : list MxRecord) : list MxRecord :=
  match l with
  | [] => [x]
  | y :: l' =>
      if priority x <=? priority y then x :: y :: l'
      else y :: insertByPriority x l'
  end.

Definition sortByPriority (l : list MxRecord) : list MxRecord :=
  fold_right insertByPriority [] l.

(** [analyzeMX(domain)], given what the MX query does. *)
Definition analyzeMX (domain : string) (mx : MxOutcome) : ProtocolReport :=
  match mx with
  | MxErr message =>
      {| success := false; error := Some message; domain := Some domain;
         rawRecord := None; Report.warnings := None;
         Report.recommendations := None; score := None; fields := NoFields |}
  | MxOk None | MxOk (Some []) =>
      {| success := false; error := Some "No MX records found";
         domain := Some domain; rawRecord := None; Report.warnings := None;
         Report.recommendations :=
           Some ["Add MX records to enable email delivery to your domain";
                 "MX records specify which mail servers handle email for your domain";
                 "Ensure proper priority values for load balancing and redundancy"];
         score := None; fields := NoFields |}
  | MxOk (Some mxRecords) =>
      let sortedMx := sortByPriority mxRecords in
      let analysis := analyzeMXRecords sortedMx in
      {| success := true; error := None; domain := Some domain;
         rawRecord := None;
         Report.warnings := Some (a_warnings analysis);
         Report.recommendations := Some (a_recommendations analysis);
         score := Some (a_score analysis);
         fields := MxFields sortedMx |}
  end.

End Mx.

(** ** The aggregator ([src/services/emailSecurityService.js]) *)

Module Aggregate.
Import Report.

(** One entry of the array [Promise.allSettled] resolves to; a rejection
    carries the [message] of its reason. *)
Inductive Settled :=
| Fulfilled (value : ProtocolReport)
| Rejected (message : string).

(** [r.status === 'fulfilled' ? r.value : { success: false, error: r.reason.message }] *)
Definition placeholder (message : string) : ProtocolReport :=
  {| success := false; error := Some message; domain := None;
     rawRecord := None; warnings := None; recommendations := None;
     score := None; fields := NoFields |}.

Definition unwrap (r : Settled) : ProtocolReport :=
  match r with
  | Fulfilled value => value
  | Rejected message => placeholder message
  end.

(** The [summary] property. *)
Record Summary := {
  totalChecks : Z;
  passedChecks : nat;
  sum_warnings : list string;
  sum_recommendations : list string;
  priorityRecommendations : list string
}.

(** The object [analyzeEmailSecurity] resolves to. *)
Record AggregateReport := {
  agg_domain : string;
  dmarc : ProtocolReport;
  spf : ProtocolReport;
  dkim : ProtocolReport;
  mx : ProtocolReport;
  overallScore : Score;
  summary : Summary
}.

(** [if (r.success && r.score) { totalScore += ...; maxScore += ... }]
    on the pair [(totalScore, maxScore)]. *)
Definition addScore (r : ProtocolReport) (acc : Q * Q) : Q * Q :=
  match score r with
  | Some sc =>
      if success r then (fst acc + value sc, snd acc + outOf sc)%Q else acc
  | None => acc
  end.

(** [totalScore] and [maxScore] after the four tests. *)
Definition totals (dmarcResult spfResult dkimResult mxResult : ProtocolReport)
  : Q * Q :=
  addScore mxResult
    (addScore dkimResult (addScore spfResult (addScore dmarcResult (0%Q, 0%Q)))).

(** [maxScore > 0 ? (totalScore / maxScore) * 10 : 0] *)
Definition overallOf (t : Q * Q) : Q :=
  if Js.gt (snd t) 0 then ((fst t / snd t) * 10)%Q else 0%Q.

Definition securityLevel (overallScore : Q) : Level :=
  if Js.geq overallScore 8 then Excellent
  else if Js.geq overallScore 6 then Good
  else if Js.geq overallScore 4 then Fair
  else Poor.

(** [if (r.recommendations) all.push(...r.recommendations)] and the like. *)
Definition spread (o : option (list string)) : list string :=
  match o with
  | Some l => l
  | None => []
  end.

(** [dmarcResult.parsed?.p] *)
Definition parsedP (r : ProtocolReport) : option string :=
  match fields r with
  | DmarcFields p => p
  | _ => None
  end.

Definition priorityOf (dmarcResult spfResult dkimResult mxResult : ProtocolReport)
  : list string :=
  (if negb (success dmarcResult) then
     ["🔴 CRITICAL: Set up DMARC policy to prevent email spoofing"]
   else match parsedP dmarcResult with
        | Some p =>
            if String.eqb p "none" then
              ["🟡 IMPORTANT: Upgrade DMARC policy from " +:+ Js.quoted "none"
               +:+ " to " +:+ Js.quoted "quarantine" +:+ " or " +:+ Js.quoted "reject"]
            else []
        | None => []
        end)
  ++ (if negb (success spfResult) then
        ["🔴 CRITICAL: Configure SPF record to authorize mail servers"]
      else [])
  ++ (if negb (success dkimResult) then
        ["🟡 IMPORTANT: Enable DKIM signing for email authentication"]
      else [])
  ++ (if negb (success mxResult) then
        ["🔴 CRITICAL: Configure MX records for email delivery"]
      else []).

(** The body of [analyzeEmailSecurity] after [Promise.allSettled]. *)
Definition aggregate (domain : string) (r0 r1 r2 r3 : Settled) : AggregateReport :=
  let dmarcResult := unwrap r0 in
  let spfResult := unwrap r1 in
  let dkimResult := unwrap r2 in
  let mxResult := unwrap r3 in
  let overallScore := overallOf (totals dmarcResult spfResult dkimResult mxResult) in
  {| agg_domain := domain;
     dmarc := dmarcResult; spf := spfResult; dkim := dkimResult; mx := mxResult;
     overallScore :=
       {| value := Js.round1 overallScore; outOf := 10;
          level := securityLevel overallScore; details := None |};
     summary :=
       {| totalChecks := 4;
          passedChecks :=
            List.length
              (List.filter success [dmarcResult; spfResult; dkimResult; mxResult]);
          sum_warnings :=
            spread (warnings dmarcResult) ++ spread (warnings spfResult)
            ++ spread (warnings dkimResult) ++ spread (warnings mxResult);
          sum_recommendations :=
            spread (recommendations dmarcResult) ++ spread (recommendations spfResult)
            ++ spread (recommendations dkimResult) ++ spread (recommendations mxResult);
          priorityRecommendations :=
            priorityOf dmarcResult spfResult dkimResult mxResult |} |}.

(** The outside world of one analysis: the DMARC analyzer (its module,
    [dmarcService.js], is not part of the sources at hand, so its
    settled promise is taken as given), the DNS answers and mailauth. *)
Record World := {
  analyzeDMARC : string -> Settled;
  resolveTxt : string -> TxtOutcome;
  resolveMx : string -> MxOutcome;
  spfCheck : Spf.SpfQuery -> Spf.SpfOutcome;
  dkimVerify : string -> option DkimVerify
}.

(** [analyzeEmailSecurity(domain, dkimSelector = 'default')] *)
Definition analyzeEmailSecurity (w : World) (domain : string)
    (dkimSelector : option string) : AggregateReport :=
  let selector := match dkimSelector with Some sel => sel | None => "default" end in
  aggregate domain
    (analyzeDMARC w domain)
    (Fulfilled (Spf.analyzeSPF domain (resolveTxt w domain) (spfCheck w)))
    (Fulfilled (Dkim.analyzeDKIM domain selector
                  (resolveTxt w (selector +:+ "._domainkey." +:+ domain))
                  (dkimVerify w)))
    (Fulfilled (Mx.analyzeMX domain (resolveMx w domain))).

End Aggregate.

(** ** The vocabulary of the specification *)

Module Spec.
Import Report.

(** The scores that count: those of the reports that succeeded and
    carry a score. *)
Definition contributing (reports : list ProtocolReport) : list Score :=
  flat_map (fun r => if success r
                     then match score r with Some sc => [sc] | None => [] end
                     else [])
           reports.

Definition sumOf (f : Score -> Q) (l : list Score) : Q :=
  fold_right (fun sc acc => (f sc + acc)%Q) 0%Q l.

(** The achieved points and the applicable maximum. *)
Definition achieved (reports : list ProtocolReport) : Q :=
  sumOf value (contributing reports).

Definition applicable (reports : list ProtocolReport) : Q :=
  sumOf outOf (contributing reports).


(** The level bands by percentage: at least 80% excellent, at least 60%
    good, at least 40% fair, else poor. *)
Definition band (ratio : Q) : Level :=
  if Js.geq ratio (80 # 100) then Excellent
  else if Js.geq ratio (60 # 100) then Good
  else if Js.geq ratio (40 # 100) then Fair
  else Poor.

(** The invariant of a score. *)
Definition validScore (sc : Score) : Prop :=
  (0 <= value sc)%Q /\ (value sc <= outOf sc)%Q.

(** Every score a settled analyzer hands over is valid. *)
Definition validOutcome (r : option Score) : Prop :=
  match r with
  | Some sc => validScore sc
  | None => True
  end.

(** A settled analyzer hands over no score or a valid one. *)
Definition validSettled (o : Aggregate.Settled) : Prop :=
  validOutcome (score (Aggregate.unwrap o)).

(** What a slot of the aggregate report holds for a settled outcome: the
    analyzer's own report, or [{ success: false, error }] with the
    message of the rejection and no other property. *)
Definition slotFor (o : Aggregate.Settled) (slot : ProtocolReport) : Prop :=
  match o with
  | Aggregate.Fulfilled produced => slot = produced
  | Aggregate.Rejected message =>
      slot = {| success := false; error := Some message; domain := None;
                rawRecord := None; warnings := None; recommendations := None;
                score := None; fields := NoFields |}
  end.

(** The number of reports whose [success] is true. *)
Definition succeeded (reports : list ProtocolReport) : nat :=
  fold_right (fun r n => (Nat.b2n (success r) + n)%nat) 0%nat reports.

(** [q] has at most one decimal. *)
Definition tenths (q : Q) : Prop := exists k : Z, (q == inject_Z k / 10)%Q.

(** A stretch of a scoring analysis takes the accumulator [a] to [a']:
    it adds [gain] points and only pushes details (all satisfying [P])
    and warnings. *)
Definition advances (P : string -> Prop) (gain : Q) (a a' : Scoring.Acc) : Prop :=
  (Scoring.base a' == Scoring.base a + gain)%Q /\
  (exists ds, Scoring.details a' = Scoring.details a ++ ds /\ Forall P ds) /\
  (exists ws, Scoring.warnings a' = Scoring.warnings a ++ ws).

(** The points of the DKIM rules, after the specification: public key
    +2, key type rsa +1 or ed25519 +1.5, hash sha256 +1 or sha1 +0.5,
    service type +0.5, key longer than 300 characters +0.5, verification
    pass +0.5. *)
Definition publicKeyPoints (record : string) : Q :=
  if Js.includes record "p=" && negb (Js.includes record "p=;") then 2 else 0.

Definition keyTypePoints (record : string) : Q :=
  if Js.includes record "k=rsa" then 1
  else if Js.includes record "k=ed25519" then 3 # 2 else 0.

Definition hashPoints (record : string) : Q :=
  if Js.includes record "h=sha256" then 1
  else if Js.includes record "h=sha1" then 1 # 2 else 0.

Definition servicePoints (record : string) : Q :=
  if Js.includes record "s=email" then 1 # 2 else 0.

Definition keyLengthPoints (record : string) : Q :=
  match Dkim.matchPublicKey record with
  | Some key => if (300 <? String.length key)%nat then 1 # 2 else 0
  | None => 0
  end.

Definition verificationPoints (dkimResult : option DkimVerify) : Q :=
  match dkimResult with
  | Some {| results := Some (result :: _) |} =>
      match status_result result with
      | Some r => if String.eqb r "pass" then 1 # 2 else 0
      | None => 0
      end
  | _ => 0
  end.

(** The points a DKIM-shaped record earns beside those for the public key. *)
Definition otherPoints (record : string) (dkimResult : option DkimVerify) : Q :=
  (keyTypePoints record + hashPoints record + servicePoints record
   + keyLengthPoints record + verificationPoints dkimResult)%Q.

Definition publicKeyDetail : string := "Public key present (+2 points)".
Definition noPublicKeyWarning : string := "No public key found in DKIM record".

(** A detail other than the one of the public-key rule. *)
Definition otherDetail (s : string) : Prop := s <> publicKeyDetail.

(** An SPF analysis [a'] comes from [a] by pushing only: the lookup
    count stays, warnings and recommendations grow at the end. *)
Definition extends (a a' : Spf.Analysis) : Prop :=
  Spf.lookups a' = Spf.lookups a /\
  (exists ws, Spf.warnings a' = Spf.warnings a ++ ws) /\
  (exists rs, Spf.recommendations a' = Spf.recommendations a ++ rs).

(** [s] starts with [p] up to letter case. *)
Definition prefixIgnoringCase (p s : string) : Prop :=
  exists head rest, s = head +:+ rest /\ Js.toLowerCase head = p.

End Spec.

(** ** The analysis endpoints ([src/routes/emailAuth.js]) *)

Module Routes.
Import Report.

(** [s.trim()]: white space is dropped at both ends. *)
Fixpoint trimStart (s : string) : string :=
  match s with
  | EmptyString => EmptyString
  | String c s' => if Js.isSpace c then trimStart s' else s
  end.

Fixpoint trimEnd (s : string) : string :=
  match s with
  | EmptyString => EmptyString
  | String c s' =>
      match trimEnd s' with
      | EmptyString => if Js.isSpace c then EmptyString else String c EmptyString
      | t => String c t
      end
  end.

Definition trim (s : string) : string := trimEnd (trimStart s).

(** What is left of [s] behind the prefix [p], if [s] starts with [p]. *)
Fixpoint dropPrefix (p s : string) : option string :=
  match p with
  | EmptyString => Some s
  | String a p' =>
      match s with
      | EmptyString => None
      | String b s' => if Ascii.eqb a b then dropPrefix p' s' else None
      end
  end.

(** [s.replace(/^https?:\/\//, '')] *)
Definition stripScheme (s : string) : string :=
  match dropPrefix "https://" s with
  | Some rest => rest
  | None => match dropPrefix "http://" s with
            | Some rest => rest
            | None => s
            end
  end.

(** [s.replace(/^www\./, '')] *)
Definition stripWww (s : string) : string :=
  match dropPrefix "www." s with
  | Some rest => rest
  | None => s
  end.

(** [{ isValid, error, domain }] *)
Record Validation := {
  isValid : bool;
  v_error : option string;
  v_domain : option string
}.

(** The chain of [validateDomain]:
    [domain.trim().toLowerCase().replace(...).replace(...).split('/')[0]] *)
Definition cleanDomainOf (domain : string) : string :=
  Spf.firstPiece "/" (stripWww (stripScheme (Js.toLowerCase (trim domain)))).

(** [validateDomain(domain)] for a [domain] that is a string or missing. *)
Definition validateDomain (domain : option string) : Validation :=
  if negb (Js.truthy domain) then
    {| isValid := false; v_error := Some "Domain is required"; v_domain := None |}
  else
    match domain with
    | Some d =>
        let cleanDomain := cleanDomainOf d in
        if negb (Js.truthy (Some cleanDomain)) || (String.length cleanDomain =? 0)%nat then
          {| isValid := false; v_error := Some "Please enter a valid domain name";
             v_domain := None |}
        else {| isValid := true; v_error := None; v_domain := Some cleanDomain |}
    | None =>
        {| isValid := false; v_error := Some "Domain is required"; v_domain := None |}
    end.

(** The two environment variables [getCaptchaSecrets] reads. *)
Record Env := {
  CAPTCHA_SECRET_1 : option string;
  CAPTCHA_SECRET_2 : option string
}.

(** [getCaptchaSecrets()] *)
Definition getCaptchaSecrets (env : Env) : list string :=
  let secrets :=
    (if Js.truthy (CAPTCHA_SECRET_1 env)
     then match CAPTCHA_SECRET_1 env with Some x => [x] | None => [] end else [])
    ++ (if Js.truthy (CAPTCHA_SECRET_2 env)
        then match CAPTCHA_SECRET_2 env with Some x => [x] | None => [] end else []) in
  if (List.length secrets =? 0)%nat
  then secrets ++ ["default-dev-secret-1"; "default-dev-secret-2"]
  else secrets.

(** [captcha.validate(secrets, { text, probe })] of [utils/captcha.js],
    which is not part of the sources at hand: taken as given. *)
Definition Validator : Type := list string -> string -> string -> bool.

(** [validateCaptcha(captchaText, captchaProbe)] *)
Definition validateCaptcha (validate : Validator) (env : Env)
    (captchaText captchaProbe : option string) : Validation :=
  match captchaText, captchaProbe with
  | Some text, Some probe =>
      if negb (Js.truthy captchaText) || negb (Js.truthy captchaProbe) then
        {| isValid := false; v_error := Some "Captcha verification is required";
           v_domain := None |}
      else if negb (validate (getCaptchaSecrets env) text probe) then
        {| isValid := false; v_error := Some "Invalid captcha. Please try again.";
           v_domain := None |}
      else {| isValid := true; v_error := None; v_domain := None |}
  | _, _ =>
      {| isValid := false; v_error := Some "Captcha verification is required";
         v_domain := None |}
  end.

(** What an endpoint answers: [{ status, error: { message, resetTime } }]
    from the rate limiter, [{ status, result: { success: false, error } }]
    from a validation, or [{ status, result }] with the analysis. *)
Inductive Body (R : Type) :=
| Limited (message : option string) (resetTime : option Z)
| Refused (error : option string)
| Analysed (result : R).

Arguments Limited {R} _ _.
Arguments Refused {R} _.
Arguments Analysed {R} _.

Record Response (R : Type) := { status : Z; body : Body R }.

Arguments status {R} _.
Arguments body {R} _.

(** [handleRateLimit(req)]: the refusal to send, or [null]. *)
Definition handleRateLimit {R} (req : RateLimit.Request) (now : Z)
    (store : gmap string RateLimit.Entry)
  : option (Response R) * gmap string RateLimit.Entry :=
  let '(rateLimitResult, store') := RateLimit.checkRateLimit req now store in
  (if negb (RateLimit.allowed rateLimitResult) then
     Some {| status := 429;
             body := Limited (RateLimit.error rateLimitResult)
                             (RateLimit.res_resetTime rateLimitResult) |}
   else None,
   store').

(** The fields of [req.body] that the endpoints read. *)
Record RequestBody := {
  b_domain : option string;
  b_selector : option string;
  b_dkimSelector : option string;
  b_captchaText : option string;
  b_captchaProbe : option string
}.

(** The handlers of the analysis endpoints are one text with a different
    analyzer call in each: rate limit, then captcha, then domain, then
    the analysis of the cleaned domain. *)
Definition endpoint {R} (analyze : string -> R) (validate : Validator) (env : Env)
    (req : RateLimit.Request) (reqBody : RequestBody) (now : Z)
    (store : gmap string RateLimit.Entry)
  : Response R * gmap string RateLimit.Entry :=
  match handleRateLimit req now store with
  | (Some rateLimitError, store') => (rateLimitError, store')
  | (None, store') =>
      let captchaValidation :=
        validateCaptcha validate env (b_captchaText reqBody) (b_captchaProbe reqBody) in
      if negb (isValid captchaValidation) then
        ({| status := 400; body := Refused (v_error captchaValidation) |}, store')
      else
        let validation := validateDomain (b_domain reqBody) in
        if negb (isValid validation) then
          ({| status := 400; body := Refused (v_error validation) |}, store')
        else
          match v_domain validation with
          | Some domain => ({| status := 200; body := Analysed (analyze domain) |}, store')
          | None => ({| status := 400; body := Refused (v_error validation) |}, store')
          end
  end.

(** [selector = 'default'] in a destructuring: the default stands in for
    a missing property. *)
Definition orDefault (o : option string) : string :=
  match o with Some x => x | None => "default" end.

(** [POST /v1/analyze-spf] *)
Definition analyzeSpfEndpoint (w : Aggregate.World) (validate : Validator) (env : Env)
    (req : RateLimit.Request) (reqBody : RequestBody) (now : Z)
    (store : gmap string RateLimit.Entry) :=
  endpoint (fun domain => Spf.analyzeSPF domain (Aggregate.resolveTxt w domain)
                            (Aggregate.spfCheck w))
           validate env req reqBody now store.

(** [POST /v1/analyze-dkim] *)
Definition analyzeDkimEndpoint (w : Aggregate.World) (validate : Validator) (env : Env)
    (req : RateLimit.Request) (reqBody : RequestBody) (now : Z)
    (store : gmap string RateLimit.Entry) :=
  endpoint (fun domain =>
              let selector := orDefault (b_selector reqBody) in
              Dkim.analyzeDKIM domain selector
                (Aggregate.resolveTxt w (selector +:+ "._domainkey." +:+ domain))
                (Aggregate.dkimVerify w))
           validate env req reqBody now store.


(** [POST /v1/analyze-email-security] *)
Definition analyzeEmailSecurityEndpoint (w : Aggregate.World) (validate : Validator)
    (env : Env) (req : RateLimit.Request) (reqBody : RequestBody) (now : Z)
    (store : gmap string RateLimit.Entry) :=
  endpoint (fun domain =>
              Aggregate.analyzeEmailSecurity w domain
                (Some (orDefault (b_dkimSelector reqBody))))
           validate env req reqBody now store.

End Routes.

(** ** Further vocabulary *)

Module Props.
Import Report.

(** Every ledger entry has counted between 1 and 10 requests. *)
Definition countsInRange (store : gmap string RateLimit.Entry) : Prop :=
  forall a e, store !! a = Some e -> 1 <= RateLimit.count e <= RateLimit.limit.

(** Every character of [s] passes the test [f]. *)
Fixpoint everyChar (f : ascii -> bool) (s : string) : bool :=
  match s with
  | EmptyString => true
  | String c s' => f c && everyChar f s'
  end.

(** [c] is not changed by [toLowerCase]. *)
Definition isLowered (c : ascii) : bool := Ascii.eqb (Js.lowerChar c) c.

(** The mechanism entry that the loop of [_analyzeSpfRecord] builds for
    a token. *)
Definition mechanismOf (token : string) : Mechanism :=
  {| original := token; type := Spf.typeOf token;
     requiresLookup :=
       Spf.isIn (Spf.typeOf token) ["include"; "a"; "mx"; "exists"; "redirect"] |}.

(** An SPF analysis [a'] keeps the policy of [a] and all its warnings. *)
Definition keepsWarnings (a a' : Spf.Analysis) : Prop :=
  Spf.policy a' = Spf.policy a /\
  forall w, In w (Spf.warnings a) -> In w (Spf.warnings a').

Definition noPolicyWarning : string :=
  "Record does not contain a terminating " +:+ Js.quoted "all" +:+ " mechanism.".

Definition includeLoopWarning : string :=
  "Potential SPF include loop detected (domain includes itself).".

(** The answer of [validateDomain] for a clean domain. *)
Definition validDomain (d : string) : Routes.Validation :=
  {| Routes.isValid := true; Routes.v_error := None; Routes.v_domain := Some d |}.

(** Ascending by priority. *)
Definition byPriority (a b : MxRecord) : Prop := priority a <= priority b.

(** The DMARC report succeeded and its parsed policy is [none]. *)
Definition policyIsNone (r : ProtocolReport) : bool :=
  success r &&
  match Aggregate.parsedP r with
  | Some p => String.eqb p "none"
  | None => false
  end.

End Props.

(** * Properties *)

(** ** Numbers *)

Section Numbers.
Local Open Scope Q_scope.

Lemma geq_spec x y : Js.geq x y = true <-> y <= x.
Proof. apply Qle_bool_iff. Qed.

Lemma geq_false x y : Js.geq x y = false <-> x < y.
Proof.
  unfold Js.geq. split; intros H.
  - apply Qnot_le_lt. intros Hle. apply Qle_bool_iff in Hle. congruence.
  - destruct (Qle_bool y x) eqn:E; [|reflexivity].
    apply Qle_bool_iff in E. lra.
Qed.

Lemma gt_spec x y : Js.gt x y = true <-> y < x.
Proof.
  unfold Js.gt. rewrite negb_true_iff. apply (geq_false y x).
Qed.

Lemma min_cases x y : (x <= y /\ Js.min x y = x) \/ (y < x /\ Js.min x y = y).
Proof.
  unfold Js.min. destruct (Qle_bool x y) eqn:E.
  - left. split; [by apply Qle_bool_iff | done].
  - right. split; [by apply (geq_false y x) | done].
Qed.

Lemma max_cases x y : (x <= y /\ Js.max x y = y) \/ (y < x /\ Js.max x y = x).
Proof.
  unfold Js.max. destruct (Qle_bool x y) eqn:E.
  - left. split; [by apply Qle_bool_iff | done].
  - right. split; [by apply (geq_false y x) | done].
Qed.

(** Clamping into [[0, c]]. *)
Lemma clamp_range x c : 0 <= c -> 0 <= Js.max (Js.min x c) 0 <= c.
Proof.
  intros Hc.
  destruct (max_cases (Js.min x c) 0) as [[H ->]|[H ->]]; [lra|].
  destruct (min_cases x c) as [[H' E]|[H' E]]; rewrite E in *; lra.
Qed.


#[global] Instance round_proper : Proper (Qeq ==> eq) Js.round.
Proof. intros x y E. unfold Js.round. by rewrite E. Qed.

#[global] Instance round1_proper : Proper (Qeq ==> Qeq) Js.round1.
Proof. intros x y E. unfold Js.round1. by rewrite E. Qed.

(** [Math.round] of an integer is that integer. *)
Lemma round_Z (k : Z) : Js.round (inject_Z k) = k.
Proof.
  unfold Js.round.
  pose proof (Qfloor_le (inject_Z k + (1 # 2))) as H1.
  pose proof (Qlt_floor (inject_Z k + (1 # 2))) as H2.
  set (f := Qfloor (inject_Z k + (1 # 2))) in *.
  rewrite inject_Z_plus in H2. change (inject_Z 1) with 1 in H2.
  assert (Hlo : inject_Z k + inject_Z (-1) < inject_Z f).
  { change (inject_Z (-1)) with (-1). lra. }
  assert (Hhi : inject_Z f < inject_Z k + inject_Z 1).
  { change (inject_Z 1) with 1. lra. }
  rewrite <- inject_Z_plus, <- Zlt_Qlt in Hlo, Hhi. lia.
Qed.


(** A number with at most one decimal is left alone. *)
Lemma round1_tenths (k : Z) : Js.round1 (inject_Z k / 10) == inject_Z k / 10.
Proof.
  unfold Js.round1.
  assert (E : inject_Z k / 10 * 10 == inject_Z k) by (field; lra).
  by rewrite E, round_Z.
Qed.

(** Rounding to one decimal stays inside [[0, c]] when [c] is a whole number. *)
Lemma round1_range x (c : Z) :
  0 <= x <= inject_Z c -> 0 <= Js.round1 x <= inject_Z c.
Proof.
  intros [Hlo Hhi]. unfold Js.round1.
  assert (L : (0 <= Js.round (x * 10))%Z).
  { rewrite <- (round_Z 0). unfold Js.round. apply Qfloor_resp_le.
    change (inject_Z 0) with 0. lra. }
  assert (U : (Js.round (x * 10) <= c * 10)%Z).
  { rewrite <- (round_Z (c * 10)). unfold Js.round. apply Qfloor_resp_le.
    rewrite inject_Z_mult. change (inject_Z 10) with 10. lra. }
  rewrite Zle_Qle in L, U. rewrite inject_Z_mult in U.
  change (inject_Z 10) with 10 in U. change (inject_Z 0) with 0 in L.
  split.
  - apply Qle_shift_div_l; lra.
  - apply Qle_shift_div_r; lra.
Qed.

End Numbers.

Example analyzeSpfRecord_ex :
  let a := Spf._analyzeSpfRecord
             "v=spf1 include:_spf.example.com include:_spf.other.com ~all" "example.org" in
  Spf.lookups a = 2%nat /\ Spf.policy a = "~all".
Proof. split; reflexivity. Qed.

Example splitSpaces_ex1 :
  Js.splitSpaces "v=spf1  include:a.b	mx ~all" = ["v=spf1"; "include:a.b"; "mx"; "~all"].
Proof. reflexivity. Qed.

Example splitSpaces_ex2 :
  Js.splitSpaces " a b " = [EmptyString; "a"; "b"; EmptyString].
Proof. reflexivity. Qed.

Example splitChar_ex : Js.splitChar ":" "include:x:y" = ["include"; "x"; "y"].
Proof. reflexivity. Qed.

Example round_ex : Js.round (5 # 2) = 3 /\ Js.round (- (5 # 2)) = (-2).
Proof. split; reflexivity. Qed.

(** ** Rate limiter *)

Section RateLimitFacts.
Import RateLimit.

Implicit Types (store : gmap string Entry) (a : string) (tr : list Event).

Lemma checkRateLimit_other req now store a :
  clientIp req <> a ->
  (checkRateLimit req now store).2 !! a = store !! a.
Proof.
  intros Hne. unfold checkRateLimit.
  destruct (store !! clientIp req) as [u|]; simpl.
  - destruct (now >? resetTime u); simpl.
    + by rewrite lookup_insert_ne.
    + destruct (count u >=? limit); simpl; [done|].
      by rewrite lookup_insert_ne.
  - by rewrite lookup_insert_ne.
Qed.

Lemma sweep_live now store a k R :
  liveWindow a k R store -> now <= R -> liveWindow a k R (sweep now store).
Proof.
  unfold liveWindow, sweep. intros H Hle.
  apply map_lookup_filter_Some. split; [done|]. simpl.
  destruct (Z.gtb_spec now R); [lia | done].
Qed.

Lemma sweep_noLater now store a R :
  noLaterThan a R store -> noLaterThan a R (sweep now store).
Proof.
  unfold noLaterThan, sweep. intros H.
  destruct (filter _ store !! a) as [e|] eqn:E; [|done].
  apply map_lookup_filter_Some in E as [E _]. by rewrite E in H.
Qed.

Lemma checkRateLimit_admit req now store k R :
  liveWindow (clientIp req) k R store -> now <= R -> k < limit ->
  allowed (checkRateLimit req now store).1 = true /\
  remaining (checkRateLimit req now store).1 = Some (limit - (k + 1)) /\
  liveWindow (clientIp req) (k + 1) R (checkRateLimit req now store).2.
Proof.
  unfold liveWindow, checkRateLimit. intros -> Hle Hk. simpl.
  destruct (Z.gtb_spec now R); [lia|].
  destruct (Z.geb_spec k limit); [lia|]. simpl.
  by rewrite lookup_insert_eq.
Qed.

Lemma checkRateLimit_deny req now store k R :
  liveWindow (clientIp req) k R store -> now <= R -> limit <= k ->
  checkRateLimit req now store =
    ({| allowed := false; remaining := None;
        error := Some "Too many requests. Please try again later.";
        res_resetTime := Some R |}, store).
Proof.
  unfold liveWindow, checkRateLimit. intros -> Hle Hk. simpl.
  destruct (Z.gtb_spec now R); [lia|].
  destruct (Z.geb_spec k limit); [done | lia].
Qed.

Lemma checkRateLimit_fresh req now store R :
  noLaterThan (clientIp req) R store -> R < now ->
  checkRateLimit req now store =
    ({| allowed := true; remaining := Some (limit - 1); error := None;
        res_resetTime := None |},
     <[clientIp req := {| count := 1; resetTime := now + window |}]> store).
Proof.
  unfold noLaterThan, checkRateLimit. intros H Hlt.
  destruct (store !! clientIp req) as [u|]; [|done].
  destruct (Z.gtb_spec now (resetTime u)); [done | lia].
Qed.

Lemma eqb_clientIp req a :
  String.eqb (clientIp req) a = true <-> clientIp req = a.
Proof. apply String.eqb_eq. Qed.

(** Inside a live window that has counted [k] requests, the next
    [limit - k] requests of [a] are admitted and all later ones refused
    with the window's [resetTime]; requests of other addresses and
    sweeps in between change nothing. *)
Lemma run_window a R tr : forall store k,
  liveWindow a k R store -> 1 <= k <= limit ->
  Forall (fun e => eventTime e <= R) tr ->
  let n := List.length (List.filter (fromAddr a) tr) in
  let m := Z.to_nat (limit - k) in
  map allowed (run a tr store).1
    = repeat true (Nat.min n m) ++ repeat false (n - m) /\
  Forall (fun r => allowed r = false -> res_resetTime r = Some R) (run a tr store).1 /\
  liveWindow a (k + Z.of_nat (Nat.min n m)) R (run a tr store).2.
Proof.
  induction tr as [|e tr IH]; intros store k Hlive Hk Hall; simpl.
  - repeat split; [constructor|]. by rewrite Z.add_0_r.
  - apply Forall_cons in Hall as [He Hall]. destruct e as [req now|now]; simpl in *.
    + destruct (checkRateLimit req now store) as [r store'] eqn:Hc.
      destruct (String.eqb (clientIp req) a) eqn:Ha.
      * apply eqb_clientIp in Ha. subst a.
        destruct (Z_lt_le_dec k limit) as [Hlt|Hge].
        -- destruct (checkRateLimit_admit req now store k R Hlive He Hlt)
             as (Hal & _ & Hlive').
           rewrite Hc in Hal, Hlive'. simpl in Hal, Hlive'.
           destruct (IH store' (k + 1) Hlive' ltac:(lia) Hall) as (I1 & I2 & I3).
           destruct (run (clientIp req) tr store') as [rs store''] eqn:Hr.
           simpl in *.
           replace (Z.to_nat (limit - k)) with (S (Z.to_nat (limit - (k + 1)))) by lia.
           simpl. rewrite Hal, I1. repeat split.
           ++ constructor; [congruence | done].
           ++ unfold liveWindow in *. rewrite I3. do 2 f_equal. lia.
        -- rewrite (checkRateLimit_deny req now store k R Hlive He Hge) in Hc.
           injection Hc as <- <-.
           destruct (IH store k Hlive Hk Hall) as (I1 & I2 & I3).
           destruct (run (clientIp req) tr store) as [rs store''] eqn:Hr.
           simpl in *.
           replace (Z.to_nat (limit - k)) with 0%nat in * by lia.
           rewrite Nat.min_0_r in *. simpl in *. rewrite Nat.sub_0_r in I1.
           rewrite I1. repeat split; [|done].
           constructor; [done | done].
      * assert (Hne : clientIp req <> a).
        { intros E. apply eqb_clientIp in E. congruence. }
        pose proof (checkRateLimit_other req now store a Hne) as Ho.
        rewrite Hc in Ho. simpl in Ho.
        assert (Hlive' : liveWindow a k R store').
        { unfold liveWindow in *. by rewrite Ho. }
        destruct (IH store' k Hlive' Hk Hall) as (I1 & I2 & I3).
        destruct (run a tr store') as [rs store''] eqn:Hr. simpl in *.
        by repeat split.
    + apply IH; [by apply sweep_live | done | done].
Qed.

(** Events that are not requests of [a] never extend what the ledger
    holds for [a]. *)
Lemma run_foreign a R tr : forall store,
  noLaterThan a R store ->
  Forall (fun e => fromAddr a e = false) tr ->
  (run a tr store).1 = [] /\ noLaterThan a R (run a tr store).2.
Proof.
  induction tr as [|e tr IH]; intros store Hno Hall; simpl; [done|].
  apply Forall_cons in Hall as [He Hall]. destruct e as [req now|now]; simpl in *.
  - destruct (checkRateLimit req now store) as [r store'] eqn:Hc.
    rewrite He.
    assert (Hne : clientIp req <> a).
    { intros E. apply eqb_clientIp in E. congruence. }
    pose proof (checkRateLimit_other req now store a Hne) as Ho.
    rewrite Hc in Ho. simpl in Ho.
    assert (Hno' : noLaterThan a R store').
    { unfold noLaterThan in *. by rewrite Ho. }
    destruct (IH store' Hno' Hall) as [I1 I2].
    by destruct (run a tr store') as [rs store''].
  - apply IH; [by apply sweep_noLater | done].
Qed.

End RateLimitFacts.

(** C9.  One address, a ledger that holds no live window for it: the
    request at [t0] opens a window; of the next ten requests of that
    address that arrive no later than the window's end (with requests of
    other addresses and sweeps interleaved), the first nine are admitted,
    which makes ten admissions, and the eleventh request is refused and
    carries the window's [resetTime = t0 + 60000]; a request after that
    time is admitted again with the count back at 1 and a fresh window. *)
Theorem checkRateLimit_ten_then_refuse
    (store : gmap string RateLimit.Entry) (req0 req1 : RateLimit.Request)
    (t0 t1 : Z) (tr tr2 : list RateLimit.Event) :
  let a := RateLimit.clientIp req0 in
  RateLimit.noLaterThan a (t0 - 1) store ->
  Forall (fun e => RateLimit.eventTime e <= t0 + RateLimit.window) tr ->
  List.length (List.filter (RateLimit.fromAddr a) tr) = 10%nat ->
  Forall (fun e => RateLimit.fromAddr a e = false) tr2 ->
  RateLimit.clientIp req1 = a ->
  t0 + RateLimit.window < t1 ->
  let first := RateLimit.checkRateLimit req0 t0 store in
  let inWindow := RateLimit.run a tr first.2 in
  let later := RateLimit.run a tr2 inWindow.2 in
  let again := RateLimit.checkRateLimit req1 t1 later.2 in
  RateLimit.allowed first.1 = true /\
  (exists rs r11,
      inWindow.1 = rs ++ [r11] /\
      map RateLimit.allowed rs = repeat true 9 /\
      RateLimit.allowed r11 = false /\
      RateLimit.res_resetTime r11 = Some (t0 + RateLimit.window)) /\
  RateLimit.allowed again.1 = true /\
  RateLimit.remaining again.1 = Some 9 /\
  again.2 !! a = Some {| RateLimit.count := 1;
                         RateLimit.resetTime := t1 + RateLimit.window |}.
Proof.
  intros a Hno Hin Hten Hfor Ha Hlate first inWindow later again.
  assert (Hfirst : first = ({| RateLimit.allowed := true;
                               RateLimit.remaining := Some (RateLimit.limit - 1);
                               RateLimit.error := None;
                               RateLimit.res_resetTime := None |},
                            <[a := {| RateLimit.count := 1;
                                      RateLimit.resetTime := t0 + RateLimit.window |}]> store)).
  { apply (checkRateLimit_fresh req0 t0 store (t0 - 1) Hno). lia. }
  assert (Hlive : RateLimit.liveWindow a 1 (t0 + RateLimit.window) first.2).
  { rewrite Hfirst. apply lookup_insert_eq. }
  destruct (run_window a (t0 + RateLimit.window) tr first.2 1 Hlive
              ltac:(unfold RateLimit.limit; lia) Hin) as (W1 & W2 & W3).
  fold inWindow in W1, W2, W3. rewrite Hten in W1, W3.
  change (Z.to_nat (RateLimit.limit - 1)) with 9%nat in W1, W3.
  simpl in W1, W3.
  assert (Hno2 : RateLimit.noLaterThan a (t0 + RateLimit.window) inWindow.2).
  { unfold RateLimit.noLaterThan, RateLimit.liveWindow in *. by rewrite W3. }
  destruct (run_foreign a _ tr2 _ Hno2 Hfor) as [_ Hno3]. fold later in Hno3.
  rewrite <- Ha in Hno3.
  pose proof (checkRateLimit_fresh req1 t1 later.2 _ Hno3 Hlate) as Hagain.
  fold again in Hagain.
  split; [by rewrite Hfirst|]. split.
  - destruct (inWindow.1) as [|r1 [|r2 [|r3 [|r4 [|r5 [|r6 [|r7 [|r8 [|r9 [|r10 [|r11 l]]]]]]]]]]];
      try discriminate W1.
    exists [r1; r2; r3; r4; r5; r6; r7; r8; r9], r10.
    simpl in W1. injection W1 as ? ? ? ? ? ? ? ? ? ?.
    repeat split; simpl; [by repeat f_equal | done |].
    apply Forall_forall with (x := r10) in W2; [by apply W2 | ].
    do 9 right. by left.
  - rewrite Hagain. simpl. repeat split. rewrite <- Ha. apply lookup_insert_eq.
Qed.

Lemma checkRateLimit_ten_then_refuse_witness :
  let req := {| RateLimit.ip := Some "203.0.113.7";
                RateLimit.connection_remoteAddress := None;
                RateLimit.socket_remoteAddress := None |} in
  let other := {| RateLimit.ip := None;
                  RateLimit.connection_remoteAddress := Some "198.51.100.2";
                  RateLimit.socket_remoteAddress := None |} in
  let tr := [RateLimit.Call req 1001; RateLimit.Call req 1002;
             RateLimit.Call other 1500; RateLimit.Call req 1003;
             RateLimit.Call req 1004; RateLimit.Call req 2000;
             RateLimit.Sweep 30000; RateLimit.Call req 30001;
             RateLimit.Call req 30002; RateLimit.Call req 30003;
             RateLimit.Call req 30004; RateLimit.Call req 61000] in
  let first := RateLimit.checkRateLimit req 1000 ∅ in
  let inWindow := RateLimit.run "203.0.113.7" tr first.2 in
  exists rs r11,
    inWindow.1 = rs ++ [r11] /\
    map RateLimit.allowed rs = repeat true 9 /\
    RateLimit.allowed r11 = false /\
    RateLimit.res_resetTime r11 = Some 61000.
Proof.
  intros req other tr.
  refine (proj1 (proj2 (checkRateLimit_ten_then_refuse ∅ req req 1000 61001 tr
                          [RateLimit.Sweep 400000] _ _ _ _ _ _))).
  - exact I.
  - unfold tr. repeat constructor; simpl; unfold RateLimit.window; lia.
  - reflexivity.
  - repeat constructor.
  - reflexivity.
  - unfold RateLimit.window. lia.
Defined.

(** ** The aggregator *)

Section AggregateFacts.
Import Report Aggregate Spec.
Local Open Scope Q_scope.

Implicit Types (r : ProtocolReport) (o : Settled).

Lemma addScore_sums r (acc : Q * Q) :
  fst (addScore r acc) == fst acc + achieved [r] /\
  snd (addScore r acc) == snd acc + applicable [r].
Proof.
  unfold addScore, achieved, applicable, contributing. simpl.
  destruct (score r) as [sc|], (success r); simpl; split; ring.
Qed.

Lemma contributing_cons r l : contributing (r :: l) = contributing [r] ++ contributing l.
Proof. unfold contributing. simpl. by rewrite app_nil_r. Qed.

Lemma sumOf_app f l1 l2 : sumOf f (l1 ++ l2) == sumOf f l1 + sumOf f l2.
Proof. induction l1 as [|sc l1 IH]; simpl; [ring | rewrite IH; ring]. Qed.

Lemma achieved_cons r l : achieved (r :: l) == achieved [r] + achieved l.
Proof. unfold achieved. rewrite contributing_cons. apply sumOf_app. Qed.

Lemma applicable_cons r l : applicable (r :: l) == applicable [r] + applicable l.
Proof. unfold applicable. rewrite contributing_cons. apply sumOf_app. Qed.

(** [totalScore] and [maxScore] are the two sums of the specification. *)
Lemma totals_sums a b c d :
  fst (totals a b c d) == achieved [a; b; c; d] /\
  snd (totals a b c d) == applicable [a; b; c; d].
Proof.
  unfold totals.
  destruct (addScore_sums d (addScore c (addScore b (addScore a (0, 0))))) as [T1 M1].
  destruct (addScore_sums c (addScore b (addScore a (0, 0)))) as [T2 M2].
  destruct (addScore_sums b (addScore a (0, 0))) as [T3 M3].
  destruct (addScore_sums a (0, 0)) as [T4 M4].
  rewrite T1, T2, T3, T4, M1, M2, M3, M4. cbn [fst snd].
  rewrite (achieved_cons a [b; c; d]), (achieved_cons b [c; d]), (achieved_cons c [d]).
  rewrite (applicable_cons a [b; c; d]), (applicable_cons b [c; d]),
    (applicable_cons c [d]).
  split; ring.
Qed.

Lemma overallOf_positive (t : Q * Q) :
  0 < snd t -> overallOf t = fst t / snd t * 10.
Proof.
  intros H. unfold overallOf. apply (gt_spec (snd t) 0) in H. by rewrite H.
Qed.

Lemma overallOf_nonpositive (t : Q * Q) : snd t <= 0 -> overallOf t = 0.
Proof.
  intros H. unfold overallOf. destruct (Js.gt (snd t) 0) eqn:E; [|done].
  apply gt_spec in E. lra.
Qed.

Lemma sumOf_valid l :
  Forall validScore l -> 0 <= sumOf value l /\ sumOf value l <= sumOf outOf l.
Proof.
  induction 1 as [|sc l [H1 H2] _ [IH1 IH2]]; simpl; split; lra.
Qed.

(** With valid scores the unrounded overall score lies in [[0, 10]]. *)
Lemma overallOf_range (t : Q * Q) :
  0 <= fst t -> fst t <= snd t -> 0 <= overallOf t <= 10.
Proof.
  intros H0 H1. destruct (Qlt_le_dec 0 (snd t)) as [Hp|Hn].
  - rewrite (overallOf_positive t Hp).
    assert (Hr : 0 <= fst t / snd t <= 1).
    { split; [apply Qle_shift_div_l | apply Qle_shift_div_r]; lra. }
    lra.
  - rewrite (overallOf_nonpositive t Hn). lra.
Qed.



End AggregateFacts.



(** C2.  Whatever the four analyzer tasks settle to, each slot of the
    aggregate report holds the report its analyzer produced when the task
    was fulfilled, and [{ success: false, error: message }] when it was
    rejected; [summary.passedChecks] is the number of the four reports
    whose [success] is true.  In particular, when [analyzeDMARC] rejects,
    the SPF, DKIM and MX slots are exactly what [analyzeSPF], [analyzeDKIM]
    and [analyzeMX] return. *)
Theorem aggregate_isolates_rejections
    (domain : string) (r0 r1 r2 r3 : Aggregate.Settled) :
  let A := Aggregate.aggregate domain r0 r1 r2 r3 in
  (Spec.slotFor r0 (Aggregate.dmarc A) /\ Spec.slotFor r1 (Aggregate.spf A) /\
   Spec.slotFor r2 (Aggregate.dkim A) /\ Spec.slotFor r3 (Aggregate.mx A)) /\
  Aggregate.passedChecks (Aggregate.summary A)
    = Spec.succeeded [Aggregate.dmarc A; Aggregate.spf A; Aggregate.dkim A;
                      Aggregate.mx A] /\
  (forall (w : Aggregate.World) (dkimSelector : option string) (message : string),
      Aggregate.analyzeDMARC w domain = Aggregate.Rejected message ->
      let B := Aggregate.analyzeEmailSecurity w domain dkimSelector in
      let selector := match dkimSelector with Some sel => sel | None => "default" end in
      Spec.slotFor (Aggregate.Rejected message) (Aggregate.dmarc B) /\
      Aggregate.spf B
        = Spf.analyzeSPF domain (Aggregate.resolveTxt w domain) (Aggregate.spfCheck w) /\
      Aggregate.dkim B
        = Dkim.analyzeDKIM domain selector
            (Aggregate.resolveTxt w (selector +:+ "._domainkey." +:+ domain))
            (Aggregate.dkimVerify w) /\
      Aggregate.mx B = Mx.analyzeMX domain (Aggregate.resolveMx w domain) /\
      Aggregate.passedChecks (Aggregate.summary B)
        = Spec.succeeded [Aggregate.spf B; Aggregate.dkim B; Aggregate.mx B]).
Proof.
  intros A. split; [|split].
  - by destruct r0, r1, r2, r3.
  - unfold A, Aggregate.aggregate, Spec.succeeded. simpl.
    destruct (Report.success (Aggregate.unwrap r0)),
             (Report.success (Aggregate.unwrap r1)),
             (Report.success (Aggregate.unwrap r2)),
             (Report.success (Aggregate.unwrap r3)); reflexivity.
  - intros w dkimSelector message Hrej B selector.
    unfold B, Aggregate.analyzeEmailSecurity. rewrite Hrej. fold selector.
    repeat split. unfold Aggregate.aggregate, Spec.succeeded. simpl.
    destruct (Report.success (Spf.analyzeSPF _ _ _)),
             (Report.success (Dkim.analyzeDKIM _ _ _ _)),
             (Report.success (Mx.analyzeMX _ _)); reflexivity.
Qed.

Lemma aggregate_isolates_rejections_witness :
  let w :=
    {| Aggregate.analyzeDMARC := fun _ => Aggregate.Rejected "queryTxt ETIMEOUT";
       Aggregate.resolveTxt :=
         fun name => if String.eqb name "example.org"
                     then Report.TxtOk [["v=spf1 mx "; "-all"]; ["unrelated"]]
                     else Report.TxtErr (Some "ENOTFOUND") "queryTxt ENOTFOUND";
       Aggregate.resolveMx :=
         fun _ => Report.MxOk (Some [{| Report.priority := 10;
                                        Report.exchange := "mx.example.org" |}]);
       Aggregate.spfCheck := fun _ => Spf.SpfThrows "no route";
       Aggregate.dkimVerify := fun _ => None |} in
  let B := Aggregate.analyzeEmailSecurity w "example.org" None in
  Report.error (Aggregate.dmarc B) = Some "queryTxt ETIMEOUT" /\
  Report.success (Aggregate.spf B) = true /\
  Report.success (Aggregate.mx B) = true /\
  Aggregate.passedChecks (Aggregate.summary B) = 2%nat.
Proof.
  intros w B.
  destruct (proj2 (proj2 (aggregate_isolates_rejections "example.org"
                            (Aggregate.Rejected "x") (Aggregate.Rejected "x")
                            (Aggregate.Rejected "x") (Aggregate.Rejected "x")))
              w None "queryTxt ETIMEOUT" eq_refl) as (H0 & H1 & _ & H3 & H4).
  split; [exact (f_equal Report.error H0)|].
  split; [exact (eq_trans (f_equal Report.success H1) eq_refl)|].
  split; [exact (eq_trans (f_equal Report.success H3) eq_refl)|].
  exact (eq_trans H4 eq_refl).
Defined.

(** ** Strings *)

Section StringFacts.

Lemma append_nil_l (s : string) : EmptyString +:+ s = s.
Proof. reflexivity. Qed.

Lemma append_cons (c : ascii) (s t : string) :
  String c s +:+ t = String c (s +:+ t).
Proof. reflexivity. Qed.

Lemma prefix_append (p rest : string) : String.prefix p (p +:+ rest) = true.
Proof.
  induction p as [|c p IH]; simpl; [by destruct rest|].
  destruct (ascii_dec c c); [exact IH | done].
Qed.

Lemma toLowerCase_append (s t : string) :
  Js.toLowerCase (s +:+ t) = Js.toLowerCase s +:+ Js.toLowerCase t.
Proof. induction s as [|c s IH]; simpl; [done | by rewrite IH]. Qed.

Lemma prefix_toLowerCase (p : string) : forall s,
  String.prefix p (Js.toLowerCase s) = true ->
  exists head rest, s = head +:+ rest /\ Js.toLowerCase head = p.
Proof.
  induction p as [|c p IH]; intros s H.
  - by exists EmptyString, s.
  - destruct s as [|d s]; simpl in H; [done|].
    destruct (ascii_dec c (Js.lowerChar d)) as [->|]; [|done].
    destruct (IH s H) as (head & rest & -> & <-).
    by exists (String d head), rest.
Qed.

(** The test of [analyzeSPF] is the case-insensitive prefix test. *)
Lemma isSpfRecord_spec (txt : string) :
  Spf.isSpfRecord txt = true <-> Spec.prefixIgnoringCase "v=spf1" txt.
Proof.
  unfold Spf.isSpfRecord, Js.startsWith, Spec.prefixIgnoringCase. split.
  - apply prefix_toLowerCase.
  - intros (head & rest & -> & <-). rewrite toLowerCase_append.
    apply prefix_append.
Qed.

(** [s.includes(p)] finds [p] wherever it starts. *)
Lemma includes_spec (p : string) : forall s,
  Js.includes s p = true <-> exists before after, s = before +:+ p +:+ after.
Proof.
  assert (Hpre : forall s, String.prefix p s = true -> exists after, s = p +:+ after).
  { induction p as [|c p IH]; intros s H; [by exists s|].
    destruct s as [|d s]; simpl in H; [done|].
    destruct (ascii_dec c d) as [->|]; [|done].
    destruct (IH s H) as [after ->]. by exists after. }
  induction s as [|d s IH].
  - simpl. rewrite orb_false_r. split.
    + intros H. destruct p; [by exists EmptyString, EmptyString | done].
    + intros (before & after & E). destruct before; [|done]. simpl in E.
      destruct p; [done | done].
  - change (Js.includes (String d s) p)
      with (String.prefix p (String d s) || Js.includes s p).
    rewrite orb_true_iff. split.
    + intros [H|H].
      * destruct (Hpre _ H) as [after E]. by exists EmptyString, after.
      * apply IH in H as (before & after & ->). by exists (String d before), after.
    + intros (before & after & E). destruct before as [|c before].
      * left. rewrite E, append_nil_l. apply prefix_append.
      * right. rewrite append_cons in E. injection E as -> ->.
        apply IH. by exists before, after.
Qed.

(** Two entries at different places that pass a test survive a filter. *)
Lemma filter_two {A} (f : A -> bool) (l : list A) (i j : nat) (x y : A) :
  i <> j -> l !! i = Some x -> l !! j = Some y -> f x = true -> f y = true ->
  exists a b rest, List.filter f l = a :: b :: rest.
Proof.
  intros Hne Hi Hj Hx Hy.
  assert (Hlen : (2 <= List.length (List.filter f l))%nat).
  { revert i j Hne Hi Hj. induction l as [|z l IH]; intros i j Hne Hi Hj; [done|].
    destruct i as [|i], j as [|j]; simpl in *; try done.
    - injection Hi as ->. rewrite Hx. simpl.
      apply list_elem_of_lookup_2, list_elem_of_In in Hj.
      assert (Hin : In y (List.filter f l)) by (apply filter_In; done).
      destruct (List.filter f l); [done | simpl; lia].
    - injection Hj as ->. rewrite Hy. simpl.
      apply list_elem_of_lookup_2, list_elem_of_In in Hi.
      assert (Hin : In x (List.filter f l)) by (apply filter_In; done).
      destruct (List.filter f l); [done | simpl; lia].
    - assert (Hne' : i <> j) by lia.
      specialize (IH i j Hne' Hi Hj). destruct (f z); simpl; lia. }
  destruct (List.filter f l) as [|a [|b rest]]; simpl in Hlen; try lia.
  by exists a, b, rest.
Qed.

End StringFacts.

(** ** SPF *)

(** C3.  When the TXT answer holds, at two different places, records that
    start with [v=spf1] up to letter case, [analyzeSPF] returns
    [success: false] with the error "Fatal: Multiple SPF records found.",
    which contains "Multiple SPF records"; [rawRecord] is the matching
    records, in order, joined with " | "; the report has two warnings of
    its own, where the "not found" report has no warnings at all. *)
Theorem analyzeSPF_multiple_records
    (domain : string) (txtRecords : list (list string))
    (spf : Spf.SpfQuery -> Spf.SpfOutcome) (i j : nat) (a b : list string) :
  i <> j ->
  txtRecords !! i = Some a -> txtRecords !! j = Some b ->
  Spec.prefixIgnoringCase "v=spf1" (Js.join EmptyString a) ->
  Spec.prefixIgnoringCase "v=spf1" (Js.join EmptyString b) ->
  let report := Spf.analyzeSPF domain (Report.TxtOk txtRecords) spf in
  Report.success report = false /\
  Report.error report = Some "Fatal: Multiple SPF records found." /\
  Js.includes "Fatal: Multiple SPF records found." "Multiple SPF records" = true /\
  Report.rawRecord report
    = Some (Js.join " | "
              (List.filter Spf.isSpfRecord (map (Js.join EmptyString) txtRecords))) /\
  Report.warnings report
    = Some ["Multiple SPF records will cause authentication failures.";
            "Email delivery may be severely impacted."] /\
  Report.warnings report <> Report.warnings (Spf.notFound domain) /\
  Report.score report = None.
Proof.
  intros Hne Hi Hj Ha Hb report.
  apply isSpfRecord_spec in Ha, Hb.
  assert (Hi' : map (Js.join EmptyString) txtRecords !! i = Some (Js.join EmptyString a))
    by (by rewrite list_lookup_fmap, Hi).
  assert (Hj' : map (Js.join EmptyString) txtRecords !! j = Some (Js.join EmptyString b))
    by (by rewrite list_lookup_fmap, Hj).
  destruct (filter_two Spf.isSpfRecord _ i j _ _ Hne Hi' Hj' Ha Hb)
    as (x & y & rest & Hf).
  unfold report, Spf.analyzeSPF, Spf.spfRecordsOf. rewrite Hf.
  repeat split. simpl. discriminate.
Qed.

Lemma analyzeSPF_multiple_records_witness :
  let report :=
    Spf.analyzeSPF "example.org"
      (Report.TxtOk [["V=SPF1 include:_spf.example.net"; " ~all"];
                     ["google-site-verification=abc"];
                     ["v=spf1 mx -all"]])
      (fun _ => Spf.SpfThrows "unused") in
  Report.success report = false /\
  Report.error report = Some "Fatal: Multiple SPF records found." /\
  Report.rawRecord report
    = Some "V=SPF1 include:_spf.example.net ~all | v=spf1 mx -all".
Proof.
  intros report.
  destruct (analyzeSPF_multiple_records "example.org"
              [["V=SPF1 include:_spf.example.net"; " ~all"];
               ["google-site-verification=abc"];
               ["v=spf1 mx -all"]]
              (fun _ => Spf.SpfThrows "unused") 0 2
              ["V=SPF1 include:_spf.example.net"; " ~all"] ["v=spf1 mx -all"])
    as (H1 & H2 & _ & H4 & _).
  - lia.
  - reflexivity.
  - reflexivity.
  - exists "V=SPF1", " include:_spf.example.net ~all". split; reflexivity.
  - exists "v=spf1", " mx -all". split; reflexivity.
  - split; [exact H1 | split; [exact H2 | exact H4]].
Defined.

Lemma analyzeSPF_score_none domain txt spf :
  Report.score (Spf.analyzeSPF domain txt spf) = None.
Proof.
  unfold Spf.analyzeSPF. destruct txt as [txtRecords|code message].
  - by destruct (Spf.spfRecordsOf txtRecords) as [|x [|y rest]].
  - by destruct (Spf.isNoData code).
Qed.

(** C10.  No report of [analyzeSPF] has a [score] property, the
    successful ones included; hence in [analyzeEmailSecurity] the SPF
    report adds nothing to [totalScore] or [maxScore], and the overall
    score is made of the DMARC, DKIM and MX scores at most. *)
Theorem analyzeSPF_never_scored :
  (forall domain txt spf, Report.score (Spf.analyzeSPF domain txt spf) = None) /\
  (forall (w : Aggregate.World) (domain : string) (dkimSelector : option string),
      let B := Aggregate.analyzeEmailSecurity w domain dkimSelector in
      Aggregate.totals (Aggregate.dmarc B) (Aggregate.spf B) (Aggregate.dkim B)
                       (Aggregate.mx B)
        = Aggregate.addScore (Aggregate.mx B)
            (Aggregate.addScore (Aggregate.dkim B)
               (Aggregate.addScore (Aggregate.dmarc B) (0%Q, 0%Q))) /\
      Spec.contributing [Aggregate.dmarc B; Aggregate.spf B; Aggregate.dkim B;
                         Aggregate.mx B]
        = Spec.contributing [Aggregate.dmarc B; Aggregate.dkim B; Aggregate.mx B] /\
      Report.value (Aggregate.overallScore B)
        = Js.round1
            (Aggregate.overallOf
               (Aggregate.addScore (Aggregate.mx B)
                  (Aggregate.addScore (Aggregate.dkim B)
                     (Aggregate.addScore (Aggregate.dmarc B) (0%Q, 0%Q)))))).
Proof.
  pose proof analyzeSPF_score_none as H.
  split; [exact H|].
  intros w domain dkimSelector B.
  assert (Hs : Report.score (Aggregate.spf B) = None) by apply H.
  assert (Ht : forall acc, Aggregate.addScore (Aggregate.spf B) acc = acc).
  { intros acc. generalize dependent (Aggregate.spf B). intros r Hr.
    unfold Aggregate.addScore. by rewrite Hr. }
  split; [|split].
  - unfold Aggregate.totals. by rewrite Ht.
  - generalize dependent (Aggregate.spf B). intros r Hr _.
    unfold Spec.contributing. simpl. rewrite Hr.
    by destruct (Report.success r).
  - change (Report.value (Aggregate.overallScore B))
      with (Js.round1 (Aggregate.overallOf
              (Aggregate.totals (Aggregate.dmarc B) (Aggregate.spf B)
                                (Aggregate.dkim B) (Aggregate.mx B)))).
    unfold Aggregate.totals. by rewrite Ht.
Qed.

Section SpfBudgetFacts.
Import Spf Spec.

Lemma extends_refl a : extends a a.
Proof. repeat split; exists []; by rewrite app_nil_r. Qed.

Lemma extends_trans a b c : extends a b -> extends b c -> extends a c.
Proof.
  intros (L1 & [ws1 W1] & [rs1 R1]) (L2 & [ws2 W2] & [rs2 R2]).
  split; [congruence|]. split.
  - exists (ws1 ++ ws2). by rewrite W2, W1, app_assoc.
  - exists (rs1 ++ rs2). by rewrite R2, R1, app_assoc.
Qed.

Lemma lengthCheck_extends record a : extends a (lengthCheck record a).
Proof.
  unfold lengthCheck, when. destruct (255 <? String.length record)%nat.
  - repeat split; simpl; eauto.
  - apply extends_refl.
Qed.

Lemma includeLoopCheck_extends mechs domain a :
  extends a (includeLoopCheck mechs domain a).
Proof.
  unfold includeLoopCheck, when.
  destruct (existsb (sameTarget domain) (includeTargets mechs)).
  - repeat split; simpl; eauto.
  - apply extends_refl.
Qed.

Lemma lookupBudget_lookups a : lookups (lookupBudget a) = lookups a.
Proof.
  unfold lookupBudget.
  by destruct (10 <? lookups a)%nat, (8 <? lookups a)%nat, (5 <? lookups a)%nat.
Qed.

Lemma analyzeSpfRecord_extends record domain :
  extends (lookupBudget (beforeBudget record)) (_analyzeSpfRecord record domain).
Proof.
  unfold _analyzeSpfRecord.
  eapply extends_trans; [apply lengthCheck_extends | apply includeLoopCheck_extends].
Qed.

End SpfBudgetFacts.

(** C4, as the code has it.  Let [before] be the analysis of a record when
    the lookup limit analysis starts, [after] the analysis when it ends,
    and [n] the computed number of lookups.
    - [n > 10]: the fatal warning and the "Reduce DNS lookups" advice are
      put in front, so the first warning of the finished analysis begins
      with "Fatal:" and its first recommendation with "Reduce DNS lookups";
    - [8 < n <= 10]: the approaching-limit warning is appended, and with
      it the advice to optimize the record;
    - [5 < n <= 8]: only the monitoring recommendation is appended;
    - [n <= 5]: nothing is added.
    The ranges exclude one another, so at most one rule fires; what
    follows the lookup limit analysis only appends. *)
Theorem lookupBudget_rules (record domain : string) :
  let before := Spf.beforeBudget record in
  let after := Spf.lookupBudget before in
  let final := Spf._analyzeSpfRecord record domain in
  let n := Spf.lookups final in
  Spf.lookups before = n /\
  Spec.extends after final /\
  ((10 < n)%nat ->
   Spf.warnings after = Spf.fatalLookupWarning n :: Spf.warnings before /\
   Spf.recommendations after = Spf.reduceLookupsAdvice :: Spf.recommendations before /\
   exists w ws r rs,
     Spf.warnings final = w :: ws /\ Spf.recommendations final = r :: rs /\
     Js.startsWith w "Fatal:" = true /\ Js.startsWith r "Reduce DNS lookups" = true) /\
  ((8 < n <= 10)%nat ->
   Spf.warnings after = Spf.warnings before ++ [Spf.approachingWarning n] /\
   Spf.recommendations after = Spf.recommendations before ++ [Spf.optimizeAdvice]) /\
  ((5 < n <= 8)%nat ->
   Spf.warnings after = Spf.warnings before /\
   Spf.recommendations after = Spf.recommendations before ++ [Spf.monitorNote n]) /\
  ((n <= 5)%nat -> after = before).
Proof.
  intros before after final n.
  pose proof (analyzeSpfRecord_extends record domain) as Hext.
  fold before in Hext. fold after final in Hext.
  assert (Hn : Spf.lookups before = n).
  { destruct Hext as (L & _). unfold n. rewrite L. unfold after.
    by rewrite lookupBudget_lookups. }
  split; [exact Hn|]. split; [exact Hext|].
  unfold after, Spf.lookupBudget. rewrite Hn.
  split; [|split; [|split]].
  - intros H. apply Nat.ltb_lt in H as Hb.
    assert (Ha : Spf.lookupBudget before
                 = Spf.unshiftRecommendation Spf.reduceLookupsAdvice
                     (Spf.unshiftWarning (Spf.fatalLookupWarning n) before)).
    { unfold Spf.lookupBudget. by rewrite Hn, Hb. }
    rewrite Hb. split; [done|]. split; [done|].
    destruct Hext as (_ & [ws W] & [rs R]). unfold after in W, R.
    rewrite Ha in W, R. simpl in W, R.
    exists (Spf.fatalLookupWarning n), (Spf.warnings before ++ ws),
           Spf.reduceLookupsAdvice, (Spf.recommendations before ++ rs).
    repeat split; assumption || reflexivity.
  - intros [H1 H2].
    assert (Hb1 : (10 <? n)%nat = false) by (apply Nat.ltb_ge; lia).
    apply Nat.ltb_lt in H1. by rewrite Hb1, H1.
  - intros [H1 H2].
    assert (Hb1 : (10 <? n)%nat = false) by (apply Nat.ltb_ge; lia).
    assert (Hb2 : (8 <? n)%nat = false) by (apply Nat.ltb_ge; lia).
    apply Nat.ltb_lt in H1. by rewrite Hb1, Hb2, H1.
  - intros H.
    assert (Hb1 : (10 <? n)%nat = false) by (apply Nat.ltb_ge; lia).
    assert (Hb2 : (8 <? n)%nat = false) by (apply Nat.ltb_ge; lia).
    assert (Hb3 : (5 <? n)%nat = false) by (apply Nat.ltb_ge; lia).
    by rewrite Hb1, Hb2, Hb3.
Qed.


Lemma lookupBudget_rules_witness :
  let eleven :=
    Spf._analyzeSpfRecord
      "v=spf1 a mx include:a include:b include:c include:d include:e include:f include:g include:h redirect=spf.example.net -all"
      "example.org" in
  let nine :=
    Spf.beforeBudget
      "v=spf1 a mx include:a include:b include:c include:d include:e include:f exists:%{i}.x.example.org ~all" in
  (exists w ws r rs,
     Spf.warnings eleven = w :: ws /\
     Spf.recommendations eleven = r :: rs /\
     Js.startsWith w "Fatal:" = true /\ Js.startsWith r "Reduce DNS lookups" = true) /\
  Spf.warnings (Spf.lookupBudget nine)
    = Spf.warnings nine ++ [Spf.approachingWarning 9].
Proof.
  intros eleven nine. split.
  - destruct (lookupBudget_rules
         "v=spf1 a mx include:a include:b include:c include:d include:e include:f include:g include:h redirect=spf.example.net -all"
         "example.org") as (_ & _ & H & _).
    assert (Hn : (10 < Spf.lookups eleven)%nat) by (vm_compute; lia).
    exact (proj2 (proj2 (H Hn))).
  - destruct (lookupBudget_rules
         "v=spf1 a mx include:a include:b include:c include:d include:e include:f exists:%{i}.x.example.org ~all"
         "example.org") as (_ & _ & _ & H & _).
    assert (Hn : (8 < Spf.lookups (Spf._analyzeSpfRecord
         "v=spf1 a mx include:a include:b include:c include:d include:e include:f exists:%{i}.x.example.org ~all"
         "example.org") <= 10)%nat) by (vm_compute; lia).
    pose proof (proj1 (H Hn)) as W.
    assert (E : Spf.lookups (Spf._analyzeSpfRecord
         "v=spf1 a mx include:a include:b include:c include:d include:e include:f exists:%{i}.x.example.org ~all"
         "example.org") = 9%nat) by (vm_compute; reflexivity).
    rewrite E in W. exact W.
Defined.

(** C4, the claim as worded fails: with nine lookups the rule for the
    range (8, 10] does not add a warning only, it also appends a
    recommendation. *)
Lemma lookupBudget_nine_adds_recommendation :
  let before :=
    Spf.beforeBudget
      "v=spf1 a mx include:a include:b include:c include:d include:e include:f exists:%{i}.x.example.org ~all" in
  let after := Spf.lookupBudget before in
  Spf.lookups before = 9%nat /\
  Spf.recommendations after = Spf.recommendations before ++ [Spf.optimizeAdvice] /\
  Spf.recommendations after <> Spf.recommendations before.
Proof.
  intros before after. split; [vm_compute; reflexivity|]. split; [vm_compute; reflexivity|].
  vm_compute. intros H. apply (f_equal (@List.length string)) in H. discriminate H.
Qed.

(** ** The scoring accumulators *)

Section ScoringFacts.
Import Scoring Spec.
Local Open Scope Q_scope.

Variable P : string -> Prop.

Lemma tenths_Z (k : Z) : tenths (inject_Z k).
Proof. exists (k * 10)%Z. rewrite inject_Z_mult. field. Qed.

Lemma tenths_half (k : Z) : tenths (inject_Z k / 2).
Proof. exists (k * 5)%Z. rewrite inject_Z_mult. field. Qed.

Lemma tenths_plus x y : tenths x -> tenths y -> tenths (x + y).
Proof.
  intros [k Hk] [l Hl]. exists (k + l)%Z.
  rewrite Hk, Hl, inject_Z_plus. field.
Qed.

Lemma tenths_eq x y : x == y -> tenths x -> tenths y.
Proof. intros E [k Hk]. exists k. by rewrite <- E. Qed.

Lemma round1_of_tenths x : tenths x -> Js.round1 x == x.
Proof. intros [k Hk]. rewrite Hk. apply round1_tenths. Qed.

Lemma advances_refl a : advances P 0 a a.
Proof.
  split; [ring | split; exists []; rewrite app_nil_r; [by split | done]].
Qed.

Lemma advances_trans g1 g2 a a' a'' :
  advances P g1 a a' -> advances P g2 a' a'' -> advances P (g1 + g2) a a''.
Proof.
  intros (B1 & (ds1 & D1 & F1) & (ws1 & W1)) (B2 & (ds2 & D2 & F2) & (ws2 & W2)).
  split; [|split].
  - rewrite B2, B1. ring.
  - exists (ds1 ++ ds2). rewrite D2, D1, app_assoc. split; [done|].
    by apply Forall_app.
  - exists (ws1 ++ ws2). by rewrite W2, W1, app_assoc.
Qed.

Lemma advances_award q msg a : P msg -> advances P q a (award q msg a).
Proof.
  intros Hmsg. split; [reflexivity | split; simpl].
  - exists [msg]. split; [done | by constructor].
  - exists []. by rewrite app_nil_r.
Qed.

Lemma advances_detail msg a : P msg -> advances P 0 a (detail msg a).
Proof.
  intros Hmsg. split; [simpl; ring | split; simpl].
  - exists [msg]. split; [done | by constructor].
  - exists []. by rewrite app_nil_r.
Qed.

Lemma advances_warn msg a : advances P 0 a (warn msg a).
Proof.
  split; [simpl; ring | split; simpl].
  - exists []. rewrite app_nil_r. by split.
  - by exists [msg].
Qed.

Lemma advances_recommend msg a : advances P 0 a (recommend msg a).
Proof.
  split; [simpl; ring | split; simpl].
  - exists []. rewrite app_nil_r. by split.
  - exists []. by rewrite app_nil_r.
Qed.

Lemma advances_gain g g' a a' : g == g' -> advances P g a a' -> advances P g' a a'.
Proof. intros E (B & D & W). split; [by rewrite <- E | by split]. Qed.

Lemma clamp_tenths x (c : Z) : tenths x -> tenths (Js.max (Js.min x (inject_Z c)) 0).
Proof.
  intros Hx.
  destruct (max_cases (Js.min x (inject_Z c)) 0) as [[_ ->]|[_ ->]];
    [apply (tenths_Z 0)|].
  destruct (min_cases x (inject_Z c)) as [[_ ->]|[_ ->]]; [done | apply tenths_Z].
Qed.

Lemma geq_proper x y c : x == y -> Js.geq x c = Js.geq y c.
Proof.
  intros E. destruct (Js.geq y c) eqn:A.
  - apply geq_spec. apply geq_spec in A. by rewrite E.
  - apply geq_false. apply geq_false in A. by rewrite E.
Qed.

#[global] Instance band_proper : Proper (Qeq ==> eq) band.
Proof.
  intros x y E. unfold band.
  by rewrite (geq_proper x y _ E), (geq_proper x y (60 # 100) E),
    (geq_proper x y (40 # 100) E).
Qed.

(** An if-chain with the thresholds 80%, 60% and 40% of [c] is the
    percentage banding of [f / c]. *)
Lemma band_of_thresholds (c e g h f : Q) :
  0 < c -> e == (80 # 100) * c -> g == (60 # 100) * c -> h == (40 # 100) * c ->
  (if Js.geq f e then Report.Excellent
   else if Js.geq f g then Report.Good
   else if Js.geq f h then Report.Fair else Report.Poor) = band (f / c).
Proof.
  intros Hc He Hg Hh. unfold band.
  assert (K : forall t p, t == p * c -> Js.geq f t = Js.geq (f / c) p).
  { intros t p Ht. destruct (Js.geq f t) eqn:A; symmetry.
    - apply geq_spec in A. apply geq_spec.
      apply Qle_shift_div_l; [done | by rewrite <- Ht].
    - apply geq_false in A. apply geq_false.
      apply Qlt_shift_div_r; [done | by rewrite <- Ht]. }
  by rewrite (K e _ He), (K g _ Hg), (K h _ Hh).
Qed.

End ScoringFacts.

(** ** DKIM *)

Section DkimFacts.
Import Report Scoring Dkim Spec.
Local Open Scope Q_scope.

Lemma matchPublicKey_none (record : string) :
  Js.includes record "p=" = false -> matchPublicKey record = None.
Proof.
  induction record as [|c s IH]; [done|].
  change (Js.includes (String c s) "p=")
    with (String.prefix "p=" (String c s) || Js.includes s "p=").
  intros H. apply orb_false_iff in H as [Hp Hs]. simpl.
  destruct (Ascii.eqb_spec c "p") as [->|]; [|by apply IH].
  destruct s as [|d rest]; [done|].
  destruct (Ascii.eqb_spec d "=") as [->|]; [|by apply IH].
  by destruct rest.
Qed.

Lemma keyTypeStep_advances record a :
  advances otherDetail (keyTypePoints record) a (keyTypeStep record a).
Proof.
  unfold keyTypeStep, keyTypePoints.
  destruct (Js.includes record "k=rsa"); [by apply advances_award|].
  destruct (Js.includes record "k=ed25519"); [by apply advances_award|].
  apply advances_refl.
Qed.

Lemma hashStep_advances record a :
  advances otherDetail (hashPoints record) a (hashStep record a).
Proof.
  unfold hashStep, hashPoints.
  destruct (Js.includes record "h=sha256"); [by apply advances_award|].
  destruct (Js.includes record "h=sha1"); [|apply advances_refl].
  apply (advances_gain _ ((1 # 2) + 0)); [ring|].
  eapply advances_trans; [|apply advances_recommend]. by apply advances_award.
Qed.

Lemma serviceStep_advances record a :
  advances otherDetail (servicePoints record) a (serviceStep record a).
Proof.
  unfold serviceStep, servicePoints.
  destruct (Js.includes record "s=email"); [by apply advances_award|].
  apply advances_refl.
Qed.

Lemma flagsStep_advances record a : advances otherDetail 0 a (flagsStep record a).
Proof.
  unfold flagsStep.
  destruct (Js.includes record "t=y"), (Js.includes record "t=s");
    try apply advances_warn; try apply advances_refl.
  apply (advances_gain _ (0 + 0)); [ring|].
  eapply advances_trans; apply advances_warn.
Qed.

Lemma keyLengthStep_advances record a :
  advances otherDetail (keyLengthPoints record) a (keyLengthStep record a).
Proof.
  unfold keyLengthStep, keyLengthPoints.
  destruct (matchPublicKey record) as [key|]; [|apply advances_refl].
  destruct (300 <? String.length key)%nat; [by apply advances_award|].
  destruct (String.length key <? 200)%nat; [|apply advances_refl].
  apply (advances_gain _ (0 + 0)); [ring|].
  eapply advances_trans; [apply advances_warn | apply advances_recommend].
Qed.

Lemma prefixed_otherDetail (c : ascii) (s t : string) :
  c <> "P"%char -> otherDetail (String c s +:+ t).
Proof. intros Hc E. rewrite append_cons in E. injection E as E _. done. Qed.

Lemma statusStep_advances result a :
  advances otherDetail
    (match status_result result with
     | Some r => if String.eqb r "pass" then 1 # 2 else 0
     | None => 0
     end) a (statusStep result a).
Proof.
  unfold statusStep.
  destruct (status_result result) as [r|]; [|apply advances_refl].
  destruct (Js.truthy (Some r)) eqn:Htruthy.
  - assert (Hd : advances otherDetail 0 a (detail ("Mailauth DKIM check: " +:+ r) a))
      by (by apply advances_detail, prefixed_otherDetail).
    destruct (String.eqb r "pass").
    + apply (advances_gain _ (0 + (1 # 2))); [ring|].
      eapply advances_trans; [exact Hd | by apply advances_award].
    + destruct (String.eqb r "neutral"); [|exact Hd].
      apply (advances_gain _ (0 + 0)); [ring|].
      eapply advances_trans; [exact Hd | by apply advances_detail].
  - assert (r = EmptyString) as ->.
    { simpl in Htruthy. apply negb_false_iff, String.eqb_eq in Htruthy. done. }
    apply advances_refl.
Qed.

Lemma infoStep_advances result a : advances otherDetail 0 a (infoStep result a).
Proof.
  unfold infoStep.
  destruct (info result) as [i|]; [|apply advances_refl].
  destruct (Js.truthy (Some i)); [|apply advances_refl].
  by apply advances_detail, prefixed_otherDetail.
Qed.

Lemma mailauthStep_advances dkimResult a :
  advances otherDetail (verificationPoints dkimResult) a (mailauthStep dkimResult a).
Proof.
  unfold mailauthStep, verificationPoints.
  destruct dkimResult as [[[[|result rest]|]]|]; try apply advances_refl.
  eapply advances_gain; [|eapply advances_trans;
                           [apply statusStep_advances | apply infoStep_advances]].
  ring.
Qed.

(** From the public-key rule to the end, the analysis earns
    [otherPoints] and pushes no public-key detail. *)
Lemma accumulate_advances record dkimResult :
  advances otherDetail (otherPoints record dkimResult)
    (publicKeyStep record (award 1 "Valid DKIM record found (+1 point)" start))
    (accumulate record dkimResult).
Proof.
  unfold accumulate, otherPoints.
  set (a1 := publicKeyStep record _).
  apply (advances_gain _
           (keyTypePoints record
            + (hashPoints record
               + (servicePoints record
                  + (0 + (keyLengthPoints record + verificationPoints dkimResult))))));
    [ring|].
  eapply advances_trans; [apply keyTypeStep_advances|].
  eapply advances_trans; [apply hashStep_advances|].
  eapply advances_trans; [apply serviceStep_advances|].
  eapply advances_trans; [apply flagsStep_advances|].
  eapply advances_trans; [apply keyLengthStep_advances | apply mailauthStep_advances].
Qed.

Lemma otherPoints_range record dkimResult :
  0 <= otherPoints record dkimResult /\ otherPoints record dkimResult <= 4 /\
  tenths (otherPoints record dkimResult) /\
  (Js.includes record "p=" = false -> otherPoints record dkimResult <= 7 # 2).
Proof.
  assert (Hkl : Js.includes record "p=" = false -> keyLengthPoints record = 0).
  { intros H. unfold keyLengthPoints. by rewrite matchPublicKey_none. }
  unfold otherPoints.
  assert (K : (keyTypePoints record = 1 \/ keyTypePoints record = 3 # 2
               \/ keyTypePoints record = 0)).
  { unfold keyTypePoints. destruct (Js.includes record "k=rsa"); [tauto|].
    destruct (Js.includes record "k=ed25519"); tauto. }
  assert (H : (hashPoints record = 1 \/ hashPoints record = 1 # 2
               \/ hashPoints record = 0)).
  { unfold hashPoints. destruct (Js.includes record "h=sha256"); [tauto|].
    destruct (Js.includes record "h=sha1"); tauto. }
  assert (S : (servicePoints record = 1 # 2 \/ servicePoints record = 0)).
  { unfold servicePoints. destruct (Js.includes record "s=email"); tauto. }
  assert (L : (keyLengthPoints record = 1 # 2 \/ keyLengthPoints record = 0)).
  { unfold keyLengthPoints. destruct (matchPublicKey record) as [key|]; [|tauto].
    destruct (300 <? String.length key)%nat; tauto. }
  assert (V : (verificationPoints dkimResult = 1 # 2
               \/ verificationPoints dkimResult = 0)).
  { unfold verificationPoints.
    destruct dkimResult as [[[[|result rest]|]]|]; try tauto.
    destruct (status_result result) as [r|]; [|tauto].
    destruct (String.eqb r "pass"); tauto. }
  assert (T : forall q, q = 1 \/ q = 3 # 2 \/ q = 1 # 2 \/ q = 0 -> tenths q).
  { intros q [-> | [-> | [-> | ->]]];
      [apply (tenths_Z 1) | apply (tenths_half 3) | apply (tenths_half 1)
       | apply (tenths_Z 0)]. }
  repeat split.
  - destruct K as [-> | [-> | ->]], H as [-> | [-> | ->]], S as [-> | ->], L as [-> | ->],
      V as [-> | ->]; lra.
  - destruct K as [-> | [-> | ->]], H as [-> | [-> | ->]], S as [-> | ->], L as [-> | ->],
      V as [-> | ->]; lra.
  - repeat apply tenths_plus; apply T; tauto.
  - intros Hp. rewrite (Hkl Hp).
    destruct K as [-> | [-> | ->]], H as [-> | [-> | ->]], S as [-> | ->], V as [-> | ->]; lra.
Qed.

(** The state after the public-key rule. *)
Lemma publicKeyStep_effect record a :
  base (publicKeyStep record a) == base a + publicKeyPoints record /\
  details (publicKeyStep record a)
    = details a ++ (if hasPublicKey record then [publicKeyDetail] else []) /\
  warnings (publicKeyStep record a)
    = warnings a ++ (if hasPublicKey record then [] else [noPublicKeyWarning]).
Proof.
  unfold publicKeyStep, publicKeyPoints, hasPublicKey.
  destruct (Js.includes record "p=" && negb (Js.includes record "p=;")); simpl.
  - split; [reflexivity|]. split; [reflexivity | by rewrite app_nil_r].
  - split; [ring|]. split; [by rewrite app_nil_r | reflexivity].
Qed.

(** The points that [analyzeDKIMRecord] has counted before clamping. *)
Lemma accumulate_base record dkimResult :
  base (accumulate record dkimResult)
    == 1 + publicKeyPoints record + otherPoints record dkimResult.
Proof.
  destruct (accumulate_advances record dkimResult) as (B & _).
  destruct (publicKeyStep_effect record
              (award 1 "Valid DKIM record found (+1 point)" start)) as (B1 & _).
  rewrite B, B1. simpl. ring.
Qed.

Lemma accumulate_tenths record dkimResult : tenths (base (accumulate record dkimResult)).
Proof.
  apply (tenths_eq (1 + publicKeyPoints record + otherPoints record dkimResult));
    [symmetry; apply accumulate_base|].
  apply tenths_plus; [apply tenths_plus|].
  - apply (tenths_Z 1).
  - unfold publicKeyPoints.
    destruct (_ && _); [apply (tenths_Z 2) | apply (tenths_Z 0)].
  - apply otherPoints_range.
Qed.

(** The bands of [analyzeDKIMRecord] are the percentage bands of 5. *)
Lemma securityLevel_band f : Dkim.securityLevel f = band (f / 5).
Proof.
  unfold Dkim.securityLevel. apply band_of_thresholds; [lra | ring | ring | ring].
Qed.

(** The score of [analyzeDKIMRecord]: out of 5, its value the clamped
    points and its level their band. *)
Lemma analyzeDKIMRecord_score record dkimResult :
  let sc := a_score (analyzeDKIMRecord record dkimResult) in
  outOf sc = 5 /\ validScore sc /\ level sc = band (value sc / outOf sc) /\
  (invalidFormat record = false ->
   value sc == Dkim.finalScoreOf (accumulate record dkimResult)).
Proof.
  unfold analyzeDKIMRecord. destruct (invalidFormat record).
  - cbn [a_score outOf value level]. unfold validScore. cbn [value outOf].
    split; [done|]. split; [lra|]. by split.
  - cbv zeta. set (f := Dkim.finalScoreOf (accumulate record dkimResult)).
    cbn [a_score outOf value level]. unfold validScore. cbn [value outOf].
    assert (Hr : 0 <= f <= 5) by (apply clamp_range; lra).
    assert (Ht : tenths f)
      by (apply (clamp_tenths _ 5), accumulate_tenths).
    assert (Hv : Js.round1 f == f) by (by apply round1_of_tenths).
    split; [done|]. split; [rewrite Hv; exact Hr|]. split; [|done].
    rewrite securityLevel_band. apply band_proper. by rewrite Hv.
Qed.

End DkimFacts.




(** ** MX *)

Section MxFacts.
Import Report Scoring Mx Spec.
Local Open Scope Q_scope.

(** A sole null MX record. *)
Lemma analyzeMXRecords_sole_null (p : Z) (ex : string) :
  ex = "." \/ ex = EmptyString ->
  let res := analyzeMXRecords [{| priority := p; exchange := ex |}] in
  a_warnings res
    = (if (p =? 0)%Z then [priorityZeroWarning] else []) ++ [nullMxWarning] /\
  value (a_score res) == 0 /\ outOf (a_score res) = 3 /\
  level (a_score res) = Poor /\
  Report.details (a_score res) = Some [nullMxDetail].
Proof.
  intros Hex res. unfold res, analyzeMXRecords, accumulate, beforeNull, nullMxStep,
    issuesStep, hasLowPriority, hasHighPriority.
  cbn [existsb priority]. rewrite !orb_false_r.
  destruct Hex as [-> | ->]; destruct (p =? 0)%Z, (p >? 50)%Z; vm_compute;
    repeat split; reflexivity.
Qed.

Lemma providerStep_keeps records a :
  base (providerStep records a) = base a /\
  warnings (providerStep records a) = warnings a.
Proof. unfold providerStep. by destruct (detectedProviders records). Qed.

Lemma issuesStep_keeps records a :
  base (issuesStep records a) = base a /\
  exists ws, warnings (issuesStep records a) = warnings a ++ ws /\
             Forall (fun w => w = priorityZeroWarning) ws.
Proof.
  unfold issuesStep.
  destruct (hasLowPriority records), (hasHighPriority records); simpl;
    (split; [done|]).
  - exists [priorityZeroWarning]. split; [done | by constructor].
  - exists [priorityZeroWarning]. split; [done | by constructor].
  - exists []. split; [by rewrite app_nil_r | constructor].
  - exists []. split; [by rewrite app_nil_r | constructor].
Qed.

(** Before the null-MX rule a non-empty record set has earned 2 or 3
    points, 3 only with at least two records, and has drawn no warning
    but those of the priority rules. *)
Lemma beforeNull_facts records :
  records <> [] ->
  (base (beforeNull records) = 0 + 1 + 1 \/
   base (beforeNull records) = 0 + 1 + 1 + 1) /\
  Forall (fun w => w = samePriorityWarning \/ w = priorityZeroWarning)
         (warnings (beforeNull records)).
Proof.
  intros Hne. unfold beforeNull.
  destruct (issuesStep_keeps records
              (providerStep records
                 (priorityStep records
                    (redundancyStep records
                       (award 1 "MX records present (+1 point)" start)))))
    as (B & ws & W & F).
  destruct (providerStep_keeps records
              (priorityStep records
                 (redundancyStep records
                    (award 1 "MX records present (+1 point)" start))))
    as (B' & W').
  rewrite B, B', W, W'. clear B B' W W'.
  assert (Fws : Forall (fun w => w = samePriorityWarning \/ w = priorityZeroWarning) ws).
  { eapply Forall_impl; [exact F|]. intros w ->. by right. }
  destruct records as [|r [|r' rest]]; [done | |].
  - split; [by left|]. simpl. exact Fws.
  - unfold priorityStep, redundancyStep.
    change (2 <=? List.length (r :: r' :: rest))%nat with true. cbv iota.
    destruct (List.length _ =? List.length _)%nat; simpl.
    + split; [by right | exact Fws].
    + split; [by left|]. constructor; [by left | exact Fws].
Qed.

(** The score of [analyzeMXRecords]: out of 3, and 0 (poor, for a sole
    null MX), 2 (good) or 3 (excellent). *)
Lemma analyzeMXRecords_score records :
  let sc := a_score (analyzeMXRecords records) in
  outOf sc = 3 /\
  ((value sc == 0 /\ level sc = Poor) \/
   (value sc == 2 /\ level sc = Good /\ records <> []) \/
   (value sc == 3 /\ level sc = Excellent /\ records <> [])) /\
  (hasNullMx records && (List.length records =? 1)%nat = false -> records <> [] ->
   2 <= value sc).
Proof.
  destruct records as [|r rest]; [simpl; repeat split; try done; by left|].
  set (records := r :: rest).
  assert (Hne : records <> []) by done.
  destruct (beforeNull_facts records Hne) as (B & _).
  unfold analyzeMXRecords. fold records. cbv zeta.
  cbn [a_score outOf value level]. unfold Mx.finalScoreOf, accumulate.
  unfold nullMxStep.
  destruct (hasNullMx records && (List.length records =? 1)%nat).
  - split; [done|]. split; [left; vm_compute; by split | done].
  - assert (Hb : base (if hasNullMx records then warn mixedNullWarning (beforeNull records)
                       else beforeNull records) = base (beforeNull records))
      by (by destruct (hasNullMx records)).
    rewrite Hb. split; [done|].
    destruct B as [-> | ->].
    + split; [right; left; vm_compute; by repeat split|].
      intros _ _. vm_compute. discriminate.
    + split; [right; right; vm_compute; by repeat split|].
      intros _ _. vm_compute. discriminate.
Qed.

End MxFacts.

(** C5, as the code has it.
    - A sole null MX record (exchange "." or empty): score value 0,
      details only "Null MX record - domain explicitly rejects email",
      and the warning "Null MX record detected - this domain does not
      accept email", preceded by the priority-0 warning when the priority
      is 0.  For [{priority: 0, exchange: "."}] that makes two warnings.
    - A null MX among two or more records: the "Mixed null and regular MX
      records" warning comes last, after the warnings of the priority
      rules if any; the sole-null warning is not emitted, and the score
      is not zeroed: its value is at least 2. *)
Theorem analyzeMXRecords_null_mx :
  (forall (p : Z) (ex : string),
      ex = "." \/ ex = EmptyString ->
      let res := Mx.analyzeMXRecords [{| Report.priority := p; Report.exchange := ex |}] in
      (Report.value (Report.a_score res) == 0)%Q /\
      Report.details (Report.a_score res) = Some [Mx.nullMxDetail] /\
      Report.a_warnings res
        = (if p =? 0 then [Mx.priorityZeroWarning] else []) ++ [Mx.nullMxWarning]) /\
  (let res := Mx.analyzeMXRecords [{| Report.priority := 0; Report.exchange := "." |}] in
   (Report.value (Report.a_score res) == 0)%Q /\
   Report.details (Report.a_score res) = Some [Mx.nullMxDetail] /\
   Report.a_warnings res = [Mx.priorityZeroWarning; Mx.nullMxWarning]) /\
  (forall records : list Report.MxRecord,
      Mx.hasNullMx records = true -> (2 <= List.length records)%nat ->
      let res := Mx.analyzeMXRecords records in
      (exists ws, Report.a_warnings res = ws ++ [Mx.mixedNullWarning] /\
                  Forall (fun w => w = Mx.samePriorityWarning \/ w = Mx.priorityZeroWarning)
                         ws) /\
      ~ In Mx.nullMxWarning (Report.a_warnings res) /\
      (2 <= Report.value (Report.a_score res))%Q).
Proof.
  assert (Hsole : forall (p : Z) (ex : string),
      ex = "." \/ ex = EmptyString ->
      let res := Mx.analyzeMXRecords [{| Report.priority := p; Report.exchange := ex |}] in
      (Report.value (Report.a_score res) == 0)%Q /\
      Report.details (Report.a_score res) = Some [Mx.nullMxDetail] /\
      Report.a_warnings res
        = (if p =? 0 then [Mx.priorityZeroWarning] else []) ++ [Mx.nullMxWarning]).
  { intros p ex Hex res.
    destruct (analyzeMXRecords_sole_null p ex Hex) as (W & V & _ & _ & D).
    by repeat split. }
  split; [exact Hsole|]. split; [exact (Hsole 0 "." (or_introl eq_refl))|].
  intros records Hnull Hlen res.
  assert (Hne : records <> []) by (destruct records; [simpl in Hlen; lia | done]).
  assert (Hone : (List.length records =? 1)%nat = false) by (apply Nat.eqb_neq; lia).
  destruct (beforeNull_facts records Hne) as (_ & F).
  assert (Hw : Report.a_warnings res
               = Scoring.warnings (Mx.beforeNull records) ++ [Mx.mixedNullWarning]).
  { unfold res, Mx.analyzeMXRecords. destruct records as [|r rest]; [done|].
    cbv zeta. cbn [Report.a_warnings]. unfold Mx.accumulate, Mx.nullMxStep.
    by rewrite Hnull, Hone. }
  split; [by eexists|]. split.
  - rewrite Hw. intros Hin. apply in_app_or in Hin as [Hin|[Hin|[]]].
    + destruct (proj1 (List.Forall_forall _ _) F _ Hin) as [E|E]; discriminate E.
    + discriminate Hin.
  - destruct (analyzeMXRecords_score records) as (_ & _ & H). apply H; [|done].
    by rewrite Hone, andb_false_r.
Qed.

Lemma analyzeMXRecords_null_mx_witness :
  let res := Mx.analyzeMXRecords
               [{| Report.priority := 10; Report.exchange := "aspmx.l.google.com" |};
                {| Report.priority := 10; Report.exchange := EmptyString |}] in
  ~ In Mx.nullMxWarning (Report.a_warnings res) /\
  (2 <= Report.value (Report.a_score res))%Q.
Proof.
  intros res.
  destruct (proj2 (proj2 analyzeMXRecords_null_mx)
              [{| Report.priority := 10; Report.exchange := "aspmx.l.google.com" |};
               {| Report.priority := 10; Report.exchange := EmptyString |}])
    as (_ & H1 & H2).
  - reflexivity.
  - simpl. lia.
  - split; [exact H1 | exact H2].
Defined.

(** C5, the claim as worded fails: the sole null MX
    [{priority: 0, exchange: "."}] draws two warnings, not one, and the
    text "explicitly rejects email" is that of the score detail. *)
Lemma analyzeMXRecords_sole_null_two_warnings :
  let res := Mx.analyzeMXRecords [{| Report.priority := 0; Report.exchange := "." |}] in
  Report.a_warnings res
    = ["Priority 0 detected - ensure this is intentional";
       "Null MX record detected - this domain does not accept email"] /\
  List.length (Report.a_warnings res) <> 1%nat /\
  ~ (exists w, Report.a_warnings res = [w]).
Proof.
  intros res. split; [vm_compute; reflexivity|]. split.
  - vm_compute. discriminate.
  - intros [w H]. apply (f_equal (@List.length string)) in H. vm_compute in H.
    discriminate H.
Qed.

(** ** The score invariant and the level bands *)

Section ScoreInvariants.
Import Report Spec.
Local Open Scope Q_scope.

Lemma analyzeDKIM_valid domain selector txt verify :
  validOutcome (score (Dkim.analyzeDKIM domain selector txt verify)).
Proof.
  unfold Dkim.analyzeDKIM. destruct txt as [txtRecords|code message]; [|done].
  destruct (Dkim.findKey txtRecords) as [dkimKey|]; [|done].
  apply analyzeDKIMRecord_score.
Qed.

Lemma analyzeMXRecords_valid records :
  validScore (a_score (Mx.analyzeMXRecords records)).
Proof.
  destruct (analyzeMXRecords_score records) as (Hout & H & _).
  unfold validScore. rewrite Hout.
  destruct H as [[V _]|[(V & _)|(V & _)]]; rewrite V; lra.
Qed.

Lemma analyzeMX_valid domain mx : validOutcome (score (Mx.analyzeMX domain mx)).
Proof.
  unfold Mx.analyzeMX. destruct mx as [[[|r rest]|]|message]; try done.
  apply analyzeMXRecords_valid.
Qed.

Lemma contributing_valid (l : list ProtocolReport) :
  Forall (fun r => validOutcome (score r)) l -> Forall validScore (contributing l).
Proof.
  induction 1 as [|r l Hr _ IH]; [constructor|].
  rewrite contributing_cons. apply Forall_app. split; [|exact IH].
  unfold contributing. simpl.
  destruct (success r), (score r); simpl; try constructor; try done; constructor.
Qed.

(** The overall score of valid scores is valid. *)
Lemma aggregate_valid domain (r0 r1 r2 r3 : Aggregate.Settled) :
  validSettled r0 -> validSettled r1 -> validSettled r2 -> validSettled r3 ->
  let sc := Aggregate.overallScore (Aggregate.aggregate domain r0 r1 r2 r3) in
  outOf sc = 10 /\ validScore sc.
Proof.
  intros H0 H1 H2 H3 sc. split; [done|].
  destruct (totals_sums (Aggregate.unwrap r0) (Aggregate.unwrap r1)
                        (Aggregate.unwrap r2) (Aggregate.unwrap r3)) as [HT HM].
  assert (Hv : Forall validScore
                 (contributing [Aggregate.unwrap r0; Aggregate.unwrap r1;
                                Aggregate.unwrap r2; Aggregate.unwrap r3])).
  { apply contributing_valid. by repeat constructor. }
  apply sumOf_valid in Hv as [S0 S1].
  fold (achieved [Aggregate.unwrap r0; Aggregate.unwrap r1; Aggregate.unwrap r2;
                  Aggregate.unwrap r3]) in S0, S1.
  fold (applicable [Aggregate.unwrap r0; Aggregate.unwrap r1; Aggregate.unwrap r2;
                    Aggregate.unwrap r3]) in S1.
  rewrite <- HT in S0, S1. rewrite <- HM in S1.
  apply (round1_range _ 10), overallOf_range; assumption.
Qed.



End ScoreInvariants.

(** C8.  The score of [analyzeDKIMRecord] has [outOf = 5] and
    [0 <= value <= 5] for every record and every mailauth result; the
    score of [analyzeMXRecords] has [outOf = 3] and [0 <= value <= 3] for
    every record set; and [overallScore] has [outOf = 10] and
    [0 <= value <= 10] for every outcome of the SPF, DKIM and MX lookups,
    the score handed over by [analyzeDMARC] (if any) being a valid score. *)
Theorem scores_within_range :
  (forall record dkimResult,
      let sc := Report.a_score (Dkim.analyzeDKIMRecord record dkimResult) in
      Report.outOf sc = 5%Q /\ (0 <= Report.value sc)%Q /\ (Report.value sc <= 5)%Q) /\
  (forall records,
      let sc := Report.a_score (Mx.analyzeMXRecords records) in
      Report.outOf sc = 3%Q /\ (0 <= Report.value sc)%Q /\ (Report.value sc <= 3)%Q) /\
  (forall (w : Aggregate.World) (domain : string) (dkimSelector : option string),
      Spec.validSettled (Aggregate.analyzeDMARC w domain) ->
      let sc := Aggregate.overallScore
                  (Aggregate.analyzeEmailSecurity w domain dkimSelector) in
      Report.outOf sc = 10%Q /\ (0 <= Report.value sc)%Q /\ (Report.value sc <= 10)%Q) /\
  (forall (domain : string) (r0 r1 r2 r3 : Aggregate.Settled),
      Spec.validSettled r0 -> Spec.validSettled r1 ->
      Spec.validSettled r2 -> Spec.validSettled r3 ->
      let sc := Aggregate.overallScore (Aggregate.aggregate domain r0 r1 r2 r3) in
      Report.outOf sc = 10%Q /\ (0 <= Report.value sc)%Q /\ (Report.value sc <= 10)%Q).
Proof.
  split; [|split; [|split]].
  - intros record dkimResult sc.
    destruct (analyzeDKIMRecord_score record dkimResult) as (Hout & [V0 V1] & _).
    fold sc in Hout, V0, V1. rewrite Hout in V1. by repeat split.
  - intros records sc.
    destruct (analyzeMXRecords_score records) as (Hout & _).
    destruct (analyzeMXRecords_valid records) as [V0 V1].
    fold sc in Hout, V0, V1. rewrite Hout in V1. by repeat split.
  - intros w domain dkimSelector Hdmarc sc.
    destruct (aggregate_valid domain (Aggregate.analyzeDMARC w domain)
                (Aggregate.Fulfilled
                   (Spf.analyzeSPF domain (Aggregate.resolveTxt w domain)
                      (Aggregate.spfCheck w)))
                (Aggregate.Fulfilled
                   (Dkim.analyzeDKIM domain
                      match dkimSelector with Some sel => sel | None => "default" end
                      (Aggregate.resolveTxt w
                         (match dkimSelector with Some sel => sel | None => "default" end
                          +:+ "._domainkey." +:+ domain))
                      (Aggregate.dkimVerify w)))
                (Aggregate.Fulfilled (Mx.analyzeMX domain (Aggregate.resolveMx w domain))))
      as (Hout & [V0 V1]).
    + exact Hdmarc.
    + unfold Spec.validSettled. simpl.
      by rewrite analyzeSPF_score_none.
    + apply analyzeDKIM_valid.
    + apply analyzeMX_valid.
    + rewrite Hout in V1. by repeat split.
  - intros domain r0 r1 r2 r3 H0 H1 H2 H3 sc.
    destruct (aggregate_valid domain r0 r1 r2 r3 H0 H1 H2 H3) as (Hout & [V0 V1]).
    fold sc in Hout, V0, V1. rewrite Hout in V1. by repeat split.
Qed.

Lemma scores_within_range_witness :
  let w :=
    {| Aggregate.analyzeDMARC :=
         fun d =>
           Aggregate.Fulfilled
             {| Report.success := true; Report.error := None; Report.domain := Some d;
                Report.rawRecord := Some "v=DMARC1; p=none"; Report.warnings := Some [];
                Report.recommendations := Some [];
                Report.score :=
                  Some {| Report.value := 3 # 2; Report.outOf := 5;
                          Report.level := Report.Poor; Report.details := None |};
                Report.fields := Report.DmarcFields (Some "none") |};
       Aggregate.resolveTxt :=
         fun name =>
           if String.eqb name "example.org" then Report.TxtOk [["v=spf1 mx -all"]]
           else Report.TxtOk [["v=DKIM1; k=rsa; p=MIGfMA0GCSqGSIb3DQEBAQUAA4GNADCBiQKBgQC"]];
       Aggregate.resolveMx :=
         fun _ => Report.MxOk (Some [{| Report.priority := 20; Report.exchange := "mx2.example.org" |};
                                     {| Report.priority := 10; Report.exchange := "mx1.example.org" |}]);
       Aggregate.spfCheck := fun _ => Spf.SpfThrows "not reachable";
       Aggregate.dkimVerify := fun _ => None |} in
  let sc := Aggregate.overallScore (Aggregate.analyzeEmailSecurity w "example.org" None) in
  Report.outOf sc = 10%Q /\ (0 <= Report.value sc)%Q /\ (Report.value sc <= 10)%Q.
Proof.
  intros w sc.
  apply (proj1 (proj2 (proj2 scores_within_range)) w "example.org" None).
  split; unfold Qle; simpl; lia.
Defined.



(** ** Further properties of the rate limiter *)

(** X1.  A request is refused exactly when the ledger holds, for its
    address, a window that has not ended and has counted at least 10
    requests; a refusal leaves the ledger as it was and reports that
    window's [resetTime] with the fixed error text. *)
Theorem checkRateLimit_refused_iff
    (req : RateLimit.Request) (now : Z) (store : gmap string RateLimit.Entry) :
  let r := (RateLimit.checkRateLimit req now store).1 in
  (RateLimit.allowed r = false <->
   exists e, store !! RateLimit.clientIp req = Some e /\
             now <= RateLimit.resetTime e /\ RateLimit.limit <= RateLimit.count e) /\
  (RateLimit.allowed r = false ->
   (RateLimit.checkRateLimit req now store).2 = store /\
   RateLimit.remaining r = None /\
   RateLimit.error r = Some "Too many requests. Please try again later." /\
   exists e, store !! RateLimit.clientIp req = Some e /\
             RateLimit.res_resetTime r = Some (RateLimit.resetTime e)).
Proof.
  unfold RateLimit.checkRateLimit.
  destruct (store !! RateLimit.clientIp req) as [u|] eqn:E; simpl.
  - destruct (Z.gtb_spec now (RateLimit.resetTime u)); simpl.
    + split; [|done]. split; [done|]. intros (e & He & Hle & _).
      injection He as <-. lia.
    + destruct (Z.geb_spec (RateLimit.count u) RateLimit.limit); simpl.
      * split; [split; [intros _; exists u; by repeat split | done]|].
        intros _. repeat split. by exists u.
      * split; [|done]. split; [done|]. intros (e & He & _ & Hge).
        injection He as <-. lia.
  - split; [|done]. split; [done|]. by intros (e & He & _).
Qed.

Lemma checkRateLimit_refused_iff_witness :
  let req := {| RateLimit.ip := Some "203.0.113.7";
                RateLimit.connection_remoteAddress := None;
                RateLimit.socket_remoteAddress := None |} in
  let store : gmap string RateLimit.Entry :=
    {[ "203.0.113.7" := {| RateLimit.count := 10; RateLimit.resetTime := 5000 |} ]} in
  (RateLimit.checkRateLimit req 4000 store).2 = store.
Proof.
  intros req store.
  destruct (checkRateLimit_refused_iff req 4000 store) as [Hiff Hkeep].
  apply Hkeep. apply Hiff.
  exists {| RateLimit.count := 10; RateLimit.resetTime := 5000 |}.
  split; [reflexivity|]. split; simpl; unfold RateLimit.limit; lia.
Defined.

(** X2.  The answer to a request depends only on the ledger entry of its
    own address, and the request changes the entry of no other address. *)
Theorem checkRateLimit_address_isolation
    (req : RateLimit.Request) (now : Z) (store1 store2 : gmap string RateLimit.Entry)
    (other : string) :
  store1 !! RateLimit.clientIp req = store2 !! RateLimit.clientIp req ->
  other <> RateLimit.clientIp req ->
  (RateLimit.checkRateLimit req now store1).1 = (RateLimit.checkRateLimit req now store2).1 /\
  (RateLimit.checkRateLimit req now store1).2 !! RateLimit.clientIp req
    = (RateLimit.checkRateLimit req now store2).2 !! RateLimit.clientIp req /\
  (RateLimit.checkRateLimit req now store1).2 !! other = store1 !! other.
Proof.
  intros Hsame Hother. split; [|split].
  - unfold RateLimit.checkRateLimit. rewrite Hsame.
    destruct (store2 !! RateLimit.clientIp req) as [u|]; [|done].
    destruct (now >? RateLimit.resetTime u); [done|].
    by destruct (RateLimit.count u >=? RateLimit.limit).
  - unfold RateLimit.checkRateLimit. rewrite Hsame.
    destruct (store2 !! RateLimit.clientIp req) as [u|] eqn:E; simpl.
    + destruct (now >? RateLimit.resetTime u); simpl.
      * by rewrite !lookup_insert_eq.
      * destruct (RateLimit.count u >=? RateLimit.limit); simpl.
        -- congruence.
        -- by rewrite !lookup_insert_eq.
    + by rewrite !lookup_insert_eq.
  - apply checkRateLimit_other. congruence.
Qed.

Lemma checkRateLimit_address_isolation_witness :
  let req := {| RateLimit.ip := Some "203.0.113.7";
                RateLimit.connection_remoteAddress := None;
                RateLimit.socket_remoteAddress := None |} in
  let store : gmap string RateLimit.Entry :=
    {[ "198.51.100.2" := {| RateLimit.count := 10; RateLimit.resetTime := 5000 |} ]} in
  (RateLimit.checkRateLimit req 4000 store).1 = (RateLimit.checkRateLimit req 4000 ∅).1 /\
  (RateLimit.checkRateLimit req 4000 store).2 !! "198.51.100.2"
    = Some {| RateLimit.count := 10; RateLimit.resetTime := 5000 |}.
Proof.
  intros req store.
  destruct (checkRateLimit_address_isolation req 4000 store ∅ "198.51.100.2")
    as (H1 & _ & H3).
  - reflexivity.
  - discriminate.
  - split; [exact H1 | exact H3].
Defined.

Section LedgerInvariant.
Import RateLimit Props.

Lemma checkRateLimit_keeps_range req now store :
  countsInRange store ->
  countsInRange (checkRateLimit req now store).2 /\
  (allowed (checkRateLimit req now store).1 = true ->
   exists k, remaining (checkRateLimit req now store).1 = Some k /\ 0 <= k <= 9).
Proof.
  intros Hinv. unfold checkRateLimit.
  assert (Hins : forall e', 1 <= count e' <= limit ->
                            countsInRange (<[clientIp req := e']> store)).
  { intros e' He' a e Ha. destruct (decide (clientIp req = a)) as [<-|Hne].
    - rewrite lookup_insert_eq in Ha. by injection Ha as <-.
    - rewrite lookup_insert_ne in Ha by done. by apply (Hinv a). }
  destruct (store !! clientIp req) as [u|] eqn:E; simpl.
  - pose proof (Hinv _ _ E) as Hu.
    destruct (now >? resetTime u); simpl.
    + split; [apply Hins; simpl; unfold limit; lia|].
      intros _. exists 9. unfold limit. split; [done | lia].
    + destruct (Z.geb_spec (count u) limit); simpl.
      * split; [done | discriminate].
      * split; [apply Hins; simpl; lia|].
        intros _. eexists. split; [done|]. unfold limit in *. lia.
  - split; [apply Hins; simpl; unfold limit; lia|].
    intros _. exists 9. unfold limit. split; [done | lia].
Qed.

Lemma sweep_keeps_range now store : countsInRange store -> countsInRange (sweep now store).
Proof.
  intros Hinv a e Ha. unfold sweep in Ha.
  apply map_lookup_filter_Some in Ha as [Ha _]. by apply (Hinv a).
Qed.

End LedgerInvariant.

(** X3.  Whatever requests and sweeps are run, from a ledger whose
    entries have counted between 1 and 10 requests (the empty ledger is
    one), every entry keeps a count between 1 and 10, and every admission
    handed to the watched address reports a [remaining] between 0 and 9. *)
Theorem run_keeps_counts_in_range
    (a : string) (tr : list RateLimit.Event) (store : gmap string RateLimit.Entry) :
  Props.countsInRange store ->
  Props.countsInRange (RateLimit.run a tr store).2 /\
  Forall (fun r => RateLimit.allowed r = true ->
                   exists k, RateLimit.remaining r = Some k /\ 0 <= k <= 9)
         (RateLimit.run a tr store).1.
Proof.
  revert store. induction tr as [|e tr IH]; intros store Hinv; simpl.
  - split; [done | constructor].
  - destruct e as [req now|now].
    + destruct (checkRateLimit_keeps_range req now store Hinv) as [Hinv' Hrem].
      destruct (RateLimit.checkRateLimit req now store) as [r store'] eqn:Hc.
      simpl in Hinv', Hrem. destruct (IH store' Hinv') as [I1 I2].
      destruct (RateLimit.run a tr store') as [rs store''] eqn:Hr. simpl in *.
      split; [done|]. destruct (String.eqb _ a); [by constructor | done].
    + apply IH. by apply sweep_keeps_range.
Qed.

Lemma run_keeps_counts_in_range_witness :
  let req := {| RateLimit.ip := None;
                RateLimit.connection_remoteAddress := None;
                RateLimit.socket_remoteAddress := Some "192.0.2.9" |} in
  Props.countsInRange
    (RateLimit.run "192.0.2.9"
       [RateLimit.Call req 10; RateLimit.Call req 20; RateLimit.Sweep 70000;
        RateLimit.Call req 70001] ∅).2.
Proof.
  intros req.
  apply (run_keeps_counts_in_range "192.0.2.9"
           [RateLimit.Call req 10; RateLimit.Call req 20; RateLimit.Sweep 70000;
            RateLimit.Call req 70001] ∅).
  intros a e H. rewrite lookup_empty in H. discriminate H.
Defined.

(** X4.  After an admitted request the ledger holds an entry for the
    caller whose window ends no earlier than the request's time, and the
    answer has no error and [remaining = 10 - count] for that entry. *)
Theorem checkRateLimit_admitted
    (req : RateLimit.Request) (now : Z) (store : gmap string RateLimit.Entry) :
  let r := (RateLimit.checkRateLimit req now store).1 in
  let store' := (RateLimit.checkRateLimit req now store).2 in
  RateLimit.allowed r = true ->
  RateLimit.error r = None /\ RateLimit.res_resetTime r = None /\
  exists e, store' !! RateLimit.clientIp req = Some e /\
            RateLimit.remaining r = Some (RateLimit.limit - RateLimit.count e) /\
            now <= RateLimit.resetTime e.
Proof.
  unfold RateLimit.checkRateLimit.
  destruct (store !! RateLimit.clientIp req) as [u|] eqn:E; simpl.
  - destruct (Z.gtb_spec now (RateLimit.resetTime u)); simpl.
    + intros _. repeat split. eexists. rewrite lookup_insert_eq.
      split; [done|]. simpl. unfold RateLimit.window. split; [done | lia].
    + destruct (RateLimit.count u >=? RateLimit.limit); simpl; [discriminate|].
      intros _. repeat split. eexists. rewrite lookup_insert_eq. by repeat split.
  - intros _. repeat split. eexists. rewrite lookup_insert_eq.
    split; [done|]. simpl. unfold RateLimit.window. split; [done | lia].
Qed.

Lemma checkRateLimit_admitted_witness :
  let req := {| RateLimit.ip := Some "203.0.113.7";
                RateLimit.connection_remoteAddress := None;
                RateLimit.socket_remoteAddress := None |} in
  let store : gmap string RateLimit.Entry :=
    {[ "203.0.113.7" := {| RateLimit.count := 4; RateLimit.resetTime := 5000 |} ]} in
  RateLimit.error (RateLimit.checkRateLimit req 4000 store).1 = None.
Proof.
  intros req store.
  apply (checkRateLimit_admitted req 4000 store). reflexivity.
Defined.

(** X5.  The sweep keeps exactly the entries whose window has not ended
    at the time of the sweep, and it never changes an answer: a request
    that comes no earlier than the sweep is answered as if the sweep had
    not run. *)
Theorem sweep_is_transparent
    (req : RateLimit.Request) (s now : Z) (store : gmap string RateLimit.Entry) :
  (forall a e, RateLimit.sweep s store !! a = Some e <->
               store !! a = Some e /\ s <= RateLimit.resetTime e) /\
  (s <= now ->
   (RateLimit.checkRateLimit req now (RateLimit.sweep s store)).1
     = (RateLimit.checkRateLimit req now store).1).
Proof.
  assert (Hspec : forall a e, RateLimit.sweep s store !! a = Some e <->
                              store !! a = Some e /\ s <= RateLimit.resetTime e).
  { intros a e. unfold RateLimit.sweep. rewrite map_lookup_filter_Some. simpl.
    destruct (Z.gtb_spec s (RateLimit.resetTime e)); simpl; split; intros [H1 H2];
      (split; [done|]); try done; lia. }
  split; [exact Hspec|]. intros Hle. unfold RateLimit.checkRateLimit.
  destruct (RateLimit.sweep s store !! RateLimit.clientIp req) as [u|] eqn:E.
  - apply Hspec in E as [E _]. rewrite E.
    destruct (now >? RateLimit.resetTime u); [done|].
    by destruct (RateLimit.count u >=? RateLimit.limit).
  - destruct (store !! RateLimit.clientIp req) as [u|] eqn:E'; [|done].
    destruct (Z.gtb_spec now (RateLimit.resetTime u)); [done|].
    assert (Hkeep : RateLimit.sweep s store !! RateLimit.clientIp req = Some u)
      by (apply Hspec; split; [done | lia]).
    congruence.
Qed.

Lemma sweep_is_transparent_witness :
  let req := {| RateLimit.ip := Some "203.0.113.7";
                RateLimit.connection_remoteAddress := None;
                RateLimit.socket_remoteAddress := None |} in
  let store : gmap string RateLimit.Entry :=
    {[ "203.0.113.7" := {| RateLimit.count := 10; RateLimit.resetTime := 5000 |} ]} in
  (RateLimit.checkRateLimit req 7000 (RateLimit.sweep 6000 store)).1
    = (RateLimit.checkRateLimit req 7000 store).1.
Proof.
  intros req store.
  apply (proj2 (sweep_is_transparent req 6000 7000 store)). lia.
Defined.

(** ** Domain validation *)

Section DomainFacts.
Import Routes Props.

Lemma lowerChar_idempotent (c : ascii) : Js.lowerChar (Js.lowerChar c) = Js.lowerChar c.
Proof.
  destruct c as [b0 b1 b2 b3 b4 b5 b6 b7].
  destruct b0, b1, b2, b3, b4, b5, b6, b7; vm_compute; reflexivity.
Qed.

Lemma toLowerCase_lowered (s : string) : everyChar isLowered (Js.toLowerCase s) = true.
Proof.
  induction s as [|c s IH]; [done|]. simpl. rewrite IH, andb_true_r.
  unfold isLowered. rewrite lowerChar_idempotent. apply Ascii.eqb_refl.
Qed.

Lemma lowered_fixed (s : string) : everyChar isLowered s = true -> Js.toLowerCase s = s.
Proof.
  induction s as [|c s IH]; [done|]. simpl. intros H.
  apply andb_true_iff in H as [Hc Hs]. apply Ascii.eqb_eq in Hc.
  by rewrite Hc, IH.
Qed.

Lemma fixed_lowered (s : string) : Js.toLowerCase s = s -> everyChar isLowered s = true.
Proof. intros E. rewrite <- E. apply toLowerCase_lowered. Qed.

Lemma dropPrefix_spec (p : string) : forall s rest,
  dropPrefix p s = Some rest <-> s = p +:+ rest.
Proof.
  induction p as [|a p IH]; intros s rest; simpl.
  - rewrite append_nil_l. split; congruence.
  - rewrite append_cons. destruct s as [|b s]; [split; discriminate|].
    destruct (Ascii.eqb_spec a b) as [->|Hne].
    + rewrite IH. split; [by intros -> | by intros [= ->]].
    + split; [discriminate | intros [= E _]; congruence].
Qed.

Lemma dropPrefix_lowered (p : string) : forall s rest,
  dropPrefix p s = Some rest -> everyChar isLowered s = true ->
  everyChar isLowered rest = true.
Proof.
  induction p as [|a p IH]; intros s rest; simpl.
  - by intros [= ->].
  - destruct s as [|b s]; [discriminate|].
    destruct (Ascii.eqb a b); [|discriminate].
    intros H Hs. simpl in Hs. apply andb_true_iff in Hs as [_ Hs]. by apply (IH s).
Qed.

Lemma stripScheme_lowered s :
  everyChar isLowered s = true -> everyChar isLowered (stripScheme s) = true.
Proof.
  intros H. unfold stripScheme.
  destruct (dropPrefix "https://" s) as [r|] eqn:E1; [by apply (dropPrefix_lowered _ _ _ E1)|].
  destruct (dropPrefix "http://" s) as [r|] eqn:E2; [by apply (dropPrefix_lowered _ _ _ E2)|].
  done.
Qed.

Lemma stripWww_lowered s :
  everyChar isLowered s = true -> everyChar isLowered (stripWww s) = true.
Proof.
  intros H. unfold stripWww.
  destruct (dropPrefix "www." s) as [r|] eqn:E1; [by apply (dropPrefix_lowered _ _ _ E1)|].
  done.
Qed.

(** The first piece of a split has the characters of a prefix and none
    of them is the separator. *)
Lemma firstPiece_facts (c : ascii) (f : ascii -> bool) (s : string) :
  everyChar (fun d => negb (Ascii.eqb d c)) (Spf.firstPiece c s) = true /\
  (everyChar f s = true -> everyChar f (Spf.firstPiece c s) = true).
Proof.
  unfold Spf.firstPiece. induction s as [|d s [IH1 IH2]]; [done|]. simpl.
  destruct (Ascii.eqb d c) eqn:E; [done|].
  destruct (Js.splitChar c s) as [|p ps]; simpl.
  - rewrite E. split; [done|]. intros H. apply andb_true_iff in H as [H _].
    by rewrite H.
  - rewrite E. simpl. split; [exact IH1|]. intros H.
    apply andb_true_iff in H as [Hd Hs]. rewrite Hd. by apply IH2.
Qed.

(** A string without the character [c] does not contain the string [c]. *)
Lemma everyChar_no_includes (c : ascii) (s : string) :
  everyChar (fun d => negb (Ascii.eqb d c)) s = true ->
  Js.includes s (String c EmptyString) = false.
Proof.
  induction s as [|d s IH]; [done|]. simpl. intros H.
  apply andb_true_iff in H as [Hd Hs]. apply negb_true_iff in Hd.
  rewrite (IH Hs), orb_false_r.
  destruct (ascii_dec c d) as [->|]; [|done]. by rewrite Ascii.eqb_refl in Hd.
Qed.

Lemma includes_no_everyChar (c : ascii) (s : string) :
  Js.includes s (String c EmptyString) = false ->
  everyChar (fun d => negb (Ascii.eqb d c)) s = true.
Proof.
  induction s as [|d s IH]; [done|].
  change (Js.includes (String d s) (String c EmptyString))
    with (String.prefix (String c EmptyString) (String d s)
          || Js.includes s (String c EmptyString)).
  intros H. apply orb_false_iff in H as [Hp Hs]. simpl.
  rewrite (IH Hs), andb_true_r. simpl in Hp.
  destruct (ascii_dec c d) as [->|Hne].
  - by destruct s.
  - apply negb_true_iff. by apply Ascii.eqb_neq.
Qed.

Lemma cleanDomainOf_facts (input : string) :
  Js.includes (cleanDomainOf input) "/" = false /\
  Js.toLowerCase (cleanDomainOf input) = cleanDomainOf input.
Proof.
  unfold cleanDomainOf. split.
  - apply everyChar_no_includes, firstPiece_facts with (f := isLowered).
  - apply lowered_fixed, firstPiece_facts, stripWww_lowered, stripScheme_lowered,
      toLowerCase_lowered.
Qed.

Lemma validateDomain_cases (input : string) :
  (cleanDomainOf input = EmptyString \/ input = EmptyString ->
   isValid (validateDomain (Some input)) = false /\
   v_domain (validateDomain (Some input)) = None) /\
  (cleanDomainOf input <> EmptyString -> input <> EmptyString ->
   validateDomain (Some input) = validDomain (cleanDomainOf input)).
Proof.
  unfold validateDomain. simpl.
  destruct (String.eqb_spec input EmptyString) as [->|Hne]; simpl.
  - split; [done|]. intros _ H. done.
  - destruct (String.eqb_spec (cleanDomainOf input) EmptyString) as [E|Hc]; simpl.
    + split; [done|]. intros H. done.
    + assert (Hlen : (String.length (cleanDomainOf input) =? 0)%nat = false).
      { apply Nat.eqb_neq. destruct (cleanDomainOf input); [done | simpl; lia]. }
      rewrite Hlen. split; [intros [H|H]; done | done].
Qed.

End DomainFacts.

(** X6.  [validateDomain] accepts exactly the inputs whose cleaned form is
    not empty; an accepted domain is not empty, contains no "/" and is
    unchanged by [toLowerCase]; a rejection carries no domain and one of
    the two fixed texts, "Domain is required" for a missing or empty
    input. *)
Theorem validateDomain_outcome (domain : option string) :
  let v := Routes.validateDomain domain in
  (Routes.isValid v = true ->
   exists input d,
     domain = Some input /\ input <> EmptyString /\ d = Routes.cleanDomainOf input /\
     v = Props.validDomain d /\ d <> EmptyString /\
     Js.includes d "/" = false /\ Js.toLowerCase d = d) /\
  (Routes.isValid v = false ->
   Routes.v_domain v = None /\
   (Routes.v_error v = Some "Domain is required" \/
    Routes.v_error v = Some "Please enter a valid domain name")) /\
  (domain = None \/ domain = Some EmptyString ->
   v = {| Routes.isValid := false; Routes.v_error := Some "Domain is required";
          Routes.v_domain := None |}).
Proof.
  intros v. destruct domain as [input|]; [|by repeat split; try tauto].
  destruct (String.eqb_spec input EmptyString) as [->|Hne].
  { repeat split; try done. by left. }
  destruct (validateDomain_cases input) as [Hbad Hgood].
  destruct (String.eqb_spec (Routes.cleanDomainOf input) EmptyString) as [E|Hc].
  - destruct (Hbad (or_introl E)) as [H1 H2]. fold v in H1, H2.
    split; [congruence|]. split.
    + intros _. split; [done|]. right. unfold v, Routes.validateDomain.
      assert (Ht : Js.truthy (Some input) = true)
        by (simpl; apply negb_true_iff; by apply String.eqb_neq).
      rewrite Ht, E. reflexivity.
    + intros [H|H]; [done | congruence].
  - specialize (Hgood Hc Hne). fold v in Hgood.
    destruct (cleanDomainOf_facts input) as [Hs Hl].
    split; [|split].
    + intros _. by exists input, (Routes.cleanDomainOf input).
    + rewrite Hgood. discriminate.
    + intros [H|H]; [done | congruence].
Qed.

Lemma validateDomain_outcome_witness :
  exists input d,
    Some "  Example.ORG/about " = Some input /\ input <> EmptyString /\
    d = Routes.cleanDomainOf input /\
    Routes.validateDomain (Some "  Example.ORG/about ") = Props.validDomain d /\
    d <> EmptyString /\ Js.includes d "/" = false /\ Js.toLowerCase d = d.
Proof.
  apply (proj1 (validateDomain_outcome (Some "  Example.ORG/about "))).
  reflexivity.
Defined.

Section NormaliseFacts.
Import Routes Props.

Lemma trimEnd_cons (c : ascii) (t : string) :
  Js.isSpace c = false -> trimEnd (String c t) = String c (trimEnd t).
Proof. intros H. simpl. rewrite H. by destruct (trimEnd t). Qed.

Lemma trimEnd_append (x u : string) :
  trimEnd u <> EmptyString -> trimEnd (x +:+ u) = x +:+ trimEnd u.
Proof.
  intros Hu. induction x as [|a x IH]; [by rewrite !append_nil_l|].
  rewrite !append_cons. simpl. rewrite IH.
  destruct (x +:+ trimEnd u) eqn:E; [|done].
  destruct x; [|by rewrite append_cons in E]. by rewrite append_nil_l in E.
Qed.

Lemma lowered_h_not_space (c : ascii) :
  Js.lowerChar c = "h"%char -> Js.isSpace c = false.
Proof.
  destruct c as [b0 b1 b2 b3 b4 b5 b6 b7].
  destruct b0, b1, b2, b3, b4, b5, b6, b7; vm_compute; congruence.
Qed.

Lemma lowered_slash (c : ascii) : Js.lowerChar c = "/"%char -> c = "/"%char.
Proof.
  destruct c as [b0 b1 b2 b3 b4 b5 b6 b7].
  destruct b0, b1, b2, b3, b4, b5, b6, b7; vm_compute; congruence.
Qed.

Lemma toLowerCase_no_slash (d : string) :
  everyChar (fun c => negb (Ascii.eqb c "/")) d = true ->
  everyChar (fun c => negb (Ascii.eqb c "/")) (Js.toLowerCase d) = true.
Proof.
  induction d as [|c d IH]; [done|]. simpl. intros H.
  apply andb_true_iff in H as [Hc Hd]. rewrite (IH Hd), andb_true_r.
  apply negb_true_iff, Ascii.eqb_neq. intros E. apply lowered_slash in E.
  subst c. done.
Qed.

Lemma dropPrefix_every (f : ascii -> bool) (p : string) : forall s rest,
  dropPrefix p s = Some rest -> everyChar f s = true -> everyChar f rest = true.
Proof.
  induction p as [|a p IH]; intros s rest; simpl.
  - by intros [= ->].
  - destruct s as [|b s]; [discriminate|].
    destruct (Ascii.eqb a b); [|discriminate].
    intros H Hs. simpl in Hs. apply andb_true_iff in Hs as [_ Hs]. by apply (IH s).
Qed.

Lemma stripWww_every (f : ascii -> bool) (s : string) :
  everyChar f s = true -> everyChar f (stripWww s) = true.
Proof.
  intros H. unfold stripWww.
  destruct (dropPrefix "www." s) as [r|] eqn:E; [by apply (dropPrefix_every f _ _ _ E)|].
  done.
Qed.

(** A "/" right behind [x] does not take part in a leading "www.". *)
Lemma dropPrefix_cons (a b : ascii) (p s : string) :
  dropPrefix (String a p) (String b s)
    = if Ascii.eqb a b then dropPrefix p s else None.
Proof. reflexivity. Qed.

Lemma stripWww_before_slash (x y : string) :
  stripWww (x +:+ String "/" y) = stripWww x +:+ String "/" y.
Proof.
  unfold stripWww.
  destruct x as [|c0 x]; [reflexivity|].
  rewrite append_cons, !dropPrefix_cons.
  destruct (Ascii.eqb "w" c0); [|reflexivity].
  destruct x as [|c1 x]; [reflexivity|].
  rewrite append_cons, !dropPrefix_cons.
  destruct (Ascii.eqb "w" c1); [|reflexivity].
  destruct x as [|c2 x]; [reflexivity|].
  rewrite append_cons, !dropPrefix_cons.
  destruct (Ascii.eqb "w" c2); [|reflexivity].
  destruct x as [|c3 x]; [reflexivity|].
  rewrite append_cons, !dropPrefix_cons.
  destruct (Ascii.eqb "." c3); reflexivity.
Qed.

Lemma firstPiece_before (c : ascii) (z rest : string) :
  everyChar (fun d => negb (Ascii.eqb d c)) z = true ->
  Spf.firstPiece c (z +:+ String c rest) = z.
Proof.
  unfold Spf.firstPiece. induction z as [|d z IH]; intros H.
  - rewrite append_nil_l. simpl. by rewrite Ascii.eqb_refl.
  - rewrite append_cons. simpl in *. apply andb_true_iff in H as [Hd Hz].
    apply negb_true_iff in Hd. rewrite Hd. specialize (IH Hz).
    destruct (Js.splitChar c (z +:+ String c rest)); by subst.
Qed.

Lemma firstPiece_whole (c : ascii) (z : string) :
  everyChar (fun d => negb (Ascii.eqb d c)) z = true -> Spf.firstPiece c z = z.
Proof.
  unfold Spf.firstPiece. induction z as [|d z IH]; intros H; [done|].
  simpl in *. apply andb_true_iff in H as [Hd Hz].
  apply negb_true_iff in Hd. rewrite Hd. specialize (IH Hz).
  destruct (Js.splitChar c z); by subst.
Qed.

Lemma stripScheme_scheme (scheme rest : string) :
  scheme = "http://" \/ scheme = "https://" -> stripScheme (scheme +:+ rest) = rest.
Proof.
  intros [-> | ->]; unfold stripScheme.
  - assert (E1 : dropPrefix "https://" ("http://" +:+ rest) = None) by reflexivity.
    assert (E2 : dropPrefix "http://" ("http://" +:+ rest) = Some rest)
      by (by apply dropPrefix_spec).
    by rewrite E1, E2.
  - assert (E1 : dropPrefix "https://" ("https://" +:+ rest) = Some rest)
      by (by apply dropPrefix_spec).
    by rewrite E1.
Qed.

End NormaliseFacts.

(** X7.  A URL is reduced to its host: for an input made of [http://] or
    [https://] in any letter case, a host part without "/", then "/" and
    any path, [validateDomain] accepts and returns the host part in lower
    case with one leading [www.] removed (provided something is left). *)
Theorem validateDomain_url (scheme d path : string) :
  Js.toLowerCase scheme = "http://" \/ Js.toLowerCase scheme = "https://" ->
  Js.includes d "/" = false ->
  Routes.stripWww (Js.toLowerCase d) <> EmptyString ->
  Routes.validateDomain (Some (scheme +:+ d +:+ "/" +:+ path))
    = Props.validDomain (Routes.stripWww (Js.toLowerCase d)).
Proof.
  intros Hscheme Hslash Hleft.
  set (input := scheme +:+ d +:+ "/" +:+ path).
  assert (Hfirst : exists c rest, scheme = String c rest /\ Js.isSpace c = false).
  { destruct scheme as [|c rest]; [by destruct Hscheme|].
    exists c, rest. split; [done|]. apply lowered_h_not_space.
    destruct Hscheme as [H|H]; simpl in H; by injection H. }
  destruct Hfirst as (c & rest & Hsch & Hc).
  assert (Htrim : Routes.trim input
                  = scheme +:+ d +:+ String "/" (Routes.trimEnd path)).
  { unfold Routes.trim, input. rewrite Hsch, append_cons. simpl Routes.trimStart.
    rewrite Hc, <- append_cons, <- Hsch.
    assert (Hend : Routes.trimEnd ("/" +:+ path) = String "/" (Routes.trimEnd path))
      by (by apply (trimEnd_cons "/")).
    rewrite (trimEnd_append scheme), (trimEnd_append d), Hend; rewrite ?Hend; try done.
    rewrite trimEnd_append; rewrite Hend; [|done]. by destruct d. }
  assert (Hclean : Routes.cleanDomainOf input = Routes.stripWww (Js.toLowerCase d)).
  { unfold Routes.cleanDomainOf. rewrite Htrim, !toLowerCase_append.
    rewrite stripScheme_scheme by (destruct Hscheme; tauto).
    change (Js.toLowerCase (String "/" (Routes.trimEnd path)))
      with (String "/" (Js.toLowerCase (Routes.trimEnd path))).
    rewrite stripWww_before_slash. apply firstPiece_before.
    apply stripWww_every, toLowerCase_no_slash. by apply includes_no_everyChar. }
  destruct (validateDomain_cases input) as [_ Hgood].
  rewrite <- Hclean. apply Hgood; [by rewrite Hclean|].
  unfold input. rewrite Hsch, append_cons. discriminate.
Qed.

Lemma validateDomain_url_witness :
  Routes.validateDomain (Some ("HTTPS://" +:+ "WWW.Example.org" +:+ "/" +:+ "a/b?c=1 "))
    = Props.validDomain "example.org".
Proof.
  apply (validateDomain_url "HTTPS://" "WWW.Example.org" "a/b?c=1 ").
  - right. reflexivity.
  - reflexivity.
  - vm_compute. discriminate.
Defined.

(** ** The endpoints *)

(** X8.  [getCaptchaSecrets] never returns an empty list: it returns the
    secrets that are set (non-empty) in the environment, first
    [CAPTCHA_SECRET_1] then [CAPTCHA_SECRET_2], and the two development
    secrets exactly when neither is set. *)
Theorem getCaptchaSecrets_never_empty (env : Routes.Env) :
  let fromEnv (o : option string) :=
    match o with
    | Some x => if String.eqb x EmptyString then [] else [x]
    | None => []
    end in
  let configured := fromEnv (Routes.CAPTCHA_SECRET_1 env)
                    ++ fromEnv (Routes.CAPTCHA_SECRET_2 env) in
  Routes.getCaptchaSecrets env <> [] /\
  (configured <> [] -> Routes.getCaptchaSecrets env = configured) /\
  (configured = [] ->
   Routes.getCaptchaSecrets env = ["default-dev-secret-1"; "default-dev-secret-2"]).
Proof.
  intros fromEnv configured. unfold Routes.getCaptchaSecrets.
  assert (E : forall o, (if Js.truthy o then match o with Some x => [x] | None => [] end
                         else []) = fromEnv o).
  { intros [x|]; [|done]. simpl. by destruct (String.eqb x EmptyString). }
  rewrite !E. fold configured.
  destruct configured as [|x l]; simpl; by repeat split.
Qed.

Lemma getCaptchaSecrets_never_empty_witness :
  Routes.getCaptchaSecrets
    {| Routes.CAPTCHA_SECRET_1 := Some EmptyString;
       Routes.CAPTCHA_SECRET_2 := Some "s3cret" |} = ["s3cret"].
Proof.
  apply (proj1 (proj2 (getCaptchaSecrets_never_empty
                         {| Routes.CAPTCHA_SECRET_1 := Some EmptyString;
                            Routes.CAPTCHA_SECRET_2 := Some "s3cret" |}))).
  discriminate.
Defined.

Section EndpointFacts.
Import Routes.


End EndpointFacts.



(** ** Further properties of the SPF analysis *)

Section SpfRecordFacts.
Import Report Spf Props.

Lemma mechanismStep_effect (a : Analysis) (token : string) :
  lookups (mechanismStep a token)
    = (lookups a + Nat.b2n (requiresLookup (mechanismOf token)))%nat /\
  mechanisms (mechanismStep a token) = mechanisms a ++ [mechanismOf token] /\
  policy (mechanismStep a token) = policy a /\
  exists ws, warnings (mechanismStep a token) = warnings a ++ ws.
Proof.
  unfold mechanismStep, mechanismOf, when, isIn. cbn [requiresLookup existsb].
  remember (typeOf token) as t eqn:Ht. clear Ht.
  destruct (String.eqb_spec t "include") as [->|N1];
    [|destruct (String.eqb_spec t "a") as [->|N2];
      [|destruct (String.eqb_spec t "mx") as [->|N3];
        [|destruct (String.eqb_spec t "exists") as [->|N4];
          [|destruct (String.eqb_spec t "redirect") as [->|N5];
            [|destruct (String.eqb_spec t "ptr") as [->|N6]]]]]];
    simpl;
    try destruct (Js.includes token ":");
    try destruct (secondPiece "=" token) as [d|];
    try destruct (Js.truthy (Some d));
    simpl;
    (split; [lia|]); (split; [reflexivity|]); (split; [reflexivity|]);
    first [by exists []; rewrite app_nil_r | by eexists].
Qed.

Lemma mechanismLoop_effect (tokens : list string) : forall a,
  lookups (mechanismLoop tokens a)
    = (lookups a + List.length (List.filter requiresLookup (map mechanismOf tokens)))%nat /\
  mechanisms (mechanismLoop tokens a) = mechanisms a ++ map mechanismOf tokens /\
  keepsWarnings a (mechanismLoop tokens a).
Proof.
  unfold mechanismLoop.
  induction tokens as [|token tokens IH]; intros a.
  - simpl. rewrite app_nil_r. split; [lia|]. split; [done|]. by split.
  - cbn [fold_left map List.filter].
    destruct (mechanismStep_effect a token) as (L & M & Pol & ws & W).
    destruct (IH (mechanismStep a token)) as (L' & M' & Pol' & W').
    rewrite L', M', L, M, <- app_assoc. split; [|split; [done|]].
    + destruct (requiresLookup (mechanismOf token)); cbn [List.length Nat.b2n]; lia.
    + split; [congruence|]. intros w Hw. apply W'. rewrite W.
      apply in_or_app. by left.
Qed.

Lemma lookupBudget_keeps (a : Analysis) :
  lookups (lookupBudget a) = lookups a /\
  mechanisms (lookupBudget a) = mechanisms a /\
  keepsWarnings a (lookupBudget a).
Proof.
  unfold lookupBudget, keepsWarnings.
  destruct (10 <? lookups a)%nat; [|destruct (8 <? lookups a)%nat;
                                     [|destruct (5 <? lookups a)%nat]]; simpl;
    repeat split; try done; intros w Hw;
    first [by right | apply in_or_app; by left].
Qed.

Lemma lengthCheck_keeps record (a : Analysis) :
  lookups (lengthCheck record a) = lookups a /\
  mechanisms (lengthCheck record a) = mechanisms a /\
  keepsWarnings a (lengthCheck record a).
Proof.
  unfold lengthCheck, when, keepsWarnings.
  destruct (255 <? String.length record)%nat; simpl; repeat split; try done.
  intros w Hw. apply in_or_app. by left.
Qed.

Lemma includeLoopCheck_keeps tokens domain (a : Analysis) :
  lookups (includeLoopCheck tokens domain a) = lookups a /\
  mechanisms (includeLoopCheck tokens domain a) = mechanisms a /\
  keepsWarnings a (includeLoopCheck tokens domain a).
Proof.
  unfold includeLoopCheck, when, keepsWarnings.
  destruct (existsb _ _); simpl; repeat split; try done.
  intros w Hw. apply in_or_app. by left.
Qed.

Lemma keepsWarnings_trans a b c : keepsWarnings a b -> keepsWarnings b c -> keepsWarnings a c.
Proof. intros [P1 W1] [P2 W2]. split; [congruence | auto]. Qed.

(** From the graded policy to the finished analysis. *)
Lemma analyzeSpfRecord_from_policy record domain :
  let a := _analyzeSpfRecord record domain in
  let tokens := mechanismsOf record in
  lookups a = List.length (List.filter requiresLookup (map mechanismOf tokens)) /\
  mechanisms a = map mechanismOf tokens /\
  keepsWarnings (policyStep tokens) a.
Proof.
  intros a tokens. unfold a, _analyzeSpfRecord, beforeBudget. fold tokens.
  destruct (mechanismLoop_effect tokens (policyStep tokens)) as (L1 & M1 & K1).
  destruct (lookupBudget_keeps (mechanismLoop tokens (policyStep tokens)))
    as (L2 & M2 & K2).
  destruct (lengthCheck_keeps record
              (lookupBudget (mechanismLoop tokens (policyStep tokens))))
    as (L3 & M3 & K3).
  destruct (includeLoopCheck_keeps tokens domain
              (lengthCheck record
                 (lookupBudget (mechanismLoop tokens (policyStep tokens)))))
    as (L4 & M4 & K4).
  rewrite L4, L3, L2, L1, M4, M3, M2, M1.
  assert (P0 : lookups (policyStep tokens) = 0%nat /\ mechanisms (policyStep tokens) = []).
  { unfold policyStep. destruct (findPolicy tokens) as [m|]; [|done].
    destruct (String.eqb _ "+all"); [done|]. destruct (String.eqb _ "?all"); [done|].
    destruct (String.eqb _ "~all"); [done|]. by destruct (String.eqb _ "-all"). }
  destruct P0 as [-> ->]. split; [done|]. split; [done|].
  eapply keepsWarnings_trans; [exact K1|].
  eapply keepsWarnings_trans; [exact K2|].
  eapply keepsWarnings_trans; [exact K3 | exact K4].
Qed.

End SpfRecordFacts.

(** X10.  In the finished SPF analysis the [mechanisms] list has one
    entry per token behind the first, in the order of the record, each
    with the token as [original] and its classified type; and [lookups]
    is the number of entries whose [requiresLookup] is true, that is,
    whose type is include, a, mx, exists or redirect. *)
Theorem analyzeSpfRecord_mechanisms (record domain : string) :
  let a := Spf._analyzeSpfRecord record domain in
  map Report.original (Spf.mechanisms a) = Spf.mechanismsOf record /\
  Spf.lookups a = List.length (List.filter Report.requiresLookup (Spf.mechanisms a)) /\
  Forall (fun m =>
            Report.type m = Spf.typeOf (Report.original m) /\
            (Report.requiresLookup m = true <->
             In (Report.type m) ["include"; "a"; "mx"; "exists"; "redirect"]))
         (Spf.mechanisms a).
Proof.
  intros a. destruct (analyzeSpfRecord_from_policy record domain) as (L & M & _).
  fold a in L, M. rewrite L, M. split; [|split; [done|]].
  - rewrite map_map. simpl. apply map_id.
  - apply List.Forall_forall. intros m Hm. apply in_map_iff in Hm as (token & <- & _).
    split; [done|]. unfold Props.mechanismOf.
    cbn [Report.requiresLookup Report.type]. unfold Spf.isIn.
    rewrite existsb_exists. split.
    + intros (x & Hx & E). apply String.eqb_eq in E. by subst.
    + intros H. eexists. split; [exact H | apply String.eqb_refl].
Qed.

(** X11.  [analyzeSPF] gives one and the same "No SPF record found."
    report (no success, no score, no warnings, three recommendations)
    when the TXT answer has no record that starts with [v=spf1] up to
    letter case, the empty answer included, and when the query fails
    with ENODATA or ENOTFOUND; any other failure of the query gives an
    unsuccessful report that carries the failure's message. *)
Theorem analyzeSPF_not_found
    (domain : string) (spf : Spf.SpfQuery -> Spf.SpfOutcome) :
  let missing :=
    {| Report.success := false; Report.error := Some "No SPF record found.";
       Report.domain := Some domain; Report.rawRecord := None;
       Report.warnings := None;
       Report.recommendations := Report.recommendations (Spf.notFound domain);
       Report.score := None; Report.fields := Report.NoFields |} in
  (forall txtRecords,
      Forall (fun entry => ~ Spec.prefixIgnoringCase "v=spf1" (Js.join EmptyString entry))
             txtRecords ->
      Spf.analyzeSPF domain (Report.TxtOk txtRecords) spf = missing) /\
  (forall code message,
      code = "ENODATA" \/ code = "ENOTFOUND" ->
      Spf.analyzeSPF domain (Report.TxtErr (Some code) message) spf = missing) /\
  (forall code message,
      code <> Some "ENODATA" -> code <> Some "ENOTFOUND" ->
      let r := Spf.analyzeSPF domain (Report.TxtErr code message) spf in
      Report.success r = false /\ Report.error r = Some message /\
      Report.score r = None) /\
  option_map (@List.length string) (Report.recommendations missing) = Some 3%nat.
Proof.
  intros missing. split; [|split; [|split]].
  - intros txtRecords Hnone. unfold Spf.analyzeSPF, Spf.spfRecordsOf.
    assert (E : List.filter Spf.isSpfRecord (map (Js.join EmptyString) txtRecords) = []).
    { induction Hnone as [|entry l Hentry _ IH]; [done|]. simpl.
      destruct (Spf.isSpfRecord (Js.join EmptyString entry)) eqn:T; [|exact IH].
      by apply isSpfRecord_spec in T. }
    by rewrite E.
  - intros code message [-> | ->]; reflexivity.
  - intros code message H1 H2 r. unfold r, Spf.analyzeSPF, Spf.isNoData.
    destruct code as [c|]; [|done].
    destruct (String.eqb_spec c "ENODATA") as [->|]; [done|].
    destruct (String.eqb_spec c "ENOTFOUND") as [->|]; [done|]. done.
  - reflexivity.
Qed.

Lemma analyzeSPF_not_found_witness :
  Report.error
    (Spf.analyzeSPF "example.org"
       (Report.TxtOk [["google-site-verification=abc"]; ["spf2.0/pra"; " -all"]])
       (fun _ => Spf.SpfThrows "unused"))
    = Some "No SPF record found.".
Proof.
  rewrite (proj1 (analyzeSPF_not_found "example.org" (fun _ => Spf.SpfThrows "unused"))
             [["google-site-verification=abc"]; ["spf2.0/pra"; " -all"]]);
    [reflexivity|].
  repeat constructor; intros H; apply isSpfRecord_spec in H; discriminate H.
Defined.

(** X12.  The four test probes never decide an SPF analysis: whatever
    mailauth answers or throws, [success], [error], [rawRecord],
    [warnings], [recommendations], the lookup count, the policy and the
    mechanisms of the report are the same; and a successful report lists
    one probe result per test address, in the fixed order of the four
    addresses. *)
Theorem analyzeSPF_probes_do_not_decide
    (domain : string) (txt : Report.TxtOutcome)
    (spf1 spf2 : Spf.SpfQuery -> Spf.SpfOutcome) :
  let r1 := Spf.analyzeSPF domain txt spf1 in
  let r2 := Spf.analyzeSPF domain txt spf2 in
  Report.success r1 = Report.success r2 /\ Report.error r1 = Report.error r2 /\
  Report.rawRecord r1 = Report.rawRecord r2 /\
  Report.warnings r1 = Report.warnings r2 /\
  Report.recommendations r1 = Report.recommendations r2 /\
  match Report.fields r1, Report.fields r2 with
  | Report.SpfFields l1 p1 m1 t1 _, Report.SpfFields l2 p2 m2 t2 _ =>
      Report.success r1 = true /\ l1 = l2 /\ p1 = p2 /\ m1 = m2 /\
      map Report.test_ip t1 = Spf.testIPs /\ map Report.test_ip t2 = Spf.testIPs
  | Report.NoFields, Report.NoFields => Report.success r1 = false
  | _, _ => False
  end.
Proof.
  intros r1 r2. unfold r1, r2, Spf.analyzeSPF.
  destruct txt as [txtRecords|code message].
  - destruct (Spf.spfRecordsOf txtRecords) as [|x [|y rest]]; [done | | done].
    simpl. repeat split; unfold Spf.probe.
    + by destruct (spf1 _), (spf1 _), (spf1 _), (spf1 _).
    + by destruct (spf2 _), (spf2 _), (spf2 _), (spf2 _).
  - by destruct (Spf.isNoData code).
Qed.

Section SpfPolicyFacts.
Import Report Spf Props.

Lemma find_first {A} (f : A -> bool) (before after : list A) (m : A) :
  f m = true -> Forall (fun x => f x = false) before ->
  List.find f (before ++ m :: after) = Some m.
Proof.
  intros Hm. induction 1 as [|x l Hx _ IH]; simpl; [by rewrite Hm | by rewrite Hx].
Qed.

Lemma find_none {A} (f : A -> bool) (l : list A) :
  Forall (fun x => f x = false) l -> List.find f l = None.
Proof. induction 1 as [|x l Hx _ IH]; simpl; [done | by rewrite Hx]. Qed.

Lemma policyStep_policy (tokens : list string) :
  policy (policyStep tokens)
    = match findPolicy tokens with Some m => m | None => "No policy specified" end /\
  (findPolicy tokens = None -> In noPolicyWarning (warnings (policyStep tokens))).
Proof.
  unfold policyStep. destruct (findPolicy tokens) as [m|].
  - split; [|done].
    destruct (String.eqb _ "+all"); [done|]. destruct (String.eqb _ "?all"); [done|].
    destruct (String.eqb _ "~all"); [done|]. by destruct (String.eqb _ "-all").
  - split; [done|]. intros _. simpl. by left.
Qed.

Lemma splitChar_before (c : ascii) (z rest : string) :
  everyChar (fun d => negb (Ascii.eqb d c)) z = true ->
  Js.splitChar c (z +:+ String c rest) = z :: Js.splitChar c rest.
Proof.
  induction z as [|d z IH]; intros H.
  - rewrite append_nil_l. simpl. by rewrite Ascii.eqb_refl.
  - rewrite append_cons. simpl in *. apply andb_true_iff in H as [Hd Hz].
    apply negb_true_iff in Hd. by rewrite Hd, (IH Hz).
Qed.

Lemma splitChar_whole (c : ascii) (z : string) :
  everyChar (fun d => negb (Ascii.eqb d c)) z = true -> Js.splitChar c z = [z].
Proof.
  induction z as [|d z IH]; intros H; [done|].
  simpl in *. apply andb_true_iff in H as [Hd Hz].
  apply negb_true_iff in Hd. by rewrite Hd, (IH Hz).
Qed.

Lemma colon_lowered (c : ascii) : c = ":"%char -> Js.lowerChar c = ":"%char.
Proof. by intros ->. Qed.

Lemma no_colon_of_lowered (s : string) :
  everyChar (fun d => negb (Ascii.eqb d ":")) (Js.toLowerCase s) = true ->
  everyChar (fun d => negb (Ascii.eqb d ":")) s = true.
Proof.
  induction s as [|c s IH]; [done|]. simpl. intros H.
  apply andb_true_iff in H as [Hc Hs]. rewrite (IH Hs), andb_true_r.
  apply negb_true_iff, Ascii.eqb_neq. intros E.
  apply negb_true_iff, Ascii.eqb_neq in Hc. by apply Hc, colon_lowered.
Qed.

End SpfPolicyFacts.

(** X13.  The [policy] of an SPF analysis is the first token behind
    [v=spf1] that contains "all" in any letter case; when no token does,
    the policy is "No policy specified" and the warning about the missing
    terminating "all" mechanism is among the warnings. *)
Theorem analyzeSpfRecord_policy (record domain : string) :
  let a := Spf._analyzeSpfRecord record domain in
  let hasAll (token : string) := Js.includes (Js.toLowerCase token) "all" in
  (forall before m after,
      Spf.mechanismsOf record = before ++ m :: after ->
      hasAll m = true -> Forall (fun x => hasAll x = false) before ->
      Spf.policy a = m) /\
  (Forall (fun x => hasAll x = false) (Spf.mechanismsOf record) ->
   Spf.policy a = "No policy specified" /\
   In Props.noPolicyWarning (Spf.warnings a)).
Proof.
  intros a hasAll.
  destruct (analyzeSpfRecord_from_policy record domain) as (_ & _ & Hpol & Hwarn).
  fold a in Hpol, Hwarn.
  destruct (policyStep_policy (Spf.mechanismsOf record)) as [P W].
  split.
  - intros before m after E Hm Hbefore. rewrite Hpol, P. unfold Spf.findPolicy.
    rewrite E.
    pose proof (find_first (fun t => Js.includes (Js.toLowerCase t) "all")
                  before after m Hm Hbefore) as F.
    by rewrite F.
  - intros Hnone.
    assert (F : Spf.findPolicy (Spf.mechanismsOf record) = None)
      by exact (find_none (fun t => Js.includes (Js.toLowerCase t) "all") _ Hnone).
    split; [by rewrite Hpol, P, F | by apply Hwarn, W].
Qed.

Lemma analyzeSpfRecord_policy_witness :
  Spf.policy (Spf._analyzeSpfRecord "v=spf1 ip4:192.0.2.0/24 include:mail.example.net -ALL mx"
                "example.org") = "-ALL" /\
  In Props.noPolicyWarning
     (Spf.warnings (Spf._analyzeSpfRecord "v=spf1 mx a:mail.example.org" "example.org")).
Proof.
  split.
  - apply (proj1 (analyzeSpfRecord_policy
                    "v=spf1 ip4:192.0.2.0/24 include:mail.example.net -ALL mx" "example.org")
             ["ip4:192.0.2.0/24"; "include:mail.example.net"] "-ALL" ["mx"]).
    + vm_compute. reflexivity.
    + vm_compute. reflexivity.
    + constructor; [vm_compute; reflexivity|].
      constructor; [vm_compute; reflexivity | constructor].
  - apply (proj2 (analyzeSpfRecord_policy "v=spf1 mx a:mail.example.org" "example.org")).
    change (Spf.mechanismsOf "v=spf1 mx a:mail.example.org")
      with ["mx"; "a:mail.example.org"].
    constructor; [vm_compute; reflexivity|].
    constructor; [vm_compute; reflexivity | constructor].
Defined.

(** X14.  A record that includes the analyzed domain itself draws the
    include-loop warning: it is enough that one token is "include" in
    any letter case, a colon, and the domain (which has no colon). *)
Theorem analyzeSpfRecord_self_include (record domain head : string) :
  In (head +:+ ":" +:+ domain) (Spf.mechanismsOf record) ->
  Js.toLowerCase head = "include" ->
  Js.includes domain ":" = false ->
  In Props.includeLoopWarning (Spf.warnings (Spf._analyzeSpfRecord record domain)).
Proof.
  intros Hin Hhead Hdomain.
  assert (Hcolon : Props.everyChar (fun d => negb (Ascii.eqb d ":")) head = true)
    by (apply no_colon_of_lowered; by rewrite Hhead).
  assert (Hsecond : Spf.secondPiece ":" (head +:+ ":" +:+ domain) = Some domain).
  { unfold Spf.secondPiece.
    change (head +:+ ":" +:+ domain) with (head +:+ String ":" domain).
    rewrite (splitChar_before ":" head domain Hcolon).
    rewrite (splitChar_whole ":" domain); [done|]. by apply includes_no_everyChar. }
  assert (Hstarts : Js.startsWith (Js.toLowerCase (head +:+ ":" +:+ domain)) "include:" = true).
  { unfold Js.startsWith. rewrite toLowerCase_append, Hhead.
    change ("include" +:+ Js.toLowerCase (":" +:+ domain))
      with ("include:" +:+ Js.toLowerCase domain).
    apply prefix_append. }
  assert (Htarget : existsb (Spf.sameTarget domain)
                      (Spf.includeTargets (Spf.mechanismsOf record)) = true).
  { apply existsb_exists. exists (Some domain). split.
    - unfold Spf.includeTargets. apply in_map_iff.
      exists (head +:+ ":" +:+ domain). split; [done|].
      apply filter_In. by split.
    - simpl. apply String.eqb_refl. }
  unfold Spf._analyzeSpfRecord, Spf.includeLoopCheck, Spf.when. rewrite Htarget.
  simpl. apply in_or_app. right. by left.
Qed.

Lemma analyzeSpfRecord_self_include_witness :
  In Props.includeLoopWarning
     (Spf.warnings
        (Spf._analyzeSpfRecord "v=spf1 mx Include:example.org ~all" "example.org")).
Proof.
  apply (analyzeSpfRecord_self_include "v=spf1 mx Include:example.org ~all"
           "example.org" "Include").
  - vm_compute. right. by left.
  - reflexivity.
  - reflexivity.
Defined.

(** ** Further properties of the DKIM analysis *)

Section DkimMoreFacts.
Import Report Scoring Dkim Spec Props.
Local Open Scope Q_scope.

Lemma invalidFormat_findKey (txt : string) :
  invalidFormat txt
    = negb (Js.includes txt "v=DKIM1" || Js.includes txt "k=rsa" || Js.includes txt "p=").
Proof.
  unfold invalidFormat.
  by destruct (Js.includes txt "v=DKIM1"), (Js.includes txt "k=rsa"),
    (Js.includes txt "p=").
Qed.

Lemma findKey_some txtRecords key :
  findKey txtRecords = Some key ->
  invalidFormat key = false /\
  exists before after,
    map (Js.join EmptyString) txtRecords = before ++ key :: after /\
    Forall (fun txt => invalidFormat txt = true) before.
Proof.
  unfold findKey. generalize (map (Js.join EmptyString) txtRecords) as l.
  induction l as [|x l IH]; [discriminate|]. simpl.
  destruct (_ || _ || _) eqn:E.
  - intros [= <-]. split; [by rewrite invalidFormat_findKey, E|].
    by exists [], l.
  - intros H. destruct (IH H) as (Hk & before & after & -> & F).
    split; [done|]. exists (x :: before), after. split; [done|].
    constructor; [by rewrite invalidFormat_findKey, E | done].
Qed.

Lemma findKey_none txtRecords :
  findKey txtRecords = None ->
  Forall (fun txt => invalidFormat txt = true) (map (Js.join EmptyString) txtRecords).
Proof.
  unfold findKey. generalize (map (Js.join EmptyString) txtRecords) as l.
  induction l as [|x l IH]; [constructor|]. simpl.
  destruct (_ || _ || _) eqn:E; [discriminate|].
  intros H. constructor; [by rewrite invalidFormat_findKey, E | by apply IH].
Qed.

Lemma publicKeyPoints_range record :
  0 <= publicKeyPoints record /\ publicKeyPoints record <= 2.
Proof. unfold publicKeyPoints. destruct (_ && _); lra. Qed.

(** A DKIM-shaped record scores at least 1. *)
Lemma analyzeDKIMRecord_at_least_one record dkimResult :
  invalidFormat record = false ->
  1 <= value (a_score (analyzeDKIMRecord record dkimResult)).
Proof.
  intros Hshape.
  destruct (analyzeDKIMRecord_score record dkimResult) as (_ & _ & _ & Hv).
  rewrite (Hv Hshape). unfold Dkim.finalScoreOf.
  pose proof (accumulate_base record dkimResult) as B.
  destruct (publicKeyPoints_range record) as [P0 _].
  destruct (otherPoints_range record dkimResult) as (O0 & _).
  destruct (max_cases (Js.min (base (accumulate record dkimResult)) 5) 0) as [[H E]|[H E]];
    destruct (min_cases (base (accumulate record dkimResult)) 5) as [[H' E']|[H' E']];
    rewrite E; rewrite E' in *; lra.
Qed.

Lemma mailauthStep_keeps dkimResult (a : Acc) :
  warnings (mailauthStep dkimResult a) = warnings a /\
  recommendations (mailauthStep dkimResult a) = recommendations a.
Proof.
  unfold mailauthStep, infoStep, statusStep.
  destruct dkimResult as [[[[|result rest]|]]|]; try done.
  destruct (info result) as [i|], (status_result result) as [r|]; simpl;
    repeat match goal with |- context [if ?b then _ else _] => destruct b end; done.
Qed.

(** Clamping is monotone and never stretches a difference. *)
Lemma clamp_monotone x y c :
  0 <= c -> x <= y ->
  Js.max (Js.min x c) 0 <= Js.max (Js.min y c) 0 /\
  Js.max (Js.min y c) 0 - Js.max (Js.min x c) 0 <= y - x.
Proof.
  intros Hc Hxy.
  destruct (max_cases (Js.min x c) 0) as [[H1 E1]|[H1 E1]];
    destruct (max_cases (Js.min y c) 0) as [[H2 E2]|[H2 E2]];
    destruct (min_cases x c) as [[H3 E3]|[H3 E3]];
    destruct (min_cases y c) as [[H4 E4]|[H4 E4]];
    rewrite E1, E2; rewrite ?E3, ?E4 in *; lra.
Qed.

Lemma takeKey_spec (s : string) :
  everyChar isKeyChar (takeKey s) = true /\
  exists after, s = takeKey s +:+ after /\
                match after with
                | EmptyString => True
                | String c _ => isKeyChar c = false
                end.
Proof.
  induction s as [|c s (IH1 & after & IH2 & IH3)]; [split; [done | by exists EmptyString]|].
  simpl. destruct (isKeyChar c) eqn:E.
  - simpl. rewrite E, IH1. split; [done|]. exists after.
    rewrite append_cons. by rewrite <- IH2.
  - split; [done|]. exists (String c s). by rewrite append_nil_l.
Qed.

End DkimMoreFacts.

(** X15.  [analyzeDKIM] fails exactly when the TXT query fails, whatever
    the failure, or when no TXT value contains [v=DKIM1], [k=rsa] or
    [p=]; the report then names the selector in its error, carries the
    name that was looked up ([selector._domainkey.domain]) and has no
    score and no mailauth result. *)
Theorem analyzeDKIM_not_found
    (domain selector : string) (txt : Report.TxtOutcome)
    (verify : string -> option Report.DkimVerify) :
  let r := Dkim.analyzeDKIM domain selector txt verify in
  (Report.success r = false <->
   (exists code message, txt = Report.TxtErr code message) \/
   (exists txtRecords,
       txt = Report.TxtOk txtRecords /\
       Forall (fun value => Js.includes value "v=DKIM1" = false /\
                            Js.includes value "k=rsa" = false /\
                            Js.includes value "p=" = false)
              (map (Js.join EmptyString) txtRecords))) /\
  (Report.success r = false ->
   Report.error r = Some ("DKIM record not found for selector '" +:+ selector +:+ "'") /\
   Report.fields r
     = Report.DkimFields selector (selector +:+ "._domainkey." +:+ domain) None /\
   Report.score r = None /\ Report.rawRecord r = None /\ Report.warnings r = None).
Proof.
  intros r. unfold r, Dkim.analyzeDKIM.
  destruct txt as [txtRecords|code message].
  - destruct (Dkim.findKey txtRecords) as [key|] eqn:E; simpl.
    + split; [|done]. split; [done|]. intros [(c & m & H)|(l & [= <-] & F)]; [done|].
      destruct (findKey_some _ _ E) as (Hk & before & after & Hl & _).
      rewrite Hl in F. apply Forall_app in F as [_ F].
      apply Forall_cons in F as [(H1 & H2 & H3) _].
      rewrite invalidFormat_findKey, H1, H2, H3 in Hk. discriminate Hk.
    + split; [|done]. split; [|done]. intros _. right. exists txtRecords.
      split; [done|]. eapply Forall_impl; [apply (findKey_none _ E)|].
      intros value Hv. simpl in Hv. rewrite invalidFormat_findKey in Hv.
      apply negb_true_iff, orb_false_iff in Hv as [Hv H3].
      apply orb_false_iff in Hv as [H1 H2]. done.
  - simpl. split; [|done]. split; [|done]. intros _. left. by exists code, message.
Qed.

Lemma analyzeDKIM_not_found_witness :
  Report.error
    (Dkim.analyzeDKIM "example.org" "mail" (Report.TxtErr (Some "ESERVFAIL") "queryTxt ESERVFAIL")
       (fun _ => None))
    = Some "DKIM record not found for selector 'mail'".
Proof.
  apply (proj2 (analyzeDKIM_not_found "example.org" "mail"
                  (Report.TxtErr (Some "ESERVFAIL") "queryTxt ESERVFAIL") (fun _ => None))).
  reflexivity.
Defined.

(** X16.  A successful [analyzeDKIM] report holds, as [rawRecord], the
    first TXT value that contains [v=DKIM1], [k=rsa] or [p=]; it records
    the mailauth result, and its score is out of 5 with a value of at
    least 1 (the "invalid format" exit of the record analysis cannot be
    reached from [analyzeDKIM]). *)
Theorem analyzeDKIM_success
    (domain selector : string) (txt : Report.TxtOutcome)
    (verify : string -> option Report.DkimVerify) :
  let r := Dkim.analyzeDKIM domain selector txt verify in
  Report.success r = true ->
  exists txtRecords before key after sc,
    txt = Report.TxtOk txtRecords /\
    map (Js.join EmptyString) txtRecords = before ++ key :: after /\
    Forall (fun value => Dkim.invalidFormat value = true) before /\
    Dkim.invalidFormat key = false /\
    Report.rawRecord r = Some key /\
    Report.fields r
      = Report.DkimFields selector (selector +:+ "._domainkey." +:+ domain)
          (Some (verify (Dkim.testMessage domain selector))) /\
    Report.score r = Some sc /\ Report.outOf sc = 5%Q /\
    (1 <= Report.value sc)%Q /\ (Report.value sc <= 5)%Q.
Proof.
  intros r. unfold r, Dkim.analyzeDKIM.
  destruct txt as [txtRecords|code message]; [|discriminate].
  destruct (Dkim.findKey txtRecords) as [key|] eqn:E; [|discriminate].
  intros _. destruct (findKey_some _ _ E) as (Hk & before & after & Hl & F).
  destruct (analyzeDKIMRecord_score key (verify (Dkim.testMessage domain selector)))
    as (Hout & [_ V1] & _).
  exists txtRecords, before, key, after,
    (Report.a_score (Dkim.analyzeDKIMRecord key (verify (Dkim.testMessage domain selector)))).
  repeat split; try done.
  - by apply analyzeDKIMRecord_at_least_one.
  - by rewrite Hout in V1.
Qed.

Lemma analyzeDKIM_success_witness :
  exists sc,
    Report.score
      (Dkim.analyzeDKIM "example.org" "default"
         (Report.TxtOk [["unrelated"]; ["v=DKIM1; t=y"]]) (fun _ => None)) = Some sc /\
    (1 <= Report.value sc)%Q.
Proof.
  destruct (analyzeDKIM_success "example.org" "default"
              (Report.TxtOk [["unrelated"]; ["v=DKIM1; t=y"]]) (fun _ => None))
    as (txtRecords & before & key & after & sc & _ & _ & _ & _ & _ & _ & Hs & _ & H1 & _).
  - reflexivity.
  - exists sc. split; [exact Hs | exact H1].
Defined.

(** X17.  The auxiliary mailauth verification is corroboration only: with
    any mailauth result the record analysis gives the warnings and the
    recommendations it gives without one, and a score value that is not
    lower and at most 0.5 higher. *)
Theorem analyzeDKIMRecord_verification_effect
    (record : string) (dkimResult : option Report.DkimVerify) :
  let verified := Dkim.analyzeDKIMRecord record dkimResult in
  let plain := Dkim.analyzeDKIMRecord record None in
  Report.a_warnings verified = Report.a_warnings plain /\
  Report.a_recommendations verified = Report.a_recommendations plain /\
  (Report.value (Report.a_score plain) <= Report.value (Report.a_score verified))%Q /\
  (Report.value (Report.a_score verified)
   <= Report.value (Report.a_score plain) + (1 # 2))%Q.
Proof.
  intros verified plain.
  destruct (analyzeDKIMRecord_score record dkimResult) as (_ & _ & _ & V1).
  destruct (analyzeDKIMRecord_score record None) as (_ & _ & _ & V2).
  fold verified in V1. fold plain in V2.
  unfold verified, plain, Dkim.analyzeDKIMRecord in *.
  destruct (Dkim.invalidFormat record); [by repeat split|].
  specialize (V1 eq_refl). specialize (V2 eq_refl). cbv zeta in *.
  cbn [Report.a_warnings Report.a_recommendations Report.a_score] in *.
  set (a0 := Dkim.accumulate record None) in *.
  assert (Ha : Dkim.accumulate record dkimResult = Dkim.mailauthStep dkimResult a0)
    by reflexivity.
  destruct (mailauthStep_keeps dkimResult a0) as [W R].
  destruct (mailauthStep_advances dkimResult a0) as (B & _).
  rewrite Ha in *. split; [done|]. split; [done|].
  rewrite V1, V2. unfold Dkim.finalScoreOf. rewrite <- Ha.
  assert (Hvp : (0 <= Spec.verificationPoints dkimResult)%Q /\
                (Spec.verificationPoints dkimResult <= 1 # 2)%Q).
  { unfold Spec.verificationPoints.
    destruct dkimResult as [[[[|result rest]|]]|]; try (split; lra).
    destruct (Report.status_result result) as [r|]; [|split; lra].
    destruct (String.eqb r "pass"); split; lra. }
  rewrite Ha.
  destruct (clamp_monotone (Scoring.base a0)
              (Scoring.base (Dkim.mailauthStep dkimResult a0)) 5) as [M1 M2];
    [lra | lra |].
  split; lra.
Qed.

(** X18.  A record with a public key ([p=] present, [p=;] absent), an RSA
    key type and the SHA-256 hash gets the full score: 5 out of 5,
    "Excellent". *)
Theorem analyzeDKIMRecord_full_score
    (record : string) (dkimResult : option Report.DkimVerify) :
  Js.includes record "p=" = true -> Js.includes record "p=;" = false ->
  Js.includes record "k=rsa" = true -> Js.includes record "h=sha256" = true ->
  let sc := Report.a_score (Dkim.analyzeDKIMRecord record dkimResult) in
  (Report.value sc == 5)%Q /\ Report.outOf sc = 5%Q /\ Report.level sc = Report.Excellent.
Proof.
  intros Hp Hempty Hrsa Hsha sc.
  assert (Hshape : Dkim.invalidFormat record = false)
    by (by rewrite invalidFormat_findKey, Hp, orb_true_r).
  destruct (analyzeDKIMRecord_score record dkimResult) as (Hout & _ & _ & Hv).
  specialize (Hv Hshape). fold sc in Hout, Hv.
  pose proof (accumulate_base record dkimResult) as B.
  assert (Hpk : Spec.publicKeyPoints record = 2%Q)
    by (unfold Spec.publicKeyPoints; by rewrite Hp, Hempty).
  assert (Hother : (2 <= Spec.otherPoints record dkimResult)%Q).
  { unfold Spec.otherPoints, Spec.keyTypePoints, Spec.hashPoints. rewrite Hrsa, Hsha.
    assert (S : (0 <= Spec.servicePoints record)%Q)
      by (unfold Spec.servicePoints; destruct (Js.includes record "s=email"); lra).
    assert (L : (0 <= Spec.keyLengthPoints record)%Q).
    { unfold Spec.keyLengthPoints. destruct (Dkim.matchPublicKey record) as [key|]; [|lra].
      destruct (300 <? String.length key)%nat; lra. }
    assert (V : (0 <= Spec.verificationPoints dkimResult)%Q).
    { unfold Spec.verificationPoints.
      destruct dkimResult as [[[[|result rest]|]]|]; try lra.
      destruct (Report.status_result result) as [r|]; [|lra].
      destruct (String.eqb r "pass"); lra. }
    lra. }
  rewrite Hpk in B.
  assert (Hf : (Dkim.finalScoreOf (Dkim.accumulate record dkimResult) == 5)%Q).
  { unfold Dkim.finalScoreOf.
    destruct (max_cases (Js.min (Scoring.base (Dkim.accumulate record dkimResult)) 5) 0)
      as [[H E]|[H E]];
      destruct (min_cases (Scoring.base (Dkim.accumulate record dkimResult)) 5)
        as [[H' E']|[H' E']]; rewrite E; rewrite E' in *; lra. }
  split; [by rewrite Hv, Hf|]. split; [exact Hout|].
  unfold sc, Dkim.analyzeDKIMRecord. rewrite Hshape. cbv zeta. cbn [Report.a_score Report.level].
  unfold Dkim.securityLevel.
  assert (G : Js.geq (Dkim.finalScoreOf (Dkim.accumulate record dkimResult)) 4 = true)
    by (apply geq_spec; rewrite Hf; lra).
  by rewrite G.
Qed.

Lemma analyzeDKIMRecord_full_score_witness :
  (Report.value
     (Report.a_score
        (Dkim.analyzeDKIMRecord "v=DKIM1; k=rsa; h=sha256; p=MIIBIjANBgkqhkiG9w0BAQEFAAOCAQ8A"
           None)) == 5)%Q.
Proof.
  apply (analyzeDKIMRecord_full_score
           "v=DKIM1; k=rsa; h=sha256; p=MIIBIjANBgkqhkiG9w0BAQEFAAOCAQ8A" None);
    vm_compute; reflexivity.
Defined.

(** X19.  What the key-length rule measures: when the pattern
    [p=([A-Za-z0-9+/=]+)] matches, the capture is not empty, is made of
    characters of the class only, stands in the record right behind a
    [p=], and is not followed by another character of the class; and a
    record without [p=] has no match. *)
Theorem matchPublicKey_sound (record key : string) :
  Dkim.matchPublicKey record = Some key ->
  key <> EmptyString /\ Props.everyChar Dkim.isKeyChar key = true /\
  exists before after,
    record = before +:+ "p=" +:+ key +:+ after /\
    match after with
    | EmptyString => True
    | String c _ => Dkim.isKeyChar c = false
    end.
Proof.
  revert key. induction record as [|c s IH]; intros key; [discriminate|].
  simpl.
  set (here := if Ascii.eqb c "p"
               then match s with
                    | String d rest => if Ascii.eqb d "=" then Dkim.takeKey rest
                                       else EmptyString
                    | EmptyString => EmptyString
                    end
               else EmptyString).
  destruct (String.eqb_spec here EmptyString) as [E|Hne].
  - intros H. destruct (IH key H) as (K1 & K2 & before & after & -> & K3).
    split; [done|]. split; [done|]. by exists (String c before), after.
  - intros [= <-]. split; [done|]. unfold here in *.
    destruct (Ascii.eqb_spec c "p") as [->|]; [|done].
    destruct s as [|d rest]; [done|].
    destruct (Ascii.eqb_spec d "=") as [->|]; [|done].
    destruct (takeKey_spec rest) as (T1 & after & T2 & T3).
    split; [done|]. exists EmptyString, after. split; [|done].
    rewrite append_nil_l. change ("p=" +:+ Dkim.takeKey rest +:+ after)
      with (String "p" (String "=" (Dkim.takeKey rest +:+ after))).
    by rewrite <- T2.
Qed.

Lemma matchPublicKey_sound_witness :
  exists key, Dkim.matchPublicKey "v=DKIM1; p=; sp=QUJD+/8=; n=x" = Some key /\
              key <> EmptyString.
Proof.
  exists "QUJD+/8=". split; [reflexivity|].
  apply (matchPublicKey_sound "v=DKIM1; p=; sp=QUJD+/8=; n=x" "QUJD+/8="). reflexivity.
Defined.

(** ** Further properties of the MX analysis *)

Section MxMoreFacts.
Import Report Scoring Mx Spec Props.

Lemma insertByPriority_filter (f : MxRecord -> bool) (p : Z) (x : MxRecord) :
  forall l,
    (forall r, f r = true <-> priority r = p) ->
    List.filter f (insertByPriority x l)
      = if f x then x :: List.filter f l else List.filter f l.
Proof.
  intros l Hf. induction l as [|y l IH]; simpl; [done|].
  destruct (Z.leb_spec (priority x) (priority y)) as [Hle|Hgt]; simpl; [done|].
  rewrite IH. destruct (f x) eqn:Ex, (f y) eqn:Ey; try done.
  apply Hf in Ex, Ey. lia.
Qed.

Lemma insertByPriority_perm x l : Permutation (insertByPriority x l) (x :: l).
Proof.
  induction l as [|y l IH]; simpl; [done|].
  destruct (priority x <=? priority y); [done|].
  rewrite IH. apply perm_swap.
Qed.

Lemma insertByPriority_sorted x l :
  StronglySorted byPriority l -> StronglySorted byPriority (insertByPriority x l).
Proof.
  unfold byPriority. induction 1 as [|y l Hs IH Hy]; simpl; [by repeat constructor|].
  destruct (Z.leb_spec (priority x) (priority y)) as [Hle|Hgt].
  - constructor; [by constructor|]. constructor; [done|].
    eapply Forall_impl; [exact Hy|]. simpl. intros; lia.
  - constructor; [exact IH|].
    assert (Hp : Permutation (insertByPriority x l) (x :: l))
      by apply insertByPriority_perm.
    apply (Permutation_Forall (symmetry Hp)). constructor; [lia | exact Hy].
Qed.

Lemma uniq_In (z : Z) (l : list Z) : In z (uniq l) <-> In z l.
Proof.
  induction l as [|x l IH]; simpl; [done|].
  rewrite filter_In, IH, negb_true_iff, Z.eqb_neq.
  destruct (decide (x = z)); split; intros H; try tauto.
  destruct H as [H|H]; [tauto|]. right. split; [done | lia].
Qed.

Lemma filter_length_le {A} (f : A -> bool) (l : list A) :
  (List.length (List.filter f l) <= List.length l)%nat.
Proof. induction l as [|x l IH]; simpl; [done|]. destruct (f x); simpl; lia. Qed.

Lemma filter_length_all {A} (f : A -> bool) (l : list A) :
  List.length (List.filter f l) = List.length l -> forall x, In x l -> f x = true.
Proof.
  induction l as [|y l IH]; simpl; [done|].
  pose proof (filter_length_le f l) as Hle.
  destruct (f y) eqn:E; simpl; intros H x [<-|Hx]; try done; try lia.
  apply IH; [lia | done].
Qed.

Lemma uniq_length (l : list Z) :
  (List.length (uniq l) <= List.length l)%nat /\
  (List.length (uniq l) = List.length l <-> List.NoDup l).
Proof.
  induction l as [|x l [IH1 IH2]]; simpl; [split; [done | split; [constructor | done]]|].
  pose proof (filter_length_le (fun y => negb (y =? x)) (uniq l)) as Hle.
  split; [lia|]. split.
  - intros H. assert (Hu : List.length (uniq l) = List.length l) by lia.
    constructor; [|by apply IH2].
    intros Hin. apply uniq_In in Hin.
    assert (Hf : List.length (List.filter (fun y => negb (y =? x)) (uniq l))
                 = List.length (uniq l)) by lia.
    pose proof (filter_length_all _ _ Hf x Hin) as Hx. simpl in Hx.
    by rewrite Z.eqb_refl in Hx.
  - intros Hnd. apply List.NoDup_cons_iff in Hnd as [Hx Hnd].
    apply IH2 in Hnd. f_equal. rewrite <- Hnd. f_equal.
    apply forallb_filter_id. apply forallb_forall. intros y Hy.
    apply (proj1 (uniq_In _ _)) in Hy.
    apply negb_true_iff, Z.eqb_neq. intros E. subst y. exact (Hx Hy).
Qed.

(** The points of two or more records before the null-MX rule. *)
Lemma beforeNull_by_priorities records :
  (2 <= List.length records)%nat ->
  (List.NoDup (map priority records) ->
   base (beforeNull records) = (0 + 1 + 1 + 1)%Q) /\
  (~ List.NoDup (map priority records) ->
   base (beforeNull records) = (0 + 1 + 1)%Q /\
   In samePriorityWarning (warnings (beforeNull records))).
Proof.
  intros Hlen. unfold beforeNull.
  destruct (issuesStep_keeps records
              (providerStep records
                 (priorityStep records
                    (redundancyStep records
                       (award 1 "MX records present (+1 point)" start)))))
    as (B & ws & W & _).
  destruct (providerStep_keeps records
              (priorityStep records
                 (redundancyStep records
                    (award 1 "MX records present (+1 point)" start))))
    as (B' & W').
  rewrite B, B', W, W'. clear B B' W W'.
  destruct (uniq_length (map priority records)) as [_ Hu].
  rewrite length_map in Hu.
  unfold priorityStep, redundancyStep.
  assert (H2 : (2 <=? List.length records)%nat = true) by (apply Nat.leb_le; lia).
  rewrite H2.
  destruct (Nat.eqb_spec (List.length (uniq (map priority records)))
              (List.length records)) as [E|N]; simpl.
  - split; [done|]. intros Hnd. destruct Hnd. by apply Hu.
  - split; [intros Hnd; apply Hu in Hnd; done|].
    intros _. split; [done|]. by left.
Qed.

Lemma beforeNull_single r : base (beforeNull [r]) = (0 + 1 + 1)%Q.
Proof.
  unfold beforeNull.
  destruct (issuesStep_keeps [r]
              (providerStep [r]
                 (priorityStep [r]
                    (redundancyStep [r]
                       (award 1 "MX records present (+1 point)" start)))))
    as (B & _).
  destruct (providerStep_keeps [r]
              (priorityStep [r]
                 (redundancyStep [r]
                    (award 1 "MX records present (+1 point)" start))))
    as (B' & _).
  by rewrite B, B'.
Qed.

(** The null-MX rule either zeroes the score of a sole record or leaves
    the points and the warnings gathered before it. *)
Lemma analyzeMXRecords_parts r rest :
  let records := r :: rest in
  let res := analyzeMXRecords records in
  (rest = [] /\ (value (a_score res) == 0)%Q) \/
  (value (a_score res)
     = Js.round1 (Js.max (Js.min (base (beforeNull records)) 3) 0) /\
   exists ws, a_warnings res = warnings (beforeNull records) ++ ws).
Proof.
  intros records res. unfold res, analyzeMXRecords. fold records. cbv zeta.
  cbn [a_score a_warnings value]. unfold finalScoreOf, accumulate, nullMxStep.
  destruct (hasNullMx records) eqn:Hn; cbn [andb].
  - destruct (Nat.eqb_spec (List.length records) 1) as [E|N].
    + left. split; [by destruct rest | vm_compute; done].
    + right. split; [done|]. by exists [mixedNullWarning].
  - right. split; [done|]. exists []. by rewrite app_nil_r.
Qed.

Lemma sortByPriority_perm l : Permutation (sortByPriority l) l.
Proof.
  induction l as [|x l IH]; simpl; [done|].
  etransitivity; [apply insertByPriority_perm | by constructor].
Qed.

Lemma sortByPriority_sorted l : StronglySorted byPriority (sortByPriority l).
Proof.
  induction l as [|x l IH]; simpl; [constructor | by apply insertByPriority_sorted].
Qed.

Lemma sortByPriority_filter (p : Z) l :
  List.filter (fun r => priority r =? p) (sortByPriority l)
    = List.filter (fun r => priority r =? p) l.
Proof.
  induction l as [|x l IH]; simpl; [done|].
  rewrite (insertByPriority_filter _ p); [|intros r; apply Z.eqb_eq].
  by rewrite IH.
Qed.

(** Lists in ascending order with the same records and no priority twice
    are the same list. *)
Lemma sorted_unique l : forall l',
  StronglySorted byPriority l -> StronglySorted byPriority l' ->
  Permutation l l' -> List.NoDup (map priority l) -> l = l'.
Proof.
  induction l as [|x t IH]; intros l' Hs Hs' Hp Hnd.
  - by apply Permutation_nil in Hp.
  - destruct l' as [|y t']; [by apply Permutation_sym, Permutation_nil_cons in Hp|].
    apply StronglySorted_inv in Hs as [Hst Hx].
    apply StronglySorted_inv in Hs' as [Hst' Hy].
    simpl in Hnd. apply List.NoDup_cons_iff in Hnd as [Hnx Hnd].
    assert (Hyin : In y (x :: t))
      by (apply (Permutation_in y (Permutation_sym Hp)); by left).
    assert (Hxin : In x (y :: t'))
      by (apply (Permutation_in x Hp); by left).
    assert (E : x = y).
    { destruct Hyin as [E|Hyin]; [done|].
      destruct Hxin as [E|Hxin]; [done|].
      rewrite List.Forall_forall in Hx, Hy.
      apply Hx in Hyin as H1. apply Hy in Hxin as H2. unfold byPriority in H1, H2.
      destruct Hnx. apply in_map_iff. exists y. split; [lia | done]. }
    subst y. f_equal. apply IH; try done.
    by apply Permutation_cons_inv in Hp.
Qed.

Lemma sortByPriority_canonical l l' :
  Permutation l l' -> List.NoDup (map priority l) ->
  sortByPriority l = sortByPriority l'.
Proof.
  intros Hp Hnd. apply sorted_unique; try apply sortByPriority_sorted.
  - etransitivity; [apply sortByPriority_perm|].
    etransitivity; [exact Hp|]. apply Permutation_sym, sortByPriority_perm.
  - eapply Permutation_NoDup; [|exact Hnd].
    apply Permutation_map, Permutation_sym, sortByPriority_perm.
Qed.

End MxMoreFacts.

(** X20.  The sort of [analyzeMX] puts the records in ascending order of
    priority, keeps exactly the records of the answer, and keeps records
    of one priority in the order of the answer. *)
Theorem sortByPriority_stable_sort (l : list Report.MxRecord) :
  StronglySorted Props.byPriority (Mx.sortByPriority l) /\
  Permutation (Mx.sortByPriority l) l /\
  forall p : Z,
    List.filter (fun r => Report.priority r =? p) (Mx.sortByPriority l)
      = List.filter (fun r => Report.priority r =? p) l.
Proof.
  split; [apply sortByPriority_sorted|].
  split; [apply sortByPriority_perm|].
  intros p. apply sortByPriority_filter.
Qed.

(** X21.  [analyzeMX] succeeds exactly when the MX query answers with at
    least one record.  A successful report carries the domain, no error,
    the records of the answer in ascending order of priority, warnings,
    recommendations and a score out of 3; a failed one carries the
    domain and an error, and neither records nor warnings nor a score,
    and recommendations only when the query answered without records. *)
Theorem analyzeMX_outcome (domain : string) (mx : Report.MxOutcome) :
  let rep := Mx.analyzeMX domain mx in
  Report.domain rep = Some domain /\
  (Report.success rep = true <-> exists r rest, mx = Report.MxOk (Some (r :: rest))) /\
  (Report.success rep = true ->
   Report.error rep = None /\
   (exists sorted sc ws rs,
      Report.fields rep = Report.MxFields sorted /\
      StronglySorted Props.byPriority sorted /\
      (forall records, mx = Report.MxOk (Some records) -> Permutation sorted records) /\
      Report.score rep = Some sc /\ Report.outOf sc = 3%Q /\
      Report.warnings rep = Some ws /\ Report.recommendations rep = Some rs)) /\
  (Report.success rep = false ->
   Report.error rep <> None /\ Report.fields rep = Report.NoFields /\
   Report.score rep = None /\ Report.warnings rep = None /\
   (Report.recommendations rep <> None <->
    mx = Report.MxOk None \/ mx = Report.MxOk (Some []))).
Proof.
  intros rep. unfold rep, Mx.analyzeMX.
  destruct mx as [[[|r rest]|]|message]; cbn [Report.success Report.domain
    Report.error Report.fields Report.score Report.warnings Report.recommendations].
  - split; [done|]. split; [split; [done | by intros (r & rest & H)]|].
    split; [done|]. intros _. repeat split; try done. intros _. by right.
  - split; [done|]. split; [split; [by exists r, rest | done]|].
    split; [|done]. intros _. split; [done|].
    eexists _, _, _, _. split; [reflexivity|].
    split; [apply sortByPriority_sorted|].
    split; [intros records [= <-]; apply sortByPriority_perm|].
    split; [reflexivity|]. split; [|by split].
    apply (analyzeMXRecords_score (Mx.sortByPriority (r :: rest))).
  - split; [done|]. split; [split; [done | by intros (r & rest & H)]|].
    split; [done|]. intros _. repeat split; try done. intros _. by left.
  - split; [done|]. split; [split; [done | by intros (r & rest & H)]|].
    split; [done|]. intros _. repeat split; try done. by intros [H|H].
Qed.

Lemma analyzeMX_outcome_witness :
  Report.success (Mx.analyzeMX "example.com" (Report.MxOk None)) = false /\
  Report.score (Mx.analyzeMX "example.com" (Report.MxOk None)) = None.
Proof.
  split; [reflexivity|].
  apply (analyzeMX_outcome "example.com" (Report.MxOk None)). reflexivity.
Defined.

(** X22.  The report of [analyzeMX] does not depend on the order in which
    the MX query lists the records, as long as no two records share a
    priority. *)
Theorem analyzeMX_order_independent (domain : string) (l l' : list Report.MxRecord) :
  Permutation l l' -> List.NoDup (map Report.priority l) ->
  Mx.analyzeMX domain (Report.MxOk (Some l))
    = Mx.analyzeMX domain (Report.MxOk (Some l')).
Proof.
  intros Hp Hnd. pose proof (sortByPriority_canonical l l' Hp Hnd) as E.
  unfold Mx.analyzeMX.
  destruct l as [|x t], l' as [|y t'].
  - done.
  - by apply Permutation_nil_cons in Hp.
  - by apply Permutation_sym, Permutation_nil_cons in Hp.
  - by rewrite E.
Qed.

Lemma analyzeMX_order_independent_witness :
  Mx.analyzeMX "example.com"
    (Report.MxOk (Some [{| Report.priority := 20; Report.exchange := "b.example.com" |};
                        {| Report.priority := 10; Report.exchange := "a.example.com" |}]))
  = Mx.analyzeMX "example.com"
    (Report.MxOk (Some [{| Report.priority := 10; Report.exchange := "a.example.com" |};
                        {| Report.priority := 20; Report.exchange := "b.example.com" |}])).
Proof.
  apply analyzeMX_order_independent.
  - apply perm_swap.
  - simpl. apply List.NoDup_cons; [simpl; intros [H|[]]; discriminate|].
    apply List.NoDup_cons; [simpl; tauto | apply List.NoDup_nil].
Defined.

(** X23.  [analyzeMXRecords] gives the full 3 points exactly to two or
    more records with pairwise different priorities.  Two or more
    records of which two share a priority score 2 and draw the warning
    "Some MX records have the same priority". *)
Theorem analyzeMXRecords_full_score (records : list Report.MxRecord) :
  let res := Mx.analyzeMXRecords records in
  ((Report.value (Report.a_score res) == 3)%Q <->
   (2 <= List.length records)%nat /\ List.NoDup (map Report.priority records)) /\
  ((2 <= List.length records)%nat ->
   ~ List.NoDup (map Report.priority records) ->
   (Report.value (Report.a_score res) == 2)%Q /\
   In Mx.samePriorityWarning (Report.a_warnings res)).
Proof.
  destruct records as [|r [|r' rest]].
  - cbv zeta. split; [|simpl; lia].
    split; [intros H; vm_compute in H; done | simpl; lia].
  - cbv zeta. split; [|simpl; lia].
    split; [|simpl; lia]. intros H.
    destruct (analyzeMXRecords_parts r []) as [[_ V]|[V _]]; cbv zeta in V.
    + rewrite V in H. vm_compute in H. done.
    + rewrite V, beforeNull_single in H. vm_compute in H. done.
  - set (records := r :: r' :: rest).
    assert (Hlen : (2 <= List.length records)%nat) by (simpl; lia).
    destruct (beforeNull_by_priorities records Hlen) as [Hd Hs].
    destruct (analyzeMXRecords_parts r (r' :: rest)) as [[? _]|[V [ws W]]]; [done|].
    cbv zeta in V, W. fold records in V, W. cbv zeta.
    assert (Hdec : List.NoDup (map Report.priority records) \/
                   ~ List.NoDup (map Report.priority records)).
    { destruct (uniq_length (map Report.priority records)) as [_ Hu].
      destruct (Nat.eq_dec (List.length (Mx.uniq (map Report.priority records)))
                           (List.length (map Report.priority records))) as [E|N].
      - left. by apply Hu.
      - right. intros H. by apply Hu in H. }
    destruct Hdec as [Hnd|Hnd].
    + split; [|done]. split; [done|]. intros _.
      rewrite V, (Hd Hnd). vm_compute. done.
    + destruct (Hs Hnd) as [B Hin]. split.
      * split; [|tauto]. intros H. rewrite V, B in H. vm_compute in H. done.
      * intros _ _. split; [rewrite V, B; vm_compute; done|].
        rewrite W. apply in_or_app. by left.
Qed.

Lemma analyzeMXRecords_full_score_witness :
  (Report.value
     (Report.a_score
        (Mx.analyzeMXRecords
           [{| Report.priority := 10; Report.exchange := "a.example.com" |};
            {| Report.priority := 10; Report.exchange := "b.example.com" |}])) == 2)%Q /\
  In Mx.samePriorityWarning
     (Report.a_warnings
        (Mx.analyzeMXRecords
           [{| Report.priority := 10; Report.exchange := "a.example.com" |};
            {| Report.priority := 10; Report.exchange := "b.example.com" |}])).
Proof.
  apply (analyzeMXRecords_full_score
           [{| Report.priority := 10; Report.exchange := "a.example.com" |};
            {| Report.priority := 10; Report.exchange := "b.example.com" |}]).
  - simpl. lia.
  - simpl. intros H. apply List.NoDup_cons_iff in H as [H _]. apply H. by left.
Defined.

(** ** Further properties of the aggregator *)

(** X24.  The priority recommendations count the failures: there is one
    for each of the four reports that did not succeed, and one more when
    the DMARC report succeeded with the policy [none].  So there are at
    most four, and there is none exactly when all four checks passed and
    the DMARC policy is not [none]. *)
Theorem aggregate_priority_recommendations
    (domain : string) (r0 r1 r2 r3 : Aggregate.Settled) :
  let A := Aggregate.aggregate domain r0 r1 r2 r3 in
  let S := Aggregate.summary A in
  (List.length (Aggregate.priorityRecommendations S) + Aggregate.passedChecks S
   = 4 + Nat.b2n (Props.policyIsNone (Aggregate.dmarc A)))%nat /\
  (List.length (Aggregate.priorityRecommendations S) <= 4)%nat /\
  (Aggregate.priorityRecommendations S = [] <->
   Aggregate.passedChecks S = 4%nat /\ Props.policyIsNone (Aggregate.dmarc A) = false).
Proof.
  intros A S. unfold S, A, Aggregate.aggregate, Props.policyIsNone.
  cbn [Aggregate.summary Aggregate.priorityRecommendations Aggregate.passedChecks
       Aggregate.dmarc].
  unfold Aggregate.priorityOf.
  generalize (Aggregate.unwrap r0) (Aggregate.unwrap r1)
             (Aggregate.unwrap r2) (Aggregate.unwrap r3).
  intros d s k m. cbn [List.filter].
  destruct (Aggregate.parsedP d) as [p|]; [destruct (String.eqb p "none")|];
    destruct (Report.success d), (Report.success s), (Report.success k),
      (Report.success m);
    cbn [negb andb app List.length Nat.b2n Nat.add];
    (split; [reflexivity|]); (split; [lia|]); split;
      try discriminate; try (intros [? ?]; discriminate); try (by split); done.
Qed.

